(** * py-trojan-emailer: a shallow embedding of [py-trojan-emailer.py]

    The development follows the source:
    - [PyStr]: the pieces of Python's [str] the program relies on
      ([replace], [lower], [in], [os.path.basename]);
    - [Parseaddr]: the address parser of the standard library and
      [smtplib.quoteaddr], which decide what MAIL FROM carries;
    - values, dictionaries and [Csv]: what [list(csv.DictReader(f))] builds
      from the rows of a file;
    - messages, the SMTP session and the world (standard input, the cursors
      of the two open files, the server, the clock of the operating system,
      the chronological trace of observable events), with a small
      state-and-exception monad over it;
    - the program: [send_email], [send_multiple_emails], [confirm_action]
      and the part of [main] that follows argument parsing;
    - the vocabulary of the properties, then the properties, one group of
      lemmas per function.

    Strings are strings of 8-bit characters. What the libraries do beyond
    the calls of the program is not modelled: the wire format of a message,
    the base64 text of an attachment ([Base64] stands for it) and the
    dialogue with the server, which accepts or refuses a command as a
    whole. *)

From Stdlib Require Import String Ascii List Bool Arith ZArith Lia.
Import ListNotations.

Local Open Scope string_scope.

(* ===================================================================== *)
(** ** Python strings *)
(* ===================================================================== *)

Module PyStr.

(** [s[n:]] *)
Fixpoint drop (n : nat) (s : string) : string :=
  match n, s with
  | O, _ => s
  | S _, EmptyString => EmptyString
  | S n', String _ s' => drop n' s'
  end.

(** [c in s] for a single character. *)
Fixpoint mem (c : ascii) (s : string) : bool :=
  match s with
  | EmptyString => false
  | String d s' => Ascii.eqb c d || mem c s'
  end.

(** [t in s]: [t] occurs in [s] as a contiguous substring. *)
Fixpoint contains (t s : string) : bool :=
  match s with
  | EmptyString => prefix t EmptyString
  | String _ s' => prefix t s || contains t s'
  end.

(** [s.replace(old, new)] for the empty [old]: [new] is inserted before
    every character and at the end. *)
Fixpoint intersperse (new s : string) : string :=
  match s with
  | EmptyString => new
  | String c s' => new ++ String c (intersperse new s')
  end.

(** The left-to-right scan of [s.replace(old, new)] for a non-empty [old]:
    at a position where [old] matches, [new] is emitted and the scan resumes
    after the match ([skip] counts the characters of the match still to be
    passed over); elsewhere the character is copied. *)
Fixpoint replace_from (old new : string) (skip : nat) (s : string) : string :=
  match s with
  | EmptyString => EmptyString
  | String c s' =>
      match skip with
      | S k => replace_from old new k s'
      | O =>
          if prefix old s
          then new ++ replace_from old new (String.length old - 1) s'
          else String c (replace_from old new 0 s')
      end
  end.

(** [s.replace(old, new)]: every non-overlapping occurrence, leftmost
    first. *)
Definition replace (old new s : string) : string :=
  match old with
  | EmptyString => intersperse new s
  | String _ _ => replace_from old new 0 s
  end.

(** [c.lower()] on the ASCII range; other characters are left as they are
    (no character outside that range lowers to [y] or [n], the only letters
    the program compares a lowered string with). *)
Definition lower_ascii (c : ascii) : ascii :=
  let n := nat_of_ascii c in
  if Nat.leb 65 n && Nat.leb n 90 then ascii_of_nat (n + 32) else c.

(** [s.lower()] *)
Fixpoint lower (s : string) : string :=
  match s with
  | EmptyString => EmptyString
  | String c s' => String (lower_ascii c) (lower s')
  end.

(** [os.path.basename(p)] (posixpath): what follows the last slash. *)
Fixpoint basename (p : string) : string :=
  match p with
  | EmptyString => EmptyString
  | String c p' => if mem "/"%char p' then basename p'
                   else if Ascii.eqb c "/"%char then p' else p
  end.

(** [s.endswith(c)] for a single character. *)
Fixpoint last_is (c : ascii) (s : string) : bool :=
  match s with
  | EmptyString => false
  | String a EmptyString => Ascii.eqb a c
  | String _ s' => last_is c s'
  end.

(** [' ' * n] *)
Fixpoint spaces (n : nat) : string :=
  match n with
  | O => EmptyString
  | S n' => String " "%char (spaces n')
  end.

End PyStr.

(* ===================================================================== *)
(** ** The address parser of the standard library *)
(* ===================================================================== *)

(** [email._parseaddr.AddrlistClass], [email.utils.getaddresses] and
    [parseaddr] in their strict mode, and [smtplib.quoteaddr], as CPython
    3.11 has them: what [smtplib] runs on the [From] header and on the
    envelope sender before it sends MAIL FROM. The parser keeps a position
    in the field; here every method takes the part of the field from that
    position on and returns what is left. Its loops end because the position
    moves forward; they are written with a counter [fuel] that
    [getaddrlist] sets high enough. *)
Module Parseaddr.

Definition specials : string :=
  "()<>@,:;." ++ String "034"%char "[]".

Definition LWS : string := String " "%char (String "009"%char EmptyString).

Definition CR : string := String "013"%char (String "010"%char EmptyString).

Definition FWS : string := LWS ++ CR.

Definition atomends : string := specials ++ LWS ++ CR.

Definition phraseends : string := PyStr.replace "." EmptyString atomends.

(** The characters [str.strip()] removes, among the code points below
    256. *)
Definition is_space (c : ascii) : bool :=
  let n := nat_of_ascii c in
  (Nat.leb 9 n && Nat.leb n 13) || (Nat.leb 28 n && Nat.leb n 32)
  || Nat.eqb n 133 || Nat.eqb n 160.

(** [s.lstrip()], [s.rstrip()], [s.strip()] *)
Fixpoint lstrip (s : string) : string :=
  match s with
  | EmptyString => EmptyString
  | String c s' => if is_space c then lstrip s' else s
  end.

Fixpoint rstrip (s : string) : string :=
  match s with
  | EmptyString => EmptyString
  | String c s' =>
      match rstrip s' with
      | EmptyString => if is_space c then EmptyString else String c EmptyString
      | r => String c r
      end
  end.

Definition strip (s : string) : string := rstrip (lstrip s).

Definition is_empty (s : string) : bool :=
  match s with
  | EmptyString => true
  | String _ _ => false
  end.

(** [sep.join(l)] *)
Fixpoint join (sep : string) (l : list string) : string :=
  match l with
  | [] => EmptyString
  | [x] => x
  | x :: l' => x ++ sep ++ join sep l'
  end.

(** [quote(str)]: backslashes and double quotes become quoted pairs. *)
Definition quote (s : string) : string :=
  PyStr.replace (String "034"%char EmptyString)
    (String "092"%char (String "034"%char EmptyString))
    (PyStr.replace (String "092"%char EmptyString)
       (String "092"%char (String "092"%char EmptyString)) s).

(** The loop of [getdelimited], after the opening character: the fragment
    and what follows it. [quote] is set after a backslash. A comment inside
    is read by a nested call (the loop of [getcomment]). *)
Fixpoint getdelimited_loop (fuel : nat) (endchars : string)
    (allowcomments quote : bool) (s : string) : string * string :=
  match fuel with
  | O => (EmptyString, s)
  | S fuel' =>
      match s with
      | EmptyString => (EmptyString, EmptyString)
      | String c s' =>
          if quote then
            let (r, t) :=
              getdelimited_loop fuel' endchars allowcomments false s' in
            (String c r, t)
          else if PyStr.mem c endchars then (EmptyString, s')
          else if allowcomments && Ascii.eqb c "("%char then
            let (inner, t) :=
              getdelimited_loop fuel' (String ")"%char (String "013"%char EmptyString))
                true false s' in
            let (r, t') :=
              getdelimited_loop fuel' endchars allowcomments false t in
            (inner ++ r, t')
          else if Ascii.eqb c "092"%char then
            getdelimited_loop fuel' endchars allowcomments true s'
          else
            let (r, t) :=
              getdelimited_loop fuel' endchars allowcomments false s' in
            (String c r, t)
      end
  end.

(** [getdelimited(beginchar, endchars, allowcomments)]; the parser calls it
    only at [beginchar]. *)
Definition getdelimited (fuel : nat) (beginchar : ascii) (endchars : string)
    (allowcomments : bool) (s : string) : string * string :=
  match s with
  | EmptyString => (EmptyString, EmptyString)
  | String c s' =>
      if Ascii.eqb c beginchar
      then getdelimited_loop fuel endchars allowcomments false s'
      else (EmptyString, s)
  end.

Definition getquote (fuel : nat) (s : string) : string * string :=
  getdelimited fuel "034"%char (String "034"%char (String "013"%char EmptyString))
    false s.

Definition getcomment (fuel : nat) (s : string) : string * string :=
  getdelimited fuel "("%char (String ")"%char (String "013"%char EmptyString)) true s.

Definition getdomainliteral (fuel : nat) (s : string) : string * string :=
  let (r, t) :=
    getdelimited fuel "["%char (String "]"%char (String "013"%char EmptyString))
      false s in
  ("[" ++ r ++ "]", t).

(** [getatom(atomends)] *)
Fixpoint getatom (atomends : string) (s : string) : string * string :=
  match s with
  | EmptyString => (EmptyString, EmptyString)
  | String c s' =>
      if PyStr.mem c atomends then (EmptyString, s)
      else let (a, t) := getatom atomends s' in (String c a, t)
  end.

(** [gotonext()]: the white space skipped (without line ends), what is
    left, and the comments with those passed over added. *)
Fixpoint gotonext (fuel : nat) (s : string) (commentlist : list string)
    : string * string * list string :=
  match fuel with
  | O => (EmptyString, s, commentlist)
  | S fuel' =>
      match s with
      | EmptyString => (EmptyString, EmptyString, commentlist)
      | String c s' =>
          if PyStr.mem c (LWS ++ String "010"%char (String "013"%char EmptyString))
          then
            let '(ws, t, cl) := gotonext fuel' s' commentlist in
            (if PyStr.mem c (String "010"%char (String "013"%char EmptyString))
             then ws else String c ws, t, cl)
          else if Ascii.eqb c "("%char then
            let (cm, t) := getcomment fuel' s in
            gotonext fuel' t (commentlist ++ [cm])%list
          else (EmptyString, s, commentlist)
      end
  end.

(** [getphraselist()] *)
Fixpoint getphraselist (fuel : nat) (s : string) (commentlist : list string)
    : list string * string * list string :=
  match fuel with
  | O => ([], s, commentlist)
  | S fuel' =>
      match s with
      | EmptyString => ([], EmptyString, commentlist)
      | String c s' =>
          if PyStr.mem c FWS then getphraselist fuel' s' commentlist
          else if Ascii.eqb c "034"%char then
            let (q, t) := getquote fuel' s in
            let '(pl, t', cl) := getphraselist fuel' t commentlist in
            (q :: pl, t', cl)
          else if Ascii.eqb c "("%char then
            let (cm, t) := getcomment fuel' s in
            getphraselist fuel' t (commentlist ++ [cm])%list
          else if PyStr.mem c phraseends then ([], s, commentlist)
          else
            let (a, t) := getatom phraseends s in
            let '(pl, t', cl) := getphraselist fuel' t commentlist in
            (a :: pl, t', cl)
      end
  end.

(** [getdomain()]: the pieces of the domain in [sdlist], joined at the
    end; a second [@] makes the domain empty. *)
Fixpoint getdomain_loop (fuel : nat) (s : string) (commentlist : list string)
    (sdlist : list string) : string * string * list string :=
  match fuel with
  | O => (join EmptyString sdlist, s, commentlist)
  | S fuel' =>
      match s with
      | EmptyString => (join EmptyString sdlist, EmptyString, commentlist)
      | String c s' =>
          if PyStr.mem c LWS then getdomain_loop fuel' s' commentlist sdlist
          else if Ascii.eqb c "("%char then
            let (cm, t) := getcomment fuel' s in
            getdomain_loop fuel' t (commentlist ++ [cm])%list sdlist
          else if Ascii.eqb c "["%char then
            let (dl, t) := getdomainliteral fuel' s in
            getdomain_loop fuel' t commentlist (sdlist ++ [dl])%list
          else if Ascii.eqb c "."%char then
            getdomain_loop fuel' s' commentlist (sdlist ++ ["."])%list
          else if Ascii.eqb c "@"%char then (EmptyString, s, commentlist)
          else if PyStr.mem c atomends then
            (join EmptyString sdlist, s, commentlist)
          else
            let (a, t) := getatom atomends s in
            getdomain_loop fuel' t commentlist (sdlist ++ [a])%list
      end
  end.

Definition getdomain (fuel : nat) (s : string) (commentlist : list string)
    : string * string * list string :=
  getdomain_loop fuel s commentlist [].

(** [if aslist and not aslist[-1].strip(): aslist.pop()] *)
Definition pop_blank (aslist : list string) : list string :=
  match rev aslist with
  | [] => aslist
  | x :: _ => if is_empty (strip x) then removelast aslist else aslist
  end.

(** The first loop of [getaddrspec()]: the local part, in pieces. *)
Fixpoint getaddrspec_loop (fuel : nat) (s : string)
    (commentlist : list string) (aslist : list string)
    : list string * string * list string :=
  match fuel with
  | O => (aslist, s, commentlist)
  | S fuel' =>
      match s with
      | EmptyString => (aslist, EmptyString, commentlist)
      | String c s' =>
          if Ascii.eqb c "."%char then
            let aslist := (pop_blank aslist ++ ["."])%list in
            let '(_, t, cl) := gotonext fuel' s' commentlist in
            getaddrspec_loop fuel' t cl aslist
          else if Ascii.eqb c "034"%char then
            let (q, t) := getquote fuel' s in
            let aslist :=
              (aslist ++ [String "034"%char (quote q ++ String "034"%char EmptyString)])%list in
            let '(ws, t', cl) := gotonext fuel' t commentlist in
            getaddrspec_loop fuel' t' cl
              (if is_empty ws then aslist else (aslist ++ [ws])%list)
          else if PyStr.mem c atomends then
            (pop_blank aslist, s, commentlist)
          else
            let (a, t) := getatom atomends s in
            let aslist := (aslist ++ [a])%list in
            let '(ws, t', cl) := gotonext fuel' t commentlist in
            getaddrspec_loop fuel' t' cl
              (if is_empty ws then aslist else (aslist ++ [ws])%list)
      end
  end.

(** [getaddrspec()] *)
Definition getaddrspec (fuel : nat) (s : string) (commentlist : list string)
    : string * string * list string :=
  let '(_, s, commentlist) := gotonext fuel s commentlist in
  let '(aslist, s, commentlist) := getaddrspec_loop fuel s commentlist [] in
  match s with
  | String "@"%char s' =>
      let aslist := (aslist ++ ["@"])%list in
      let '(_, s, commentlist) := gotonext fuel s' commentlist in
      let '(domain, s, commentlist) := getdomain fuel s commentlist in
      if is_empty domain then (EmptyString, s, commentlist)
      else (join EmptyString aslist ++ domain, s, commentlist)
  | _ => (join EmptyString aslist, s, commentlist)
  end.

(** The loop of [getrouteaddr()], after the opening angle bracket. *)
Fixpoint getrouteaddr_loop (fuel : nat) (expectroute : bool) (s : string)
    (commentlist : list string) : string * string * list string :=
  match fuel with
  | O => (EmptyString, s, commentlist)
  | S fuel' =>
      match s with
      | EmptyString => (EmptyString, EmptyString, commentlist)
      | String c s' =>
          if expectroute then
            let '(_, t, cl) := getdomain fuel' s commentlist in
            let '(_, t, cl) := gotonext fuel' t cl in
            getrouteaddr_loop fuel' false t cl
          else if Ascii.eqb c ">"%char then (EmptyString, s', commentlist)
          else if Ascii.eqb c "@"%char then
            let '(_, t, cl) := gotonext fuel' s' commentlist in
            getrouteaddr_loop fuel' true t cl
          else if Ascii.eqb c ":"%char then
            let '(_, t, cl) := gotonext fuel' s' commentlist in
            getrouteaddr_loop fuel' false t cl
          else
            let '(adlist, t, cl) := getaddrspec fuel' s commentlist in
            (adlist, PyStr.drop 1 t, cl)
      end
  end.

(** [getrouteaddr()]; the parser calls it only at an opening angle
    bracket. *)
Definition getrouteaddr (fuel : nat) (s : string) (commentlist : list string)
    : string * string * list string :=
  match s with
  | String "<"%char s' =>
      let '(_, t, cl) := gotonext fuel s' commentlist in
      getrouteaddr_loop fuel false t cl
  | _ => (EmptyString, s, commentlist)
  end.

Definition SPACE : string := " ".

(** [getaddress()]: the addresses read, as pairs of a name and an address,
    and what is left; with the loop of a group. The comment list is the
    same list object before and after the phrases are read, so going back to
    the old position keeps the comments read since. *)
Fixpoint getaddress (fuel : nat) (s : string)
    : list (string * string) * string :=
  match fuel with
  | O => ([], s)
  | S fuel' =>
      let '(_, s, commentlist) := gotonext fuel' s [] in
      let oldpos := s in
      let '(plist, s, commentlist) := getphraselist fuel' s commentlist in
      let '(_, s, commentlist) := gotonext fuel' s commentlist in
      let '(returnlist, s, commentlist) :=
        match s with
        | EmptyString =>
            (match plist with
             | [] => []
             | p :: _ => [(join SPACE commentlist, p)]
             end, s, commentlist)
        | String c s' =>
            if PyStr.mem c ".@" then
              let '(addrspec, t, cl) := getaddrspec fuel' oldpos commentlist in
              ([(join SPACE cl, addrspec)], t, cl)
            else if Ascii.eqb c ":"%char then
              let '(rl, t) := getgroup fuel' s' [] in
              (rl, t, commentlist)
            else if Ascii.eqb c "<"%char then
              let '(routeaddr, t, cl) := getrouteaddr fuel' s commentlist in
              (match cl with
               | [] => [(join SPACE plist, routeaddr)]
               | _ :: _ =>
                   [(join SPACE plist ++ " (" ++ join " " cl ++ ")",
                     routeaddr)]
               end, t, cl)
            else
              match plist with
              | p :: _ => ([(join SPACE commentlist, p)], s, commentlist)
              | [] =>
                  if PyStr.mem c specials then ([], s', commentlist)
                  else ([], s, commentlist)
              end
        end in
      let '(_, s, _) := gotonext fuel' s commentlist in
      match s with
      | String ","%char s' => (returnlist, s')
      | _ => (returnlist, s)
      end
  end
with getgroup (fuel : nat) (s : string)
    (returnlist : list (string * string))
    : list (string * string) * string :=
  match fuel with
  | O => (returnlist, s)
  | S fuel' =>
      match s with
      | EmptyString => (returnlist, EmptyString)
      | String _ _ =>
          let '(_, s, _) := gotonext fuel' s [] in
          match s with
          | String ";"%char s' => (returnlist, s')
          | _ =>
              let (ad, t) := getaddress fuel' s in
              getgroup fuel' t (returnlist ++ ad)%list
          end
      end
  end.
(** [getaddrlist()] *)
Fixpoint getaddrlist (fuel : nat) (s : string)
    (result : list (string * string)) : list (string * string) :=
  match fuel with
  | O => result
  | S fuel' =>
      match s with
      | EmptyString => result
      | String _ _ =>
          let (ad, t) := getaddress fuel' s in
          getaddrlist fuel' t
            (match ad with
             | [] => result ++ [(EmptyString, EmptyString)]
             | _ :: _ => result ++ ad
             end)%list
      end
  end.

(** [AddressList(field).addresslist] *)
Definition AddressList (field : string) : list (string * string) :=
  match field with
  | EmptyString => []
  | String _ _ => getaddrlist (2 * String.length field + 16) field []
  end.

(** [_iter_escaped_chars(addr)]: the positions and characters, a backslash
    taken together with the character after it. *)
Fixpoint iter_escaped_chars (pos : nat) (escape : bool) (addr : string)
    : list (nat * string) :=
  match addr with
  | EmptyString =>
      if escape then [(pos - 1, String "092"%char EmptyString)] else []
  | String ch addr' =>
      if escape then
        (pos, String "092"%char (String ch EmptyString))
          :: iter_escaped_chars (S pos) false addr'
      else if Ascii.eqb ch "092"%char then
        iter_escaped_chars (S pos) true addr'
      else (pos, String ch EmptyString) :: iter_escaped_chars (S pos) false addr'
  end.

(** The loop of [_strip_quoted_realnames]: [start], [open_pos] and
    [result] after the characters in [chars]. *)
Fixpoint strip_quoted_loop (addr : string) (chars : list (nat * string))
    (start : nat) (open_pos : option nat) (result : list string)
    : nat * list string :=
  match chars with
  | [] => (start, result)
  | (pos, ch) :: chars' =>
      if String.eqb ch (String "034"%char EmptyString) then
        match open_pos with
        | None => strip_quoted_loop addr chars' start (Some pos) result
        | Some op =>
            strip_quoted_loop addr chars' (S pos) None
              (if Nat.eqb start op then result
               else (result ++ [substring start (op - start) addr])%list)
        end
      else strip_quoted_loop addr chars' start open_pos result
  end.

(** [_strip_quoted_realnames(addr)] *)
Definition strip_quoted_realnames (addr : string) : string :=
  if negb (PyStr.mem "034"%char addr) then addr
  else
    let (start, result) :=
      strip_quoted_loop addr (iter_escaped_chars 0 false addr) 0 None [] in
    join EmptyString
      (if Nat.ltb start (String.length addr)
       then (result ++ [PyStr.drop start addr])%list else result).

(** The loop of [_check_parenthesis]. *)
Fixpoint check_parenthesis_loop (chars : list (nat * string)) (opens : nat)
    : bool :=
  match chars with
  | [] => Nat.eqb opens 0
  | (_, ch) :: chars' =>
      if String.eqb ch "(" then check_parenthesis_loop chars' (S opens)
      else if String.eqb ch ")" then
        match opens with
        | O => false
        | S o => check_parenthesis_loop chars' o
        end
      else check_parenthesis_loop chars' opens
  end.

Definition check_parenthesis (addr : string) : bool :=
  check_parenthesis_loop
    (iter_escaped_chars 0 false (strip_quoted_realnames addr)) 0.

Definition pre_parse_validation (fields : list string) : list string :=
  map (fun v => if check_parenthesis v then v else "('', '')") fields.

Definition post_parse_validation (l : list (string * string))
    : list (string * string) :=
  map (fun v => if PyStr.mem "["%char (snd v)
                then (EmptyString, EmptyString) else v) l.

(** [s.count(c)] for a single character. *)
Fixpoint count (c : ascii) (s : string) : nat :=
  match s with
  | EmptyString => 0
  | String d s' => (if Ascii.eqb d c then 1 else 0) + count c s'
  end.

(** [email.utils.getaddresses(fieldvalues)], strict. *)
Definition getaddresses (fieldvalues : list string)
    : list (string * string) :=
  let fieldvalues := pre_parse_validation fieldvalues in
  let result := post_parse_validation (AddressList (join ", " fieldvalues)) in
  let n :=
    fold_left
      (fun n v => n + (1 + count ","%char (strip_quoted_realnames v)))
      fieldvalues 0 in
  if Nat.eqb (List.length result) n then result
  else [(EmptyString, EmptyString)].

(** [email.utils.parseaddr(addr)], strict, for a [str]. *)
Definition parseaddr (addr : string) : string * string :=
  let addr := hd EmptyString (pre_parse_validation [addr]) in
  match post_parse_validation (AddressList addr) with
  | [a] => a
  | _ => (EmptyString, EmptyString)
  end.

(** [smtplib.quoteaddr(addrstring)] *)
Definition quoteaddr (addrstring : string) : string :=
  let (displayname, addr) := parseaddr addrstring in
  if is_empty displayname && is_empty addr then
    if prefix "<" (strip addrstring) then addrstring
    else "<" ++ addrstring ++ ">"
  else "<" ++ addr ++ ">".

End Parseaddr.

(* ===================================================================== *)
(** ** Python values, dictionaries and [csv.DictReader] *)
(* ===================================================================== *)

(** The values that flow through the program where Python is untyped: a
    cell of the recipient file is a [str]; [csv.DictReader] fills a short
    row with [None] and stores the surplus cells of a long row as a list. *)
Inductive value : Type :=
  | VStr (s : string)
  | VInt (z : Z)
  | VNone
  | VList (l : list string).

(** A dictionary key: a field name, or [None] (the [restkey] of
    [csv.DictReader]). *)
Definition key : Type := option string.

Definition key_eqb (a b : key) : bool :=
  match a, b with
  | Some x, Some y => String.eqb x y
  | None, None => true
  | _, _ => false
  end.

Definition key_value (k : key) : value :=
  match k with
  | Some s => VStr s
  | None => VNone
  end.

(** [str(k)], as ['{0}'.format(k)] renders a key. *)
Definition str_of_key (k : key) : string :=
  match k with
  | Some s => s
  | None => "None"
  end.

(** A [dict]: its items in insertion order, keys pairwise distinct. *)
Definition dict : Type := list (key * value).

(** [d[k] = v]: an existing key keeps its position. *)
Fixpoint dict_set (k : key) (v : value) (d : dict) : dict :=
  match d with
  | [] => [(k, v)]
  | (k', v') :: d' =>
      if key_eqb k k' then (k', v) :: d' else (k', v') :: dict_set k v d'
  end.

(** [d.get(k)] *)
Fixpoint dict_get (k : key) (d : dict) : option value :=
  match d with
  | [] => None
  | (k', v') :: d' => if key_eqb k k' then Some v' else dict_get k d'
  end.

(** [k in d] *)
Definition dict_mem (k : key) (d : dict) : bool :=
  match dict_get k d with
  | Some _ => true
  | None => false
  end.

(** [dict(pairs)] *)
Definition dict_of_pairs (ps : list (key * value)) : dict :=
  fold_left (fun d kv => dict_set (fst kv) (snd kv) d) ps [].

Module Csv.

(** The rows [csv.reader] yields for a file: one list of cells per line, the
    empty list for a blank line. *)
Definition table : Type := list (list string).

Definition is_blank (row : list string) : bool :=
  match row with
  | [] => true
  | _ :: _ => false
  end.

(** The body of [DictReader.__next__] for one non-blank row. *)
Definition row_dict (fieldnames row : list string) : dict :=
  let d := dict_of_pairs (combine (map Some fieldnames) (map VStr row)) in
  let lf := List.length fieldnames in
  let lr := List.length row in
  if Nat.ltb lf lr then dict_set None (VList (skipn lf row)) d
  else if Nat.ltb lr lf then
    fold_left (fun d k => dict_set (Some k) VNone d) (skipn lr fieldnames) d
  else d.

(** [list(csv.DictReader(f))]: the first row gives the field names, blank
    rows are skipped, every other row becomes a dictionary. *)
Definition DictReader (rows : table) : list dict :=
  match rows with
  | [] => []
  | fieldnames :: data =>
      map (row_dict fieldnames) (filter (fun r => negb (is_blank r)) data)
  end.

End Csv.

(* ===================================================================== *)
(** ** Messages, the SMTP session and the world *)
(* ===================================================================== *)

(** The body of a MIME part built with [MIMEBase]: the bytes handed to
    [set_payload], and after [encoders.encode_base64] their base64 text. *)
Inductive payload : Type :=
  | Raw (data : list Byte.byte)
  | Base64 (data : list Byte.byte).

Inductive mime_part : Type :=
  | MIMEText (text subtype : string)
  | MIMEBase (maintype subtype : string) (body : payload)
             (part_headers : list (string * string)).

(** A [MIMEMultipart] message: the headers the program sets, in the order it
    sets them, and the attached parts. *)
Record message : Type := {
  multipart_subtype : string;
  headers : list (string * value);
  parts : list mime_part
}.

Definition MIMEMultipart (subtype : string) : message :=
  {| multipart_subtype := subtype; headers := []; parts := [] |}.

(** [msg[name] = v] appends a header. *)
Definition set_header (name : string) (v : value) (msg : message) : message :=
  {| multipart_subtype := multipart_subtype msg;
     headers := headers msg ++ [(name, v)];
     parts := parts msg |}.

(** [msg.attach(part)] *)
Definition attach (p : mime_part) (msg : message) : message :=
  {| multipart_subtype := multipart_subtype msg;
     headers := headers msg;
     parts := parts msg ++ [p] |}.

(** [msg[name]]: the first header of that name, compared without case. *)
Fixpoint get_header (name : string) (hs : list (string * value)) : option value :=
  match hs with
  | [] => None
  | (n, v) :: hs' =>
      if String.eqb (PyStr.lower n) (PyStr.lower name) then Some v
      else get_header name hs'
  end.

(** The address [smtplib.SMTP.send_message] puts in MAIL FROM: [quoteaddr]
    of the [from_addr] argument when one is passed; otherwise of the address
    [email.utils.getaddresses] parses out of the [Sender] header when the
    message has one and out of the [From] header when it has not. A header
    that is missing reads as [None], whose [str] is parsed. Nothing is
    given for a header that is not a [str], which the program never sets
    for these two. *)
Definition envelope_sender (msg : message) (from_addr : option string)
    : option string :=
  match from_addr with
  | Some a => Some (Parseaddr.quoteaddr a)
  | None =>
      let field :=
        match get_header "Sender" (headers msg) with
        | Some v => Some v
        | None => get_header "From" (headers msg)
        end in
      let parsed (text : string) :=
        Parseaddr.quoteaddr
          (snd (hd (EmptyString, EmptyString)
                  (Parseaddr.getaddresses [text]))) in
      match field with
      | Some (VStr text) => Some (parsed text)
      | None => Some (parsed "None")
      | Some _ => None
      end
  end.

Inductive smtp_cmd : Type :=
  | Connect (host : string) (port : Z)
  | Ehlo
  | StartTls
  | Login (user : string) (password : option string)
  | SendMessage (msg : message) (from_addr : option string).

Inductive level : Type := DEBUG | INFO | WARNING | ERROR.

(** What the program does that can be observed from outside. *)
Inductive event : Type :=
  | Log (l : level) (fmt : string) (args : list value)
  | Input (prompt : string) (line : option string)
  | Smtp (c : smtp_cmd) (ok : bool)
  | SmtpClose
  | Sleep (secs : Z).

Inductive exn : Type :=
  | TypeError
  | KeyError
  | ValueError
  | EOFError
  | UnboundLocalError
  | SMTPException
  | OverflowError
  | OSError.

(** The world the program runs in: the lines still to be read from standard
    input, the cursors of the two open files of the command line, the SMTP
    server (whether it accepts a command, given everything that happened
    before), the clock of the operating system (whether it accepts a pause
    of so many seconds, given everything that happened before) and the
    events so far, oldest first. *)
Record world : Type := {
  stdin : list string;
  body_pos : nat;
  attachment_pos : nat;
  server : list event -> smtp_cmd -> bool;
  clock : list event -> Z -> bool;
  trace : list event
}.

Definition emit (e : event) (w : world) : world :=
  {| stdin := stdin w; body_pos := body_pos w;
     attachment_pos := attachment_pos w; server := server w;
     clock := clock w; trace := trace w ++ [e] |}.

Definition set_stdin (l : list string) (w : world) : world :=
  {| stdin := l; body_pos := body_pos w;
     attachment_pos := attachment_pos w; server := server w;
     clock := clock w; trace := trace w |}.

Definition set_body_pos (n : nat) (w : world) : world :=
  {| stdin := stdin w; body_pos := n;
     attachment_pos := attachment_pos w; server := server w;
     clock := clock w; trace := trace w |}.

Definition set_attachment_pos (n : nat) (w : world) : world :=
  {| stdin := stdin w; body_pos := body_pos w;
     attachment_pos := n; server := server w;
     clock := clock w; trace := trace w |}.

(** How a call ends: it returns, the process exits ([exit()]), or an
    exception propagates. *)
Inductive outcome (A : Type) : Type :=
  | Return (a : A)
  | Exit
  | Raise (e : exn).

Arguments Return {A} a.
Arguments Exit {A}.
Arguments Raise {A} e.

Definition M (A : Type) : Type := world -> outcome A * world.

Definition ret {A : Type} (a : A) : M A := fun w => (Return a, w).

Definition bind {A B : Type} (c : M A) (k : A -> M B) : M B :=
  fun w =>
    match c w with
    | (Return a, w') => k a w'
    | (Exit, w') => (Exit, w')
    | (Raise e, w') => (Raise e, w')
    end.

Definition exit {A : Type} : M A := fun w => (Exit, w).

Definition raise {A : Type} (e : exn) : M A := fun w => (Raise e, w).

(** [try: c finally: h], for a handler that cannot fail. *)
Definition finally {A : Type} (c : M A) (h : world -> world) : M A :=
  fun w => let (r, w') := c w in (r, h w').

Declare Scope py_scope.
Delimit Scope py_scope with py.
Notation "x <- c ;; k" := (bind c (fun x => k))
  (at level 61, c at next level, right associativity) : py_scope.
Notation "c ;; k" := (bind c (fun _ => k))
  (at level 61, right associativity) : py_scope.
Local Open Scope py_scope.

(** [logging.<level>(fmt, *args)] *)
Definition logging (l : level) (fmt : string) (args : list value) : M unit :=
  fun w => (Return tt, emit (Log l fmt args) w).

(** One command sent to the SMTP server; a refusal raises.
    [SMTPException] stands for what [smtplib] raises then, whatever its
    class: a connection that cannot be opened raises
    [ConnectionRefusedError]. *)
Definition smtp (c : smtp_cmd) : M unit :=
  fun w =>
    let ok := server w (trace w) c in
    ((if ok then Return tt else Raise SMTPException), emit (Smtp c ok) w).

(** [with smtplib.SMTP(host, port) as smtp_server: body] *)
Definition with_SMTP {A : Type} (host : string) (port : Z) (body : M A) : M A :=
  smtp (Connect host port) ;;
  finally body (emit SmtpClose).

(** [time.sleep(secs)] for an integer, as CPython 3.11 does it on a 64-bit
    platform: the length is converted to nanoseconds in a signed 64-bit
    integer, which raises [OverflowError] beyond 9223372036 seconds either
    way; a negative length then raises [ValueError]; otherwise the operating
    system is asked to pause, and either does or refuses the deadline
    ([OSError]), which depends on its clock. *)
Definition sleep (secs : Z) : M unit :=
  fun w =>
    if (secs <? -9223372036)%Z || (9223372036 <? secs)%Z then
      (Raise OverflowError, w)
    else if (secs <? 0)%Z then (Raise ValueError, w)
    else if clock w (trace w) secs then (Return tt, emit (Sleep secs) w)
    else (Raise OSError, w).

(** [f.read()] on the body file, then [f.seek(0)]. *)
Definition read_body (content : string) : M string :=
  fun w => (Return (PyStr.drop (body_pos w) content),
            set_body_pos (String.length content) w).

Definition seek_body (n : nat) : M unit :=
  fun w => (Return tt, set_body_pos n w).

Definition read_attachment (content : list Byte.byte) : M (list Byte.byte) :=
  fun w => (Return (skipn (attachment_pos w) content),
            set_attachment_pos (List.length content) w).

Definition seek_attachment (n : nat) : M unit :=
  fun w => (Return tt, set_attachment_pos n w).

(* ===================================================================== *)
(** ** The program *)
(* ===================================================================== *)

Definition is_none {A : Type} (o : option A) : bool :=
  match o with
  | Some _ => false
  | None => true
  end.

(** The namespace [argparse] hands to the program. *)
Record cli_arguments : Type := {
  sender_address : string;
  envelope_sender_address : option string;
  sender_display_name : string;
  hide_source_email : bool;
  cc_display_name : option string;
  recipient : option string;
  recipient_file : option (string * Csv.table);
  email_subject : string;
  email_body : string;
  email_attachment : option (string * list Byte.byte);
  message_format : string;
  message_priority : string;
  smtp_server : string;
  smtp_port : Z;
  sending_delay : Z;
  smtp_username : option string;
  smtp_password : option string
}.

(** The double quote of the format strings. *)
Definition dquote : string := String "034"%char EmptyString.

(** Lines 22-26: the value of the [From] header. *)
Definition from_header (hide_source_email : bool)
    (sender_display_name sender_address : string) : string :=
  if negb hide_source_email then
    dquote ++ sender_display_name ++ dquote ++ " <" ++ sender_address ++ ">"
  else
    let space_hack := PyStr.spaces 200 ++ "|" in
    dquote ++ sender_display_name ++ " " ++ space_hack ++ dquote
           ++ " <" ++ sender_address ++ ">".

(** Lines 19-31: the message with its headers, before the body is read. *)
Definition message_headers (recipient_email_addresss : value)
    (cli_arguments : cli_arguments) : message :=
  let email_message := MIMEMultipart "alternative" in
  let email_message :=
    set_header "Subject" (VStr (email_subject cli_arguments)) email_message in
  let email_message := set_header "To" recipient_email_addresss email_message in
  let email_message :=
    set_header "From"
      (VStr (from_header (hide_source_email cli_arguments)
               (sender_display_name cli_arguments)
               (sender_address cli_arguments))) email_message in
  let email_message :=
    set_header "X-Priority" (VStr (message_priority cli_arguments)) email_message in
  match cc_display_name cli_arguments with
  | Some cc =>
      set_header "CC" (VStr (dquote ++ cc ++ dquote ++ " <>")) email_message
  | None => email_message
  end.

(** Lines 40-43: the loop over [replacement_values.items()]. [str.replace]
    raises [TypeError] for a replacement that is not a [str]. *)
Fixpoint replace_placeholders (items : dict) (email_body : string) : M string :=
  match items with
  | [] => ret email_body
  | (key, value) :: items' =>
      let replacement_egg := "$" ++ str_of_key key ++ "$" in
      logging DEBUG "Replacing [%s] with [%s]" [VStr replacement_egg; value] ;;
      match value with
      | VStr new =>
          replace_placeholders items' (PyStr.replace replacement_egg new email_body)
      | _ => raise TypeError
      end
  end.

(** Lines 49-59: the attachment part. *)
Definition attachment_part (name : string) (data : list Byte.byte) : mime_part :=
  let attachment_file_name := PyStr.basename name in
  MIMEBase "application" "octet-stream" (Base64 data)
    [("Content-Transfer-Encoding", "base64");
     ("Content-Disposition", "attachment; filename= " ++ attachment_file_name)].

(** Lines 61-80: the SMTP session that delivers the message. *)
Definition deliver (recipient_email_addresss : value)
    (cli_arguments : cli_arguments) (email_message : message) : M unit :=
  with_SMTP (smtp_server cli_arguments) (smtp_port cli_arguments)
    (match smtp_username cli_arguments with
     | Some user =>
         logging INFO "Logging into %s on port %i using user: %s"
           [VStr (smtp_server cli_arguments); VInt (smtp_port cli_arguments);
            VStr user] ;;
         smtp Ehlo ;;
         smtp StartTls ;;
         smtp Ehlo ;;
         smtp (Login user (smtp_password cli_arguments))
     | None => ret tt
     end ;;
     logging INFO "Sending an email to %s" [recipient_email_addresss] ;;
     match envelope_sender_address cli_arguments with
     | Some a => smtp (SendMessage email_message (Some a))
     | None => smtp (SendMessage email_message None)
     end).

(** [send_email(recipient_email_addresss, cli_arguments, replacement_values)] *)
Definition send_email (recipient_email_addresss : value)
    (cli_arguments : cli_arguments) (replacement_values : option dict) : M unit :=
  let email_message := message_headers recipient_email_addresss cli_arguments in
  email_body <- read_body (email_body cli_arguments) ;;
  seek_body 0 ;;
  email_body <- match replacement_values with
                | Some d => replace_placeholders d email_body
                | None => ret email_body
                end ;;
  let encoded_message := MIMEText email_body (message_format cli_arguments) in
  let email_message := attach encoded_message email_message in
  email_message <- match email_attachment cli_arguments with
                   | Some (name, content) =>
                       data <- read_attachment content ;;
                       seek_attachment 0 ;;
                       ret (attach (attachment_part name data) email_message)
                   | None => ret email_message
                   end ;;
  deliver recipient_email_addresss cli_arguments email_message.

(** Lines 130-139: the loop of [confirm_action], reading [lines], the lines
    left on standard input. [input] raises [EOFError] when there is none. *)
Fixpoint confirm_loop (question default prompt : string) (lines : list string)
    (w : world) : outcome bool * world :=
  let w := emit (Log INFO (question ++ prompt) []) w in
  match lines with
  | [] => (Raise EOFError, emit (Input "Input -> " None) w)
  | line :: rest =>
      let w := emit (Input "Input -> " (Some line)) (set_stdin rest w) in
      let choice := PyStr.lower line in
      if String.eqb choice default || String.eqb choice EmptyString then
        (Return true, w)
      else if (String.eqb choice "y" || String.eqb choice "n")
              && negb (String.eqb choice default) then
        (Return false, w)
      else
        confirm_loop question default prompt rest
          (emit (Log WARNING "Invalid input supplied" []) w)
  end.

(** Lines 125-128: [prompt] is bound only for the defaults ['y'] and
    ['n']. *)
Definition confirm_prompt (default : string) : option string :=
  if String.eqb default "y" then Some " [Y/n] "
  else if String.eqb default "n" then Some " [y/N] "
  else None.

(** [confirm_action(question, default)] *)
Definition confirm_action (question default : string) : M bool :=
  fun w =>
    match confirm_prompt default with
    | Some prompt => confirm_loop question default prompt (stdin w) w
    | None => (Raise UnboundLocalError, w)
    end.

(** Lines 104-107: the recipients shown for review. *)
Fixpoint log_fields (items : dict) : M unit :=
  match items with
  | [] => ret tt
  | (key, value) :: items' =>
      logging INFO "[%s] %s" [key_value key; value] ;;
      log_fields items'
  end.

Fixpoint log_recipients (recipient_information : list dict) : M unit :=
  match recipient_information with
  | [] => ret tt
  | individual_recipient :: rest =>
      logging INFO "--------------------" [] ;;
      log_fields individual_recipient ;;
      log_recipients rest
  end.

(** [d[k]] *)
Definition subscript (k : key) (d : dict) : M value :=
  match dict_get k d with
  | Some v => ret v
  | None => raise KeyError
  end.

(** Lines 114-117: the sending loop. *)
Fixpoint send_all (recipient_information : list dict)
    (cli_arguments : cli_arguments) : M unit :=
  match recipient_information with
  | [] => ret tt
  | individual_recipient :: rest =>
      address <- subscript (Some "EmailAddress") individual_recipient ;;
      logging DEBUG "Processing an email to %s" [address] ;;
      address <- subscript (Some "EmailAddress") individual_recipient ;;
      send_email address cli_arguments (Some individual_recipient) ;;
      sleep (sending_delay cli_arguments) ;;
      send_all rest cli_arguments
  end.

(** [send_multiple_emails(recipient_file, cli_arguments)] *)
Definition send_multiple_emails (recipient_file : Csv.table)
    (cli_arguments : cli_arguments) : M unit :=
  let recipient_information := Csv.DictReader recipient_file in
  match recipient_information with
  | [] =>
      logging ERROR
        "The provided CSV is too short. There should be at least two rows. The header row and one row of data."
        [] ;;
      exit
  | first :: _ =>
      if negb (dict_mem (Some "EmailAddress") first) then
        logging ERROR
          "Looks like the EmailAddress field was not included in the recipient CSV file. This is a required item and must be included."
          [] ;;
        exit
      else
        logging INFO "The following %i emails are about to be sent:"
          [VInt (Z.of_nat (List.length recipient_information))] ;;
        log_recipients recipient_information ;;
        confirmed <- confirm_action
          "Before multiple emails are sent, do these values look correct?" "y" ;;
        (if negb confirmed then
           logging WARNING "User termination. Improper values detected." [] ;;
           exit
         else ret tt) ;;
        send_all recipient_information cli_arguments
  end.

(** [main()], from the parsed arguments on. *)
Definition main (cli_args : cli_arguments) : M unit :=
  (if (negb (is_none (smtp_username cli_args))
       || negb (is_none (smtp_password cli_args)))
      && (is_none (smtp_username cli_args) || is_none (smtp_password cli_args))
   then
     logging ERROR "Both a username and password is required for SMTP authentication" [] ;;
     exit
   else ret tt) ;;
  match recipient cli_args with
  | Some r =>
      logging INFO "Processing a single email to %s" [VStr r] ;;
      send_email (VStr r) cli_args None
  | None =>
      match recipient_file cli_args with
      | Some (name, rows) =>
          logging INFO
            "Processing multiple emails to individuals in the file at %s"
            [VStr name] ;;
          send_multiple_emails rows cli_args
      | None => ret tt
      end
  end.

(* ===================================================================== *)
(** ** Vocabulary of the properties *)
(* ===================================================================== *)

(** The placeholder of a field name, as line 41 builds it. *)
Definition token (k : string) : string := "$" ++ k ++ "$".

(** A mapping whose values are all strings, as a dictionary. *)
Definition str_items (M : list (string * string)) : dict :=
  map (fun kv => (Some (fst kv), VStr (snd kv))) M.

(** The string the loop of lines 40-43 computes for such a mapping. *)
Fixpoint substitute (M : list (string * string)) (body : string) : string :=
  match M with
  | [] => body
  | (k, v) :: M' => substitute M' (PyStr.replace (token k) v body)
  end.

(** The debug lines the loop writes. *)
Definition replacing_logs (M : list (string * string)) : list event :=
  map (fun kv => Log DEBUG "Replacing [%s] with [%s]"
                   [VStr (token (fst kv)); VStr (snd kv)]) M.

(** A value that cannot rebuild the placeholder of [k]: it has no dollar
    sign and does not occur inside [k] (so it is not empty: the empty string
    occurs in every string). *)
Definition safe_for (k v : string) : bool :=
  negb (PyStr.mem "$"%char v) && negb (PyStr.contains v k).

Definition safe_value (keys : list string) (v : string) : bool :=
  forallb (fun k => safe_for k v) keys.

(** An answer [confirm_action] rejects: lowered, it is neither empty nor
    [y] nor [n]. *)
Definition invalid_answer (line : string) : bool :=
  let choice := PyStr.lower line in
  negb (String.eqb choice EmptyString) && negb (String.eqb choice "y")
  && negb (String.eqb choice "n").

(** What [confirm_action] writes and reads for the rejected answers [bad]
    followed by the answer [line]. *)
Definition confirm_events (question prompt : string) (bad : list string)
    (line : string) : list event :=
  flat_map (fun b => [Log INFO (question ++ prompt) [];
                      Input "Input -> " (Some b);
                      Log WARNING "Invalid input supplied" []]) bad
  ++ [Log INFO (question ++ prompt) []; Input "Input -> " (Some line)].

(** The lines written for the review of the recipients (lines 104-107). *)
Definition review_events (recipient_information : list dict) : list event :=
  flat_map (fun r => Log INFO "--------------------" []
                     :: map (fun kv => Log INFO "[%s] %s"
                                         [key_value (fst kv); snd kv]) r)
           recipient_information.

(** The parts of the message [send_email] hands to the server, for the
    body text [body] and the attachment read from position [pos], and the
    message itself, built as lines 19-59 build it. *)
Definition message_parts (cli_arguments : cli_arguments) (body : string)
    (pos : nat) : list mime_part :=
  MIMEText body (message_format cli_arguments)
  :: match email_attachment cli_arguments with
     | Some (name, content) => [attachment_part name (skipn pos content)]
     | None => []
     end.

Definition built_message (recipient : value) (cli_arguments : cli_arguments)
    (body : string) (pos : nat) : message :=
  let email_message :=
    attach (MIMEText body (message_format cli_arguments))
           (message_headers recipient cli_arguments) in
  match email_attachment cli_arguments with
  | Some (name, content) =>
      attach (attachment_part name (skipn pos content)) email_message
  | None => email_message
  end.

(** An event of a session that hands [msg] to the server with the argument
    [from_addr], and hands over nothing else. *)
Definition only_sends (msg : message) (from_addr : option string)
    (e : event) : Prop :=
  match e with
  | Smtp (SendMessage m fa) _ => m = msg /\ fa = from_addr
  | Sleep _ => False
  | Input _ _ => False
  | _ => True
  end.

(** An event of one call of [send_email]: whatever is handed to the server
    is the message built from the arguments, for some body text. *)
Definition hands_over (recipient : value) (cli_arguments : cli_arguments)
    (pos : nat) (e : event) : Prop :=
  match e with
  | Smtp (SendMessage m fa) _ =>
      fa = envelope_sender_address cli_arguments
      /\ exists body, m = built_message recipient cli_arguments body pos
  | Sleep _ => False
  | Input _ _ => False
  | _ => True
  end.

(** The events of a session in which the server accepts every command. *)
Definition session_events (recipient : value) (cli_arguments : cli_arguments)
    (msg : message) : list event :=
  Smtp (Connect (smtp_server cli_arguments) (smtp_port cli_arguments)) true
  :: match smtp_username cli_arguments with
     | Some user =>
         [Log INFO "Logging into %s on port %i using user: %s"
            [VStr (smtp_server cli_arguments); VInt (smtp_port cli_arguments);
             VStr user];
          Smtp Ehlo true; Smtp StartTls true; Smtp Ehlo true;
          Smtp (Login user (smtp_password cli_arguments)) true]
     | None => []
     end
  ++ [Log INFO "Sending an email to %s" [recipient];
      Smtp (SendMessage msg (envelope_sender_address cli_arguments)) true;
      SmtpClose].

(** Messages handed to the server and pauses, the two things a batch run
    is about. *)
Definition is_delivery (e : event) : bool :=
  match e with
  | Smtp (SendMessage _ _) _ => true
  | Sleep _ => true
  | _ => false
  end.

(** Events that touch neither the server nor the clock nor the keyboard. *)
Definition is_log (e : event) : Prop :=
  match e with
  | Log _ _ _ => True
  | _ => False
  end.

(** The field mapping of a record whose keys are names and whose values are
    strings, and the address it is sent to. *)
Definition strings_of (d : dict) : list (string * string) :=
  flat_map (fun kv => match kv with
                      | (Some k, VStr v) => [(k, v)]
                      | _ => []
                      end) d.

Definition all_str (d : dict) : bool :=
  forallb (fun kv => match kv with
                     | (Some _, VStr _) => true
                     | _ => false
                     end) d.

Definition address_of (d : dict) : value :=
  match dict_get (Some "EmailAddress") d with
  | Some v => v
  | None => VNone
  end.

(** The server accepts every command. *)
Definition accepts_all (w : world) : Prop :=
  forall t c, server w t c = true.

(** The lines of [send_multiple_emails]. *)
Definition too_short_error : event :=
  Log ERROR
    "The provided CSV is too short. There should be at least two rows. The header row and one row of data."
    [].

Definition missing_field_error : event :=
  Log ERROR
    "Looks like the EmailAddress field was not included in the recipient CSV file. This is a required item and must be included."
    [].

Definition review_question : string :=
  "Before multiple emails are sent, do these values look correct?".

Definition user_termination : event :=
  Log WARNING "User termination. Improper values detected." [].

(** What [send_multiple_emails] does up to the answer of the operator: the
    count, the review of the recipients, the question and the answers. *)
Definition review_phase (recipient_information : list dict)
    (bad : list string) (line : string) : list event :=
  Log INFO "The following %i emails are about to be sent:"
    [VInt (Z.of_nat (List.length recipient_information))]
  :: review_events recipient_information
  ++ confirm_events review_question " [Y/n] " bad line.

(** What the sending loop does for one recipient when the server accepts
    every command, and for all of them. *)
Definition recipient_events (cli_arguments : cli_arguments) (r : dict)
    : list event :=
  Log DEBUG "Processing an email to %s" [address_of r]
  :: replacing_logs (strings_of r)
  ++ session_events (address_of r) cli_arguments
       (built_message (address_of r) cli_arguments
          (substitute (strings_of r) (email_body cli_arguments)) 0)
  ++ [Sleep (sending_delay cli_arguments)].

Definition batch_events (cli_arguments : cli_arguments)
    (recipient_information : list dict) : list event :=
  flat_map (recipient_events cli_arguments) recipient_information.

(** The message handed over for a recipient, then the pause. *)
Definition recipient_delivery (cli_arguments : cli_arguments) (r : dict)
    : list event :=
  [Smtp (SendMessage
           (built_message (address_of r) cli_arguments
              (substitute (strings_of r) (email_body cli_arguments)) 0)
           (envelope_sender_address cli_arguments)) true;
   Sleep (sending_delay cli_arguments)].

(** Events of the review: lines at level INFO or WARNING and answers read;
    no debug line of a replacement, nothing for the server, no pause. *)
Definition is_review (e : event) : Prop :=
  match e with
  | Log INFO _ _ => True
  | Log WARNING _ _ => True
  | Input _ _ => True
  | _ => False
  end.

(** The headers [send_email] sets, in order. *)
Definition expected_headers (recipient : value) (cli_arguments : cli_arguments)
    : list (string * value) :=
  [("Subject", VStr (email_subject cli_arguments));
   ("To", recipient);
   ("From", VStr (from_header (hide_source_email cli_arguments)
                    (sender_display_name cli_arguments)
                    (sender_address cli_arguments)));
   ("X-Priority", VStr (message_priority cli_arguments))]
  ++ match cc_display_name cli_arguments with
     | Some cc => [("CC", VStr (dquote ++ cc ++ dquote ++ " <>"))]
     | None => []
     end.

(** A fresh world: the files just opened, nothing logged, a server that
    accepts every command. *)
Definition world0 (lines : list string) : world :=
  {| stdin := lines; body_pos := 0; attachment_pos := 0;
     server := fun _ _ => true; clock := fun _ _ => true; trace := [] |}.

(** The arguments of a run used to try the properties. *)
Definition sample_args : cli_arguments :=
  {| sender_address := "it@corp.example";
     envelope_sender_address := Some "bounce@other.example";
     sender_display_name := "IT Desk";
     hide_source_email := true;
     cc_display_name := Some "The Boss";
     recipient := None;
     recipient_file :=
       Some ("people.csv",
             [["EmailAddress"; "Name"]; ["a@x.com"; "Alice"];
              ["b@x.com"; "Bob"]]);
     email_subject := "Offer for $Name$";
     email_body := "Hi $Name$";
     email_attachment := None;
     message_format := "html";
     message_priority := "3";
     smtp_server := "mail.corp.example";
     smtp_port := 25%Z;
     sending_delay := 0%Z;
     smtp_username := None;
     smtp_password := None |}.

(** The same arguments with a user name and no password, for one
    recipient. *)
Definition sample_args_username_only : cli_arguments :=
  {| sender_address := sender_address sample_args;
     envelope_sender_address := envelope_sender_address sample_args;
     sender_display_name := sender_display_name sample_args;
     hide_source_email := hide_source_email sample_args;
     cc_display_name := cc_display_name sample_args;
     recipient := Some "a@x.com";
     recipient_file := None;
     email_subject := email_subject sample_args;
     email_body := email_body sample_args;
     email_attachment := email_attachment sample_args;
     message_format := message_format sample_args;
     message_priority := message_priority sample_args;
     smtp_server := smtp_server sample_args;
     smtp_port := smtp_port sample_args;
     sending_delay := sending_delay sample_args;
     smtp_username := Some "operator";
     smtp_password := None |}.

(** The world after more events. *)
Definition log_events (evs : list event) (w : world) : world :=
  {| stdin := stdin w; body_pos := body_pos w;
     attachment_pos := attachment_pos w; server := server w;
     clock := clock w; trace := trace w ++ evs |}.

(** A dictionary with a value that is not a string. *)
Definition has_non_str (d : dict) : bool :=
  existsb (fun kv => match snd kv with
                     | VStr _ => false
                     | _ => true
                     end) d.

(** The operating system accepts a pause of [secs] seconds, whatever
    happened before. *)
Definition pauses (w : world) (secs : Z) : Prop :=
  forall t, clock w t secs = true.

(** The exception [time.sleep] raises for a length it does not pass on to
    the operating system. *)
Definition sleep_error (secs : Z) : option exn :=
  if (secs <? -9223372036)%Z || (9223372036 <? secs)%Z then Some OverflowError
  else if (secs <? 0)%Z then Some ValueError
  else None.

(** The server refuses every command. *)
Definition refuses_all (w : world) : Prop :=
  forall t c, server w t c = false.

(** The events of one SMTP session as [with smtplib.SMTP(...)] shapes them,
    for the outcome [r] of the call: no event at all when the call failed
    before it connected, the refused connection alone, or an accepted
    connection whose last event is the closing of the connection. *)
Definition closed_session (host : string) (port : Z) (r : outcome unit)
    (session : list event) : Prop :=
  match session with
  | [] => r = Raise TypeError
  | Smtp (Connect h p) false :: rest =>
      h = host /\ p = port /\ rest = [] /\ r = Raise SMTPException
  | Smtp (Connect h p) true :: rest =>
      h = host /\ p = port /\ last rest (Sleep 0) = SmtpClose
      /\ (r = Return tt \/ r = Raise SMTPException)
  | _ => False
  end.

(** The order of an authenticated session: the login of [user] comes only
    after an accepted STARTTLS, and a message is handed over only after an
    accepted login. [tls] and [authed] say what was accepted so far. *)
Fixpoint guarded (user : string) (password : option string)
    (tls authed : bool) (evs : list event) : Prop :=
  match evs with
  | [] => True
  | Smtp StartTls true :: rest => guarded user password true authed rest
  | Smtp (Login u pw) ok :: rest =>
      u = user /\ pw = password /\ tls = true
      /\ guarded user password tls (authed || ok) rest
  | Smtp (SendMessage _ _) _ :: rest =>
      authed = true /\ guarded user password tls authed rest
  | _ :: rest => guarded user password tls authed rest
  end.

(** A command of the authentication: EHLO, STARTTLS or LOGIN. *)
Definition is_auth (e : event) : bool :=
  match e with
  | Smtp Ehlo _ => true
  | Smtp StartTls _ => true
  | Smtp (Login _ _) _ => true
  | _ => false
  end.

(** Anything sent to the server, and the closing of a connection. *)
Definition is_smtp (e : event) : bool :=
  match e with
  | Smtp _ _ => true
  | SmtpClose => true
  | _ => false
  end.

(** The opening of a connection, the handing over of a message, and the
    closing of the connection. *)
Definition is_connection (e : event) : bool :=
  match e with
  | Smtp (Connect _ _) _ => true
  | Smtp (SendMessage _ _) _ => true
  | SmtpClose => true
  | _ => false
  end.

(** The connection of one recipient in a run where the server accepts
    every command. *)
Definition recipient_connection (cli_arguments : cli_arguments) (r : dict)
    : list event :=
  [Smtp (Connect (smtp_server cli_arguments) (smtp_port cli_arguments)) true;
   Smtp (SendMessage
           (built_message (address_of r) cli_arguments
              (substitute (strings_of r) (email_body cli_arguments)) 0)
           (envelope_sender_address cli_arguments)) true;
   SmtpClose].

(** The exceptions of the model other than [KeyError] and
    [UnboundLocalError]. *)
Definition batch_exception (e : exn) : bool :=
  match e with
  | TypeError => true
  | SMTPException => true
  | ValueError => true
  | EOFError => true
  | OverflowError => true
  | OSError => true
  | KeyError => false
  | UnboundLocalError => false
  end.

(** What [confirm_action] writes and reads when every answer on standard
    input is rejected and the input ends. *)
Definition rejected_events (question prompt : string) (bad : list string)
    : list event :=
  flat_map (fun b => [Log INFO (question ++ prompt) [];
                      Input "Input -> " (Some b);
                      Log WARNING "Invalid input supplied" []]) bad
  ++ [Log INFO (question ++ prompt) []; Input "Input -> " None].

(** Arguments for one recipient with both credentials. *)
Definition sample_args_single : cli_arguments :=
  {| sender_address := sender_address sample_args;
     envelope_sender_address := None;
     sender_display_name := sender_display_name sample_args;
     hide_source_email := false;
     cc_display_name := None;
     recipient := Some "a@x.com";
     recipient_file := None;
     email_subject := email_subject sample_args;
     email_body := email_body sample_args;
     email_attachment :=
       Some ("/tmp/files/offer.pdf", [Byte.x25; Byte.x50; Byte.x44; Byte.x46]);
     message_format := message_format sample_args;
     message_priority := message_priority sample_args;
     smtp_server := smtp_server sample_args;
     smtp_port := smtp_port sample_args;
     sending_delay := sending_delay sample_args;
     smtp_username := Some "operator";
     smtp_password := Some "secret" |}.

(** The batch arguments with a negative delay. *)
Definition sample_args_negative_delay : cli_arguments :=
  {| sender_address := sender_address sample_args;
     envelope_sender_address := envelope_sender_address sample_args;
     sender_display_name := sender_display_name sample_args;
     hide_source_email := hide_source_email sample_args;
     cc_display_name := cc_display_name sample_args;
     recipient := recipient sample_args;
     recipient_file := recipient_file sample_args;
     email_subject := email_subject sample_args;
     email_body := email_body sample_args;
     email_attachment := email_attachment sample_args;
     message_format := message_format sample_args;
     message_priority := message_priority sample_args;
     smtp_server := smtp_server sample_args;
     smtp_port := smtp_port sample_args;
     sending_delay := (-1)%Z;
     smtp_username := smtp_username sample_args;
     smtp_password := smtp_password sample_args |}.

(** The batch arguments with a delay of 10000000000 seconds. *)
Definition sample_args_huge_delay : cli_arguments :=
  {| sender_address := sender_address sample_args;
     envelope_sender_address := envelope_sender_address sample_args;
     sender_display_name := sender_display_name sample_args;
     hide_source_email := hide_source_email sample_args;
     cc_display_name := cc_display_name sample_args;
     recipient := recipient sample_args;
     recipient_file := recipient_file sample_args;
     email_subject := email_subject sample_args;
     email_body := email_body sample_args;
     email_attachment := email_attachment sample_args;
     message_format := message_format sample_args;
     message_priority := message_priority sample_args;
     smtp_server := smtp_server sample_args;
     smtp_port := smtp_port sample_args;
     sending_delay := 10000000000%Z;
     smtp_username := smtp_username sample_args;
     smtp_password := smtp_password sample_args |}.

(** A fresh world whose server refuses every command. *)
Definition world_refusing (lines : list string) : world :=
  {| stdin := lines; body_pos := 0; attachment_pos := 0;
     server := fun _ _ => false; clock := fun _ _ => true; trace := [] |}.

(** A character of a plain address: printable ASCII, none of the characters
    that end a phrase for the address parser, no backslash. *)
Definition addr_char (c : ascii) : bool :=
  let n := nat_of_ascii c in
  Nat.leb 33 n && Nat.leb n 126
  && negb (PyStr.mem c Parseaddr.phraseends)
  && negb (Ascii.eqb c "092"%char).

(** A character of a plain display name: no double quote, no backslash, no
    carriage return. *)
Definition name_char (c : ascii) : bool :=
  negb (Ascii.eqb c "034"%char) && negb (Ascii.eqb c "092"%char)
  && negb (Ascii.eqb c "013"%char).

Fixpoint all_chars (p : ascii -> bool) (s : string) : bool :=
  match s with
  | EmptyString => true
  | String c s' => p c && all_chars p s'
  end.

(** One side of a plain address: not empty, of plain characters. *)
Definition plain_part (s : string) : bool :=
  negb (Parseaddr.is_empty s) && all_chars addr_char s.

Definition plain_name (s : string) : bool := all_chars name_char s.

(** Nothing to skip at the head of [s]. *)
Definition solid (s : string) : Prop :=
  match s with
  | EmptyString => True
  | String c _ =>
      PyStr.mem c (Parseaddr.LWS ++ String "010"%char (String "013"%char EmptyString))
      = false
      /\ Ascii.eqb c "("%char = false
  end.

(** [rest] is empty or starts with a character that ends an atom. *)
Definition stops (rest : string) : Prop :=
  match rest with
  | EmptyString => True
  | String c _ => PyStr.mem c Parseaddr.atomends = true
  end.

(** [rest] is empty or starts with the closing angle bracket. *)
Definition closes (rest : string) : Prop :=
  rest = EmptyString \/ exists r, rest = String ">"%char r.

(** The last piece of the local part read so far is not blank. *)
Definition settled (aslist : list string) : Prop :=
  aslist = [] \/ exists l x, aslist = (l ++ [x])%list
                             /\ Parseaddr.is_empty (Parseaddr.strip x) = false.

(** One recipient, no envelope override, a double quote in the display
    name. *)
Definition sample_args_quote_in_name : cli_arguments :=
  {| sender_address := "x@y.z";
     envelope_sender_address := None;
     sender_display_name := String "a" (String "034" (String "b" EmptyString));
     hide_source_email := false;
     cc_display_name := None;
     recipient := Some "a@x.com";
     recipient_file := None;
     email_subject := email_subject sample_args;
     email_body := email_body sample_args;
     email_attachment := None;
     message_format := message_format sample_args;
     message_priority := message_priority sample_args;
     smtp_server := smtp_server sample_args;
     smtp_port := smtp_port sample_args;
     sending_delay := sending_delay sample_args;
     smtp_username := None;
     smtp_password := None |}.

(* ===================================================================== *)
(** ** Facts about strings *)
(* ===================================================================== *)

Module PyStrFacts.
Import PyStr.

Example replace_ex1 : replace "$a$" "X" "1$a$2$a$" = "1X2X".
Proof. reflexivity. Qed.

Example replace_ex2 : replace "aa" "b" "aaaaa" = "bba".
Proof. reflexivity. Qed.

Example replace_ex3 : replace EmptyString "-" "abc" = "-a-b-c-".
Proof. reflexivity. Qed.

Example lower_ex : lower "MayBe Y" = "maybe y".
Proof. reflexivity. Qed.

Example basename_ex : basename "/tmp/x/cv.pdf" = "cv.pdf" /\ basename "cv.pdf" = "cv.pdf"
                      /\ basename "dir/" = EmptyString.
Proof. repeat split. Qed.

Lemma append_assoc (a b c : string) : (a ++ b) ++ c = a ++ (b ++ c).
Proof. induction a as [|x a IH]; simpl; [reflexivity | now rewrite IH]. Qed.

Lemma append_nil_r (a : string) : a ++ EmptyString = a.
Proof. induction a as [|x a IH]; simpl; [reflexivity | now rewrite IH]. Qed.

Lemma prefix_cons (a b : ascii) (t s : string) :
  prefix (String a t) (String b s) = true -> a = b /\ prefix t s = true.
Proof.
  simpl. destruct (ascii_dec a b) as [->|]; [tauto | discriminate].
Qed.

Lemma prefix_cons_neq (a b : ascii) (t s : string) :
  a <> b -> prefix (String a t) (String b s) = false.
Proof. intros H. simpl. destruct (ascii_dec a b); [contradiction | reflexivity]. Qed.

Lemma mem_false_neq (c d : ascii) (s : string) :
  mem c (String d s) = false -> c <> d /\ mem c s = false.
Proof.
  simpl. intros H. apply orb_false_iff in H as [H1 H2].
  split; [now apply Ascii.eqb_neq | assumption].
Qed.

Lemma contains_tail (t : string) (c : ascii) (s : string) :
  contains t (String c s) = false -> contains t s = false.
Proof. simpl. intros H. now apply orb_false_iff in H. Qed.

Lemma contains_head (t : string) (c : ascii) (s : string) :
  contains t (String c s) = false -> prefix t (String c s) = false.
Proof. simpl. intros H. now apply orb_false_iff in H. Qed.

Lemma contains_drop (t : string) (n : nat) (s : string) :
  contains t s = false -> contains t (drop n s) = false.
Proof.
  revert s. induction n as [|n IH]; intros [|c s] H; simpl; auto.
  apply IH. eapply contains_tail; eauto.
Qed.

Lemma length_drop (n : nat) (s : string) :
  String.length (drop n s) <= String.length s.
Proof.
  revert s. induction n as [|n IH]; intros [|c s]; simpl; auto.
Qed.

(** Passing over [k] characters and resuming is scanning the rest. *)
Lemma replace_from_skip (old new : string) (k : nat) (s : string) :
  replace_from old new k s = replace_from old new 0 (drop k s).
Proof.
  revert k. induction s as [|c s IH]; intros [|k]; simpl; auto.
Qed.

(** The scan as the recursive equation of [str.replace]. *)
Lemma replace_from_unfold (old new : string) (c : ascii) (s : string) :
  replace_from old new 0 (String c s) =
  if prefix old (String c s)
  then new ++ replace_from old new 0 (drop (String.length old - 1) s)
  else String c (replace_from old new 0 s).
Proof.
  cbn [replace_from]. destruct (prefix old (String c s)); [|reflexivity].
  now rewrite replace_from_skip.
Qed.

Lemma prefix_spec (t s : string) :
  prefix t s = true <-> exists post, s = t ++ post.
Proof.
  revert s. induction t as [|a t IH]; intros s.
  - split; [intros _; now exists s | intros _; now destruct s].
  - destruct s as [|b s].
    + split; [discriminate | intros [post H]; discriminate].
    + split.
      * intros H. apply prefix_cons in H as [-> H].
        apply IH in H as [post ->]. now exists post.
      * intros [post H]. injection H as -> ->.
        simpl. destruct (ascii_dec a a); [|contradiction].
        apply IH. now exists post.
Qed.

Lemma prefix_contains (t s : string) : prefix t s = true -> contains t s = true.
Proof. destruct s; simpl; intros ->; reflexivity. Qed.

(** [contains] decides occurrence as a substring. *)
Lemma contains_spec (t s : string) :
  contains t s = true <-> exists pre post, s = pre ++ t ++ post.
Proof.
  split.
  - induction s as [|c s IH]; cbn [contains]; intros H.
    + apply prefix_spec in H as [post H]. exists EmptyString, post. exact H.
    + apply orb_true_iff in H as [H|H].
      * apply prefix_spec in H as [post H]. exists EmptyString, post. exact H.
      * destruct (IH H) as (pre & post & ->). now exists (String c pre), post.
  - intros (pre & post & ->). induction pre as [|c pre IH].
    + apply prefix_contains, prefix_spec. now exists post.
    + cbn [append contains]. rewrite IH. apply orb_true_r.
Qed.

Lemma mem_app (c : ascii) (a b : string) : mem c (a ++ b) = mem c a || mem c b.
Proof.
  induction a as [|d a IH]; simpl; [reflexivity|].
  now rewrite IH, orb_assoc.
Qed.

Section Token.

(** [String h tok'] is the token looked for in the output of a replacement
    by [new]; it starts and ends with [h], which [new] does not hold, and
    [new] does not occur in it. *)
Variables (h : ascii) (tok' new : string).
Hypothesis h_not_in_new : mem h new = false.
Hypothesis tok_ends : last_is h (String h tok') = true.
Hypothesis new_not_in_tok : contains new (String h tok') = false.

(** A prefix of [new ++ rest] is a prefix of [new] or starts with [new]. *)
Lemma prefix_app_cases (u ins rest : string) :
  prefix u (ins ++ rest) = true -> prefix u ins = true \/ prefix ins u = true.
Proof.
  revert u. induction ins as [|a ins IH]; intros u H.
  - right. now destruct u.
  - destruct u as [|b u]; [now left|].
    cbn [append] in H. apply prefix_cons in H as [-> H].
    simpl. destruct (ascii_dec a a); [|contradiction]. now apply IH.
Qed.

Lemma prefix_last_mem (u s : string) :
  last_is h u = true -> prefix u s = true -> mem h s = true.
Proof.
  revert s. induction u as [|a u IH]; intros s Hl Hp; [discriminate|].
  destruct s as [|b s]; [discriminate|].
  apply prefix_cons in Hp as [-> Hp]. cbn [mem]. apply orb_true_iff.
  destruct u as [|a' u].
  - left. cbn [last_is] in Hl. apply Ascii.eqb_eq in Hl. subst.
    apply Ascii.eqb_refl.
  - right. now apply IH.
Qed.

(** A prefix of the output that ends with [h] and does not hold [new] was
    copied from the input. *)
Lemma prefix_replace_from (old : string) (s : string) :
  forall u,
    contains new u = false ->
    u = EmptyString \/ last_is h u = true ->
    prefix u (replace_from old new 0 s) = true -> prefix u s = true.
Proof.
  induction s as [|c s IH]; intros u Hn Hl; [now simpl|].
  rewrite replace_from_unfold.
  destruct u as [|a u]; [reflexivity|].
  destruct Hl as [Hl|Hl]; [discriminate|].
  destruct (prefix old (String c s)).
  - intros H. apply prefix_app_cases in H as [H|H].
    + pose proof (prefix_last_mem _ _ Hl H). congruence.
    + apply prefix_contains in H. congruence.
  - intros H. apply prefix_cons in H as [-> H].
    simpl. destruct (ascii_dec c c); [|contradiction].
    apply IH; [eapply contains_tail; eauto | | exact H].
    destruct u as [|a' u]; [now left | right; exact Hl].
Qed.

(** No occurrence of [String h tok'] starts inside the inserted text. *)
Lemma contains_after_insert (ins rest : string) :
  mem h ins = false ->
  contains (String h tok') (ins ++ rest) = contains (String h tok') rest.
Proof.
  induction ins as [|a ins IH]; intros Hm; [reflexivity|].
  apply mem_false_neq in Hm as [Hne Hm].
  cbn [append contains]. rewrite prefix_cons_neq by assumption.
  now rewrite IH.
Qed.

(** One call of [replace] leaves no [String h tok'] in the output when [String h tok'] is the
    replaced string itself, or when the input had none. *)
Lemma replace_from_no_token (old : string) (n : nat) :
  forall s, String.length s <= n ->
    old = (String h tok') \/ contains (String h tok') s = false ->
    contains (String h tok') (replace_from old new 0 s) = false.
Proof.
  induction n as [|n IH]; intros [|c s] Hlen Hcase; simpl in Hlen;
    try reflexivity; try lia.
  rewrite replace_from_unfold.
  destruct (prefix old (String c s)) eqn:Hp.
  - rewrite contains_after_insert by exact h_not_in_new.
    apply IH.
    + pose proof (length_drop (String.length old - 1) s). lia.
    + destruct Hcase as [->|Hc]; [now left|right].
      apply contains_drop. eapply contains_tail; eauto.
  - cbn [contains]. apply orb_false_iff. split.
    + destruct (prefix (String h tok') (String c (replace_from old new 0 s))) eqn:Hq;
        [|reflexivity].
      assert (Hs : prefix (String h tok') (String c s) = true).
      { apply (prefix_replace_from old (String c s) (String h tok') new_not_in_tok
                 (or_intror tok_ends)).
        rewrite replace_from_unfold, Hp. exact Hq. }
      destruct Hcase as [->|Hc]; [congruence|].
      apply contains_head in Hc. congruence.
    + apply IH; [lia|].
      destruct Hcase as [->|Hc]; [now left|right].
      eapply contains_tail; eauto.
Qed.

End Token.


End PyStrFacts.

(* ===================================================================== *)
(** ** Facts about the address parser *)
(* ===================================================================== *)

Module ParseaddrFacts.
Import Parseaddr PyStrFacts.

Lemma length_append (a b : string) :
  String.length (a ++ b) = String.length a + String.length b.
Proof. induction a; simpl; congruence. Qed.

Lemma all_chars_app (p : ascii -> bool) (a b : string) :
  all_chars p (a ++ b) = all_chars p a && all_chars p b.
Proof.
  induction a as [|c a IH]; simpl; [reflexivity|].
  now rewrite IH, andb_assoc.
Qed.

(** What a plain address character is not. *)
Lemma addr_char_inv (c : ascii) :
  addr_char c = true ->
  PyStr.mem c phraseends = false
  /\ PyStr.mem c FWS = false
  /\ PyStr.mem c LWS = false
  /\ PyStr.mem c (LWS ++ String "010"%char (String "013"%char EmptyString))
     = false
  /\ PyStr.mem c ".@" = Ascii.eqb c "."%char
  /\ (Ascii.eqb c "."%char = false -> PyStr.mem c atomends = false)
  /\ is_space c = false
  /\ Ascii.eqb c "("%char = false
  /\ Ascii.eqb c "034"%char = false
  /\ Ascii.eqb c "["%char = false
  /\ Ascii.eqb c "@"%char = false
  /\ Ascii.eqb c ">"%char = false
  /\ Ascii.eqb c ":"%char = false.
Proof.
  destruct c as [[] [] [] [] [] [] [] []]; vm_compute; intros H;
    try discriminate H; repeat split; intros; congruence.
Qed.

(** The characters a plain address has none of. *)
Lemma addr_char_misses (x c : ascii) :
  PyStr.mem x (String "(" (String ")" (String "034" (String "092"
     (String "[" (String "," EmptyString)))))) = true ->
  addr_char c = true -> Ascii.eqb x c = false.
Proof.
  intros Hx Hc. destruct (Ascii.eqb_spec x c) as [->|]; [|reflexivity].
  revert Hx Hc.
  destruct c as [[] [] [] [] [] [] [] []]; vm_compute; intros; congruence.
Qed.

Lemma mem_plain (x : ascii) (s : string) :
  PyStr.mem x (String "(" (String ")" (String "034" (String "092"
     (String "[" (String "," EmptyString)))))) = true ->
  all_chars addr_char s = true -> PyStr.mem x s = false.
Proof.
  intros Hx. induction s as [|c s IH]; simpl; [reflexivity|].
  intros H. apply andb_true_iff in H as [Hc Hs].
  now rewrite (addr_char_misses x c Hx Hc), IH.
Qed.

Lemma name_char_inv (c : ascii) :
  name_char c = true ->
  Ascii.eqb c "034"%char = false /\ Ascii.eqb c "092"%char = false
  /\ Ascii.eqb c "013"%char = false.
Proof.
  unfold name_char. intros H.
  apply andb_true_iff in H as [H H3]. apply andb_true_iff in H as [H1 H2].
  now rewrite negb_true_iff in H1, H2, H3.
Qed.

Lemma mem_name (x : ascii) (s : string) :
  PyStr.mem x (String "034" (String "092" EmptyString)) = true ->
  all_chars name_char s = true -> PyStr.mem x s = false.
Proof.
  intros Hx. induction s as [|c s IH]; simpl; [reflexivity|].
  intros H. apply andb_true_iff in H as [Hc Hs].
  rewrite (IH Hs), orb_false_r.
  destruct (name_char_inv c Hc) as (H1 & H2 & _).
  simpl in Hx. rewrite orb_false_r in Hx.
  apply orb_true_iff in Hx as [Hx|Hx]; apply Ascii.eqb_eq in Hx; subst x;
    now rewrite Ascii.eqb_sym.
Qed.

(** [join] with the empty separator. *)
Lemma join_snoc (l : list string) (x : string) :
  join EmptyString (l ++ [x])%list = join EmptyString l ++ x.
Proof.
  induction l as [|y l IH]; [reflexivity|].
  destruct l as [|z l]; [reflexivity|].
  change (join EmptyString ((y :: z :: l) ++ [x])%list)
    with (y ++ join EmptyString ((z :: l) ++ [x])%list).
  rewrite IH. change (join EmptyString (y :: z :: l))
    with (y ++ join EmptyString (z :: l)).
  now rewrite append_assoc.
Qed.

(** ** White space and comments *)

Lemma gotonext_solid (fuel : nat) (s : string) (cl : list string) :
  solid s -> gotonext fuel s cl = (EmptyString, s, cl).
Proof.
  destruct fuel as [|fuel]; [reflexivity|].
  destruct s as [|c s]; [reflexivity|]. intros [H1 H2].
  cbn [gotonext]. now rewrite H1, H2.
Qed.

Lemma solid_plain (u rest : string) :
  all_chars addr_char u = true -> solid rest -> solid (u ++ rest).
Proof.
  destruct u as [|c u]; [trivial|]. simpl. intros H _.
  apply andb_true_iff in H as [Hc _].
  destruct (addr_char_inv c Hc) as (_ & _ & _ & H4 & _ & _ & _ & H8 & _).
  now split.
Qed.

(** ** Atoms *)

Lemma getatom_stops (rest : string) :
  stops rest -> getatom atomends rest = (EmptyString, rest).
Proof.
  destruct rest as [|c r]; [reflexivity|]. simpl. now intros ->.
Qed.

(** Among plain characters an atom ends at a dot. *)
Lemma getatom_atomends_split (u rest : string) :
  all_chars addr_char u = true -> stops rest ->
  exists a u',
    getatom atomends (u ++ rest) = (a, u' ++ rest)
    /\ u = a ++ u'
    /\ all_chars addr_char u' = true
    /\ (forall c u0, u = String c u0 -> Ascii.eqb c "."%char = false ->
        exists a0, a = String c a0).
Proof.
  intros Hu Hrest. induction u as [|c u IH].
  - exists EmptyString, EmptyString. cbn [append].
    rewrite (getatom_stops _ Hrest).
    repeat split. intros c u0 H. discriminate H.
  - simpl in Hu. apply andb_true_iff in Hu as [Hc Hu].
    destruct (Ascii.eqb c "."%char) eqn:Hdot.
    + apply Ascii.eqb_eq in Hdot. subst c.
      exists EmptyString, (String "."%char u). repeat split.
      * simpl. now rewrite Hu.
      * intros c u0 H. injection H as <- _. discriminate.
    + destruct (IH Hu) as (a & u' & Hget & Heq & Hall & _).
      destruct (addr_char_inv c Hc) as (_ & _ & _ & _ & _ & H6 & _).
      exists (String c a), u'. repeat split.
      * change ((String c u ++ rest)) with (String c (u ++ rest)).
        cbn [getatom]. now rewrite (H6 Hdot), Hget.
      * simpl. now rewrite <- Heq.
      * exact Hall.
      * intros c0 u0 H _. injection H as <- _. now exists a.
Qed.

(** In a phrase an atom takes the dots too. *)
Lemma getatom_phraseends (u rest : string) :
  all_chars addr_char u = true ->
  getatom phraseends (u ++ String "@"%char rest) = (u, String "@"%char rest).
Proof.
  induction u as [|c u IH]; [reflexivity|]. cbn [all_chars]. intros H.
  apply andb_true_iff in H as [Hc Hu].
  destruct (addr_char_inv c Hc) as (H1 & _).
  change (String c u ++ String "@"%char rest)
    with (String c (u ++ String "@"%char rest)).
  cbn [getatom]. now rewrite H1, (IH Hu).
Qed.

Lemma strip_plain (c : ascii) (a : string) :
  addr_char c = true -> is_empty (strip (String c a)) = false.
Proof.
  intros Hc. destruct (addr_char_inv c Hc) as (_ & _ & _ & _ & _ & _ & H7 & _).
  unfold strip. cbn [lstrip]. rewrite H7. cbn [rstrip].
  destruct (rstrip a); [rewrite H7|]; reflexivity.
Qed.

(** ** Quoted strings *)

Lemma getquote_loop_plain (q rest : string) (fuel : nat) :
  all_chars name_char q = true -> String.length q < fuel ->
  getdelimited_loop fuel (String "034"%char (String "013"%char EmptyString))
    false false (q ++ String "034"%char rest) = (q, rest).
Proof.
  revert fuel. induction q as [|c q IH]; intros fuel Hq Hf.
  - destruct fuel as [|fuel]; [inversion Hf|]. reflexivity.
  - destruct fuel as [|fuel]; [inversion Hf|].
    simpl in Hq. apply andb_true_iff in Hq as [Hc Hq].
    destruct (name_char_inv c Hc) as (H1 & H2 & H3).
    change (String c q ++ String "034"%char rest)
      with (String c (q ++ String "034"%char rest)).
    cbn [getdelimited_loop PyStr.mem andb].
    rewrite H1, H2, H3. cbn [orb].
    rewrite (IH fuel Hq); [reflexivity|]. simpl in Hf. lia.
Qed.

(** ** The domain and the local part *)

Lemma closes_stops (rest : string) : closes rest -> stops rest.
Proof. intros [->|[r ->]]; reflexivity. Qed.

Lemma split_length (u a u' : string) (c : ascii) (a0 : string) :
  u = a ++ u' -> a = String c a0 -> String.length u' < String.length u.
Proof. intros -> ->. simpl. rewrite length_append. lia. Qed.

Lemma getdomain_loop_plain (n : nat) :
  forall (u : string) (fuel : nat) (rest : string) (cl sd : list string),
    String.length u <= n -> n < fuel ->
    all_chars addr_char u = true -> closes rest ->
    getdomain_loop fuel (u ++ rest) cl sd
    = (join EmptyString sd ++ u, rest, cl).
Proof.
  induction n as [|n IH]; intros u fuel rest cl sd Hlen Hf Hu Hrest.
  - destruct u; [|inversion Hlen]. destruct fuel as [|fuel]; [lia|].
    rewrite append_nil_r.
    destruct Hrest as [->|[r ->]]; reflexivity.
  - destruct fuel as [|fuel]; [lia|].
    destruct u as [|c u].
    { rewrite append_nil_r. destruct Hrest as [->|[r ->]]; reflexivity. }
    pose proof Hu as Hu0.
    simpl in Hu. apply andb_true_iff in Hu as [Hc Hu].
    destruct (addr_char_inv c Hc)
      as (_ & _ & H3 & _ & _ & H6 & _ & H8 & _ & H10 & H11 & _).
    change (String c u ++ rest) with (String c (u ++ rest)).
    cbn [getdomain_loop]. rewrite H3, H8, H10.
    destruct (Ascii.eqb c "."%char) eqn:Hdot.
    + apply Ascii.eqb_eq in Hdot. subst c.
      rewrite (IH u fuel rest cl _); [| simpl in Hlen; lia | lia | exact Hu
                                      | exact Hrest].
      rewrite join_snoc, append_assoc. reflexivity.
    + rewrite H11, (H6 eq_refl).
      destruct (getatom_atomends_split (String c u) rest Hu0
                  (closes_stops _ Hrest)) as (a & u' & Hget & Heq & Hall & Hne).
      destruct (Hne c u eq_refl Hdot) as [a0 Ha].
      change (String c (u ++ rest)) with (String c u ++ rest).
      rewrite Hget.
      rewrite (IH u' fuel rest cl _); [| | lia | exact Hall | exact Hrest].
      * rewrite join_snoc, append_assoc, <- Heq. reflexivity.
      * pose proof (split_length _ _ _ _ _ Heq Ha). lia.
Qed.

Lemma pop_blank_settled (aslist : list string) :
  settled aslist -> pop_blank aslist = aslist.
Proof.
  intros [->|(l & x & -> & Hx)]; [reflexivity|].
  unfold pop_blank. rewrite rev_app_distr. simpl. now rewrite Hx.
Qed.

Lemma getaddrspec_loop_plain (n : nat) :
  forall (u : string) (fuel : nat) (rest : string) (cl aslist : list string),
    String.length u <= n -> n < fuel ->
    all_chars addr_char u = true -> settled aslist ->
    exists aslist',
      getaddrspec_loop fuel (u ++ String "@"%char rest) cl aslist
      = (aslist', String "@"%char rest, cl)
      /\ join EmptyString aslist' = join EmptyString aslist ++ u.
Proof.
  induction n as [|n IH]; intros u fuel rest cl aslist Hlen Hf Hu Hset.
  - destruct u; [|inversion Hlen]. destruct fuel as [|fuel]; [lia|].
    exists aslist. rewrite append_nil_r. split; [|reflexivity].
    cbn. now rewrite (pop_blank_settled _ Hset).
  - destruct fuel as [|fuel]; [lia|].
    destruct u as [|c u].
    { exists aslist. rewrite append_nil_r. split; [|reflexivity].
      cbn. now rewrite (pop_blank_settled _ Hset). }
    pose proof Hu as Hu0.
    simpl in Hu. apply andb_true_iff in Hu as [Hc Hu].
    destruct (addr_char_inv c Hc)
      as (_ & _ & H3 & _ & _ & H6 & _ & H8 & H9 & H10 & H11 & _).
    assert (Hsolid : forall v, all_chars addr_char v = true ->
                       solid (v ++ String "@"%char rest)).
    { intros v Hv. apply solid_plain; [exact Hv|]. now split. }
    change (String c u ++ String "@"%char rest)
      with (String c (u ++ String "@"%char rest)).
    cbn [getaddrspec_loop].
    destruct (Ascii.eqb c "."%char) eqn:Hdot.
    + apply Ascii.eqb_eq in Hdot. subst c.
      rewrite (gotonext_solid fuel _ cl (Hsolid u Hu)).
      rewrite (pop_blank_settled _ Hset).
      destruct (IH u fuel rest cl (aslist ++ ["."])%list)
        as (aslist' & Hrun & Hjoin);
        [simpl in Hlen; lia | lia | exact Hu | | ].
      { right. exists aslist, ".". now split. }
      exists aslist'. split; [exact Hrun|].
      rewrite Hjoin, join_snoc, append_assoc. reflexivity.
    + rewrite H9, (H6 eq_refl).
      destruct (getatom_atomends_split (String c u) (String "@"%char rest)
                  Hu0 eq_refl) as (a & u' & Hget & Heq & Hall & Hne).
      destruct (Hne c u eq_refl Hdot) as [a0 Ha].
      change (String c (u ++ String "@"%char rest))
        with (String c u ++ String "@"%char rest).
      rewrite Hget.
      rewrite (gotonext_solid fuel _ cl (Hsolid u' Hall)).
      cbn [is_empty].
      destruct (IH u' fuel rest cl (aslist ++ [a])%list)
        as (aslist' & Hrun & Hjoin); [ | lia | exact Hall | | ].
      * pose proof (split_length _ _ _ _ _ Heq Ha). lia.
      * right. exists aslist, a. split; [reflexivity|].
        rewrite Ha. now apply strip_plain.
      * exists aslist'. split; [exact Hrun|].
        rewrite Hjoin, join_snoc, append_assoc, <- Heq. reflexivity.
Qed.

(** ** An address *)

Lemma plain_part_inv (s : string) :
  plain_part s = true ->
  all_chars addr_char s = true
  /\ exists c s', s = String c s' /\ addr_char c = true.
Proof.
  unfold plain_part. destruct s as [|c s]; [discriminate|].
  cbn [is_empty negb andb all_chars]. intros H. split; [exact H|].
  apply andb_true_iff in H as [Hc _]. now exists c, s.
Qed.

Lemma getaddrspec_plain (local domain rest : string) (fuel : nat)
    (cl : list string) :
  plain_part local = true -> plain_part domain = true -> closes rest ->
  String.length local + String.length domain < fuel ->
  getaddrspec fuel (local ++ String "@"%char (domain ++ rest)) cl
  = (local ++ String "@"%char domain, rest, cl).
Proof.
  intros Hl Hd Hrest Hf.
  destruct (plain_part_inv _ Hl) as (Hlall & _).
  destruct (plain_part_inv _ Hd) as (Hdall & cd & d' & Hdeq & Hcd).
  assert (Hsolid_rest : solid rest).
  { destruct Hrest as [->|[r ->]]; [exact I|]. now split. }
  unfold getaddrspec.
  rewrite gotonext_solid; [|apply solid_plain; [exact Hlall|now split]].
  destruct (getaddrspec_loop_plain (String.length local) local fuel
              (domain ++ rest) cl []) as (aslist & Hrun & Hjoin);
    [lia | lia | exact Hlall | now left |].
  rewrite Hrun.
  rewrite gotonext_solid; [|now apply solid_plain].
  unfold getdomain.
  rewrite (getdomain_loop_plain (String.length domain));
    [| lia | lia | exact Hdall | exact Hrest].
  cbn [join append]. rewrite Hdeq at 1. cbn [is_empty].
  rewrite join_snoc, Hjoin. cbn [join append].
  now rewrite append_assoc.
Qed.

Lemma getrouteaddr_plain (local domain : string) (fuel : nat)
    (cl : list string) :
  plain_part local = true -> plain_part domain = true ->
  S (String.length local + String.length domain) < fuel ->
  getrouteaddr fuel
    (String "<"%char (local ++ String "@"%char (domain ++ ">"))) cl
  = (local ++ String "@"%char domain, EmptyString, cl).
Proof.
  intros Hl Hd Hf.
  destruct (plain_part_inv _ Hl) as (Hlall & c & l' & Hleq & Hc).
  destruct (addr_char_inv c Hc)
    as (_ & _ & _ & H4 & _ & _ & _ & H8 & _ & _ & H11 & H12 & H13).
  cbn [getrouteaddr].
  rewrite gotonext_solid; [|apply solid_plain; [exact Hlall|now split]].
  destruct fuel as [|fuel]; [lia|].
  rewrite Hleq at 1.
  change (String c l' ++ String "@"%char (domain ++ ">"))
    with (String c (l' ++ String "@"%char (domain ++ ">"))).
  cbn [getrouteaddr_loop]. rewrite H11, H12, H13.
  change (String c (l' ++ String "@"%char (domain ++ ">")))
    with (String c l' ++ String "@"%char (domain ++ ">")).
  rewrite <- Hleq.
  rewrite getaddrspec_plain;
    [reflexivity | exact Hl | exact Hd | right; now exists EmptyString | lia].
Qed.

(** The address parsed out of a [From] header of the program. *)
Lemma getaddress_header (name local domain : string) (fuel : nat) :
  plain_name name = true ->
  plain_part local = true -> plain_part domain = true ->
  String.length name + String.length local + String.length domain + 6
  < fuel ->
  getaddress fuel
    (String "034"%char
       (name ++ String "034"%char
          (String " "%char
             (String "<"%char
                (local ++ String "@"%char (domain ++ ">"))))))
  = ([(name, local ++ String "@"%char domain)], EmptyString).
Proof.
  intros Hn Hl Hd Hf.
  do 4 (destruct fuel as [|fuel]; [lia|]).
  cbn [getaddress].
  rewrite gotonext_solid; [|now split].
  cbn [getphraselist getquote getdelimited PyStr.mem FWS LWS CR append
       Ascii.eqb Bool.eqb orb andb].
  rewrite getquote_loop_plain; [|exact Hn|lia].
  cbn [getphraselist PyStr.mem FWS LWS CR append Ascii.eqb Bool.eqb orb
       andb].
  change (PyStr.mem "<"%char phraseends) with true. cbv iota.
  rewrite gotonext_solid; [|now split].
  cbn [PyStr.mem Ascii.eqb Bool.eqb orb andb].
  rewrite getrouteaddr_plain; [|exact Hl|exact Hd|lia].
  cbn [join]. rewrite gotonext_solid; [reflexivity|exact I].
Qed.

(** The address parsed out of a bare address. *)
Lemma getaddress_bare (local domain : string) (fuel : nat) :
  plain_part local = true -> plain_part domain = true ->
  String.length local + String.length domain + 4 < fuel ->
  getaddress fuel (local ++ String "@"%char domain)
  = ([(EmptyString, local ++ String "@"%char domain)], EmptyString).
Proof.
  intros Hl Hd Hf.
  destruct (plain_part_inv _ Hl) as (Hlall & c & l' & Hleq & Hc).
  destruct (addr_char_inv c Hc)
    as (H1 & H2 & _ & H4 & _ & _ & _ & H8 & H9 & _).
  do 3 (destruct fuel as [|fuel]; [lia|]).
  cbn [getaddress].
  rewrite gotonext_solid; [|apply solid_plain; [exact Hlall|now split]].
  rewrite Hleq at 1.
  change (String c l' ++ String "@"%char domain)
    with (String c (l' ++ String "@"%char domain)).
  cbn [getphraselist]. rewrite H2, H9, H8, H1.
  change (String c (l' ++ String "@"%char domain))
    with (String c l' ++ String "@"%char domain).
  rewrite <- Hleq, getatom_phraseends; [|exact Hlall].
  change (PyStr.mem "@"%char FWS) with false.
  change (PyStr.mem "@"%char phraseends) with true.
  cbn [Ascii.eqb Bool.eqb]. cbv beta iota.
  rewrite gotonext_solid; [|now split].
  cbn [PyStr.mem Ascii.eqb Bool.eqb orb andb].
  rewrite <- (append_nil_r domain) at 1.
  rewrite getaddrspec_plain; [|exact Hl|exact Hd|now left|lia].
  cbn [join]. rewrite gotonext_solid; [reflexivity|exact I].
Qed.

(** ** The strict checks *)

Lemma iter_escaped_chars_app (s1 s2 : string) (pos : nat) :
  PyStr.mem "092"%char s1 = false ->
  iter_escaped_chars pos false (s1 ++ s2)
  = (iter_escaped_chars pos false s1
     ++ iter_escaped_chars (pos + String.length s1) false s2)%list.
Proof.
  revert pos. induction s1 as [|c s1 IH]; intros pos H.
  - simpl. now rewrite Nat.add_0_r.
  - cbn [PyStr.mem] in H. apply orb_false_iff in H as [Hc H].
    rewrite Ascii.eqb_sym in Hc.
    change (String c s1 ++ s2) with (String c (s1 ++ s2)).
    cbn [iter_escaped_chars]. rewrite Hc.
    rewrite (IH (S pos) H). cbn [String.length app].
    now rewrite Nat.add_succ_r.
Qed.

Lemma strip_quoted_loop_calm (addr s : string) (pos : nat)
    (rest : list (nat * string)) (start : nat) (open_pos : option nat)
    (result : list string) :
  PyStr.mem "092"%char s = false -> PyStr.mem "034"%char s = false ->
  strip_quoted_loop addr (iter_escaped_chars pos false s ++ rest)%list
    start open_pos result
  = strip_quoted_loop addr rest start open_pos result.
Proof.
  revert pos. induction s as [|c s IH]; intros pos Hb Hq; [reflexivity|].
  cbn [PyStr.mem] in Hb, Hq.
  apply orb_false_iff in Hb as [Hcb Hb]. apply orb_false_iff in Hq as [Hcq Hq].
  rewrite Ascii.eqb_sym in Hcb. rewrite Ascii.eqb_sym in Hcq.
  cbn [iter_escaped_chars]. rewrite Hcb.
  cbn [app strip_quoted_loop String.eqb]. rewrite Hcq.
  now apply IH.
Qed.

Lemma check_parenthesis_loop_calm (s : string) (pos opens : nat) :
  PyStr.mem "092"%char s = false ->
  PyStr.mem "("%char s = false -> PyStr.mem ")"%char s = false ->
  check_parenthesis_loop (iter_escaped_chars pos false s) opens
  = Nat.eqb opens 0.
Proof.
  revert pos. induction s as [|c s IH]; intros pos Hb Ho Hc; [reflexivity|].
  cbn [PyStr.mem] in Hb, Ho, Hc.
  apply orb_false_iff in Hb as [Hcb Hb]. apply orb_false_iff in Ho as [Hco Ho].
  apply orb_false_iff in Hc as [Hcc Hc].
  rewrite Ascii.eqb_sym in Hcb. rewrite Ascii.eqb_sym in Hco.
  rewrite Ascii.eqb_sym in Hcc.
  cbn [iter_escaped_chars]. rewrite Hcb.
  cbn [check_parenthesis_loop String.eqb]. rewrite Hco, Hcc.
  now apply IH.
Qed.

Lemma count_absent (c : ascii) (s : string) :
  PyStr.mem c s = false -> count c s = 0.
Proof.
  induction s as [|d s IH]; [reflexivity|]. cbn [PyStr.mem count]. intros H.
  apply orb_false_iff in H as [Hd H]. rewrite Ascii.eqb_sym in Hd.
  now rewrite Hd, IH.
Qed.

Lemma drop_length_app (a b : string) :
  PyStr.drop (String.length a) (a ++ b) = b.
Proof. induction a; [now destruct b|exact IHa]. Qed.

(** Without the quoted name, what is left of a header of the program is
    what follows the closing quote. *)
Lemma strip_quoted_realnames_header (name tail : string) :
  plain_name name = true ->
  PyStr.mem "092"%char tail = false -> PyStr.mem "034"%char tail = false ->
  tail <> EmptyString ->
  strip_quoted_realnames
    (String "034"%char (name ++ String "034"%char tail))
  = tail.
Proof.
  intros Hn Hb Hq Hne.
  pose proof (mem_name "034"%char name eq_refl Hn) as Hnq.
  pose proof (mem_name "092"%char name eq_refl Hn) as Hnb.
  unfold strip_quoted_realnames.
  cbn [PyStr.mem Ascii.eqb Bool.eqb orb negb].
  cbn [iter_escaped_chars Ascii.eqb Bool.eqb].
  rewrite (iter_escaped_chars_app name _ 1 Hnb).
  cbn [strip_quoted_loop String.eqb Ascii.eqb Bool.eqb].
  rewrite strip_quoted_loop_calm; [|exact Hnb|exact Hnq].
  cbn [iter_escaped_chars Ascii.eqb Bool.eqb strip_quoted_loop String.eqb
       Nat.eqb].
  rewrite <- (app_nil_r (iter_escaped_chars _ false tail)).
  rewrite strip_quoted_loop_calm; [|exact Hb|exact Hq].
  cbn [strip_quoted_loop].
  assert (Hlt : Nat.ltb (S (1 + String.length name))
                  (String.length
                     (String "034"%char (name ++ String "034"%char tail)))
                = true).
  { apply Nat.ltb_lt. cbn [String.length]. rewrite length_append.
    cbn [String.length]. destruct tail; [congruence|]. simpl. lia. }
  rewrite Hlt. cbn [app join].
  replace (S (1 + String.length name))
    with (String.length
            (String "034"%char (name ++ String "034"%char EmptyString)))
    by (cbn [String.length]; rewrite length_append; simpl; lia).
  replace (String "034"%char (name ++ String "034"%char tail))
    with (String "034"%char (name ++ String "034"%char EmptyString) ++ tail)
    by (cbn [append]; now rewrite append_assoc).
  apply drop_length_app.
Qed.

Lemma check_parenthesis_calm (s : string) :
  PyStr.mem "034"%char s = false -> PyStr.mem "092"%char s = false ->
  PyStr.mem "("%char s = false -> PyStr.mem ")"%char s = false ->
  check_parenthesis s = true.
Proof.
  intros Hq Hb Ho Hc. unfold check_parenthesis, strip_quoted_realnames.
  rewrite Hq. cbn [negb]. now rewrite check_parenthesis_loop_calm.
Qed.

(** What a plain address and the text around it have none of. *)
Lemma mem_angle_address (x : ascii) (local domain : string) :
  PyStr.mem x (String "(" (String ")" (String "034" (String "092"
     (String "[" (String "," EmptyString)))))) = true ->
  plain_part local = true -> plain_part domain = true ->
  PyStr.mem x (local ++ String "@"%char domain) = false
  /\ PyStr.mem x
       (String " "%char
          (String "<"%char (local ++ String "@"%char (domain ++ ">"))))
     = false.
Proof.
  intros Hx Hl Hd.
  destruct (plain_part_inv _ Hl) as (Hlall & _).
  destruct (plain_part_inv _ Hd) as (Hdall & _).
  pose proof (mem_plain x local Hx Hlall) as H1.
  pose proof (mem_plain x domain Hx Hdall) as H2.
  assert (Hat : Ascii.eqb x "@"%char = false /\ Ascii.eqb x " "%char = false
                /\ Ascii.eqb x "<"%char = false
                /\ Ascii.eqb x ">"%char = false).
  { cbn [PyStr.mem] in Hx. rewrite orb_false_r in Hx.
    repeat (apply orb_true_iff in Hx as [Hx|Hx];
            [apply Ascii.eqb_eq in Hx; subst x; now repeat split|]).
    apply Ascii.eqb_eq in Hx; subst x; now repeat split. }
  destruct Hat as (Ha & Hs & Hlt & Hgt).
  cbn [PyStr.mem]. rewrite !mem_app. cbn [PyStr.mem].
  rewrite !mem_app. cbn [PyStr.mem].
  rewrite H1, H2, Ha, Hs, Hlt, Hgt. now split.
Qed.

(** ** The envelope address *)

Lemma AddressList_nonempty (field : string) :
  field <> EmptyString ->
  AddressList field = getaddrlist (2 * String.length field + 16) field [].
Proof. destruct field; [congruence|reflexivity]. Qed.

Lemma getaddrlist_nonempty (fuel : nat) (s : string)
    (result : list (string * string)) :
  s <> EmptyString ->
  getaddrlist (S fuel) s result
  = let (ad, t) := getaddress fuel s in
    getaddrlist fuel t
      (match ad with
       | [] => result ++ [(EmptyString, EmptyString)]
       | _ :: _ => result ++ ad
       end)%list.
Proof. destruct s; [congruence|reflexivity]. Qed.

(** [getaddresses] on a [From] header of the program with a plain name and
    a plain address. *)
Lemma getaddresses_header (name local domain : string) :
  plain_name name = true ->
  plain_part local = true -> plain_part domain = true ->
  getaddresses
    [String "034"%char
       (name ++ String "034"%char
          (String " "%char
             (String "<"%char
                (local ++ String "@"%char (domain ++ ">")))))]
  = [(name, local ++ String "@"%char domain)].
Proof.
  intros Hn Hl Hd.
  set (tail := String " "%char
                 (String "<"%char
                    (local ++ String "@"%char (domain ++ ">")))).
  assert (Hm : forall x,
             PyStr.mem x (String "(" (String ")" (String "034" (String "092"
               (String "[" (String "," EmptyString)))))) = true ->
             PyStr.mem x (local ++ String "@"%char domain) = false
             /\ PyStr.mem x tail = false).
  { intros x Hx. now apply mem_angle_address. }
  assert (Hstrip : strip_quoted_realnames
                     (String "034"%char (name ++ String "034"%char tail))
                   = tail).
  { apply strip_quoted_realnames_header;
      [exact Hn | apply (Hm "092"%char eq_refl)
       | apply (Hm "034"%char eq_refl) | discriminate]. }
  assert (Hcheck : check_parenthesis
                     (String "034"%char (name ++ String "034"%char tail))
                   = true).
  { unfold check_parenthesis. rewrite Hstrip.
    apply check_parenthesis_loop_calm;
      [apply (Hm "092"%char eq_refl) | apply (Hm "("%char eq_refl)
       | apply (Hm ")"%char eq_refl)]. }
  unfold getaddresses, pre_parse_validation. cbn [map]. rewrite Hcheck.
  cbn [fold_left join]. rewrite Hstrip.
  rewrite (count_absent _ _ (proj2 (Hm ","%char eq_refl))).
  unfold AddressList.
  remember (2 * String.length
                  (String "034"%char (name ++ String "034"%char tail)) + 16)
    as fuel eqn:Hfuel.
  assert (Hf : String.length name + String.length local
               + String.length domain + 8 < fuel).
  { subst fuel tail. cbn [String.length]. rewrite !length_append.
    cbn [String.length]. rewrite !length_append. cbn [String.length].
    rewrite !length_append. cbn [String.length]. lia. }
  destruct fuel as [|fuel]; [lia|].
  cbn [getaddrlist]. subst tail.
  rewrite getaddress_header; [|exact Hn|exact Hl|exact Hd|lia].
  destruct fuel as [|fuel]; [lia|].
  cbn [getaddrlist app post_parse_validation map snd].
  rewrite (proj1 (Hm "["%char eq_refl)). reflexivity.
Qed.

(** [quoteaddr] puts a plain address in angle brackets. *)
Lemma quoteaddr_plain (local domain : string) :
  plain_part local = true -> plain_part domain = true ->
  quoteaddr (local ++ String "@"%char domain)
  = String "<"%char (local ++ String "@"%char (domain ++ ">")).
Proof.
  intros Hl Hd.
  destruct (plain_part_inv _ Hl) as (Hlall & c & l' & Hleq & Hc).
  assert (Hm : forall x,
             PyStr.mem x (String "(" (String ")" (String "034" (String "092"
               (String "[" (String "," EmptyString)))))) = true ->
             PyStr.mem x (local ++ String "@"%char domain) = false).
  { intros x Hx. now apply mem_angle_address. }
  unfold quoteaddr, parseaddr, pre_parse_validation. cbn [map hd].
  rewrite check_parenthesis_calm;
    [| apply (Hm "034"%char eq_refl) | apply (Hm "092"%char eq_refl)
     | apply (Hm "("%char eq_refl) | apply (Hm ")"%char eq_refl)].
  rewrite AddressList_nonempty; [|rewrite Hleq; discriminate].
  remember (2 * String.length (local ++ String "@"%char domain) + 16)
    as fuel eqn:Hfuel.
  assert (Hf : String.length local + String.length domain + 6 < fuel).
  { subst fuel. rewrite length_append. cbn [String.length]. lia. }
  destruct fuel as [|fuel]; [lia|].
  assert (Hlist : getaddrlist (S fuel) (local ++ String "@"%char domain) []
                  = [(EmptyString, local ++ String "@"%char domain)]).
  { rewrite getaddrlist_nonempty; [|rewrite Hleq; discriminate].
    rewrite getaddress_bare; [|exact Hl|exact Hd|lia].
    destruct fuel as [|fuel]; [lia|]. reflexivity. }
  rewrite Hlist. cbn [post_parse_validation map snd].
  rewrite (Hm "["%char eq_refl).
  cbn [is_empty andb].
  replace (is_empty (local ++ String "@"%char domain)) with false
    by (rewrite Hleq; reflexivity).
  cbn [append]. now rewrite append_assoc.
Qed.

End ParseaddrFacts.

(* ===================================================================== *)
(** ** Template substitution (lines 39-43) *)
(* ===================================================================== *)

Section Substitution.
Import PyStr PyStrFacts.

Lemma log_events_emit (e : event) (w : world) : emit e w = log_events [e] w.
Proof. reflexivity. Qed.

Lemma log_events_app (a b : list event) (w : world) :
  log_events b (log_events a w) = log_events (a ++ b) w.
Proof. unfold log_events; simpl. now rewrite app_assoc. Qed.

Lemma log_events_nil (w : world) : log_events [] w = w.
Proof. destruct w; unfold log_events; simpl. now rewrite app_nil_r. Qed.

(** On a mapping of strings the loop never raises: it returns [substitute]
    and writes one debug line per key. *)
Lemma replace_placeholders_str (M : list (string * string)) :
  forall body w,
    replace_placeholders (str_items M) body w =
    (Return (substitute M body), log_events (replacing_logs M) w).
Proof.
  induction M as [|[k v] M IH]; intros body w.
  - simpl. now rewrite log_events_nil.
  - cbn [str_items map fst snd replace_placeholders str_of_key].
    unfold bind, logging. rewrite log_events_emit.
    fold (str_items M). fold (token k). rewrite IH, log_events_app.
    reflexivity.
Qed.

(** Without a dollar sign, [v] occurs in [$k$] only inside [k]. *)
Lemma prefix_dollar_end (v k : string) :
  mem "$"%char v = false -> prefix v (k ++ "$") = prefix v k.
Proof.
  revert k. induction v as [|a v IH]; intros k Hm; [now destruct k|].
  apply mem_false_neq in Hm as [Hne Hm].
  destruct k as [|c k]; cbn [append].
  - rewrite prefix_cons_neq by congruence. reflexivity.
  - simpl. destruct (ascii_dec a c); [now apply IH | reflexivity].
Qed.

Lemma contains_token (v k : string) :
  mem "$"%char v = false -> v <> EmptyString ->
  contains v (token k) = contains v k.
Proof.
  intros Hm Hv. destruct v as [|a v]; [contradiction|].
  unfold token. cbn [append contains].
  pose proof (mem_false_neq _ _ _ Hm) as [Hne _].
  rewrite prefix_cons_neq by congruence. cbn [orb].
  induction k as [|c k IH].
  - cbn [append contains]. rewrite prefix_cons_neq by congruence. reflexivity.
  - cbn [append contains]. rewrite IH.
    change (String c (k ++ "$")) with (String c k ++ "$").
    now rewrite prefix_dollar_end.
Qed.

Lemma last_is_app (c : ascii) (s : string) :
  last_is c (s ++ String c EmptyString) = true.
Proof.
  induction s as [|a s IH]; [apply Ascii.eqb_refl|].
  cbn [append last_is]. destruct (s ++ String c EmptyString) eqn:E.
  - destruct s; discriminate.
  - exact IH.
Qed.

(** One replacement of [token k'] by a value safe for [k] leaves no
    [token k] when [k' = k] or when there was none before. *)
Lemma replace_no_token (k k' v body : string) :
  safe_for k v = true ->
  k' = k \/ contains (token k) body = false ->
  contains (token k) (replace (token k') v body) = false.
Proof.
  unfold safe_for. intros Hs Hc.
  apply andb_true_iff in Hs as [H2 H3]. apply negb_true_iff in H2, H3.
  assert (H1 : v <> EmptyString).
  { intros ->. now destruct k. }
  change (replace (token k') v body) with (replace_from (token k') v 0 body).
  apply (replace_from_no_token "$"%char (k ++ "$") v H2) with (n := String.length body).
  - apply (last_is_app "$"%char (String "$"%char k)).
  - change (contains v (token k) = false). now rewrite contains_token.
  - apply le_n.
  - destruct Hc as [->|Hc]; [now left | now right].
Qed.

Lemma substitute_keeps (k : string) (M : list (string * string)) :
  forall body,
    forallb (fun kv => safe_for k (snd kv)) M = true ->
    contains (token k) body = false ->
    contains (token k) (substitute M body) = false.
Proof.
  induction M as [|[k' v] M IH]; intros body Hs Hc; [exact Hc|].
  cbn [forallb snd] in Hs. apply andb_true_iff in Hs as [Hv Hs].
  cbn [substitute]. apply IH; [exact Hs|].
  apply replace_no_token; [exact Hv | now right].
Qed.

Lemma substitute_clears (k : string) (M : list (string * string)) :
  forall body,
    forallb (fun kv => safe_for k (snd kv)) M = true ->
    In k (map fst M) ->
    contains (token k) (substitute M body) = false.
Proof.
  induction M as [|[k' v] M IH]; intros body Hs Hin; [destruct Hin|].
  cbn [forallb snd] in Hs. apply andb_true_iff in Hs as [Hv Hs].
  cbn [substitute]. destruct (string_dec k' k) as [->|Hne].
  - apply substitute_keeps; [exact Hs|].
    apply replace_no_token; [exact Hv | now left].
  - apply IH; [exact Hs|]. destruct Hin as [Hin|Hin]; [contradiction | exact Hin].
Qed.

Lemma safe_value_for (keys : list string) (k : string) (M : list (string * string)) :
  forallb (fun kv => safe_value keys (snd kv)) M = true ->
  In k keys ->
  forallb (fun kv => safe_for k (snd kv)) M = true.
Proof.
  intros H Hin. apply forallb_forall. intros kv Hkv.
  rewrite forallb_forall in H. specialize (H kv Hkv).
  unfold safe_value in H. rewrite forallb_forall in H. now apply H.
Qed.

End Substitution.

(** C2, as amended: when no value of the mapping holds a dollar sign or
    occurs inside a key of the mapping (the empty value does), the loop
    of [send_email] returns a body in which no placeholder [$k$] of a key
    [k] of the mapping occurs. *)
Theorem template_substitution_complete
    (M : list (string * string)) (body : string) (w : world) :
  forallb (fun kv => safe_value (map fst M) (snd kv)) M = true ->
  exists result w',
    replace_placeholders (str_items M) body w = (Return result, w')
    /\ forall k, In k (map fst M) ->
         PyStr.contains (token k) result = false.
Proof.
  intros Hsafe. exists (substitute M body), (log_events (replacing_logs M) w).
  split; [apply replace_placeholders_str|].
  intros k Hin. apply substitute_clears; [|exact Hin].
  now apply safe_value_for with (keys := map fst M).
Qed.

Lemma template_substitution_complete_witness :
  exists result w',
    replace_placeholders
      (str_items [("EmailAddress", "a@x.com"); ("Name", "Alice")])
      "Hi $Name$ <$EmailAddress$>" (world0 []) = (Return result, w')
    /\ forall k, In k ["EmailAddress"; "Name"] ->
         PyStr.contains (token k) result = false.
Proof.
  apply (template_substitution_complete
           [("EmailAddress", "a@x.com"); ("Name", "Alice")]
           "Hi $Name$ <$EmailAddress$>" (world0 [])).
  reflexivity.
Defined.

(** C2 as stated fails: a value may bring a placeholder back. With the
    mapping [{Name: Alice, Nick: $Name$}] the body [Hi $Nick$] becomes
    [Hi $Name$], which still holds the placeholder of the key [Name]. *)
Lemma template_substitution_leaves_token :
  exists w',
    replace_placeholders
      (str_items [("Name", "Alice"); ("Nick", "$Name$")])
      "Hi $Nick$" (world0 []) = (Return "Hi $Name$", w')
    /\ In "Name" (map fst [("Name", "Alice"); ("Nick", "$Name$")])
    /\ PyStr.contains (token "Name") "Hi $Name$" = true.
Proof.
  eexists. split; [vm_compute; reflexivity|]. split; [now left | reflexivity].
Qed.

(* ===================================================================== *)
(** ** confirm_action (lines 120-139) *)
(* ===================================================================== *)

Local Open Scope list_scope.

Section Confirm.

Variables question : string.

Lemma confirm_prompt_cases (default : string) :
  default = "y" \/ default = "n" ->
  exists prompt, confirm_prompt default = Some prompt.
Proof. intros [->| ->]; eexists; reflexivity. Qed.

Lemma confirm_prompt_none (default : string) :
  default <> "y" -> default <> "n" -> confirm_prompt default = None.
Proof.
  intros Hy Hn. unfold confirm_prompt.
  apply String.eqb_neq in Hy, Hn. now rewrite Hy, Hn.
Qed.

(** The loop passes over rejected answers, warning once for each, and
    decides on the first answer that is empty, [y] or [n]. *)
Lemma confirm_loop_run (default prompt : string) :
  default = "y" \/ default = "n" ->
  forall bad line rest w,
    forallb invalid_answer bad = true ->
    invalid_answer line = false ->
    confirm_loop question default prompt (bad ++ line :: rest) w =
    (Return (String.eqb (PyStr.lower line) default
             || String.eqb (PyStr.lower line) EmptyString),
     set_stdin rest
       (log_events (confirm_events question prompt bad line) w)).
Proof.
  intros Hd. induction bad as [|b bad IH]; intros line rest w Hbad Hline.
  - cbn [app confirm_loop]. unfold invalid_answer in Hline. cbv zeta in Hline.
    destruct (String.eqb (PyStr.lower line) EmptyString) eqn:E0.
    + rewrite orb_true_r. unfold confirm_events, log_events, set_stdin, emit.
      simpl. now rewrite <- app_assoc.
    + destruct Hd as [->| ->].
      * destruct (String.eqb (PyStr.lower line) "y") eqn:Ey.
        { unfold confirm_events, log_events, set_stdin, emit.
          simpl. now rewrite <- app_assoc. }
        destruct (String.eqb (PyStr.lower line) "n") eqn:En; [|discriminate].
        unfold confirm_events, log_events, set_stdin, emit.
        simpl. now rewrite <- app_assoc.
      * destruct (String.eqb (PyStr.lower line) "n") eqn:En.
        { unfold confirm_events, log_events, set_stdin, emit.
          simpl. now rewrite <- app_assoc. }
        destruct (String.eqb (PyStr.lower line) "y") eqn:Ey; [|discriminate].
        unfold confirm_events, log_events, set_stdin, emit.
        simpl. now rewrite <- app_assoc.
  - cbn [forallb] in Hbad. apply andb_true_iff in Hbad as [Hb Hbad].
    unfold invalid_answer in Hb. cbv zeta in Hb.
    apply andb_true_iff in Hb as [Hb Hn]. apply andb_true_iff in Hb as [H0 Hy].
    apply negb_true_iff in H0, Hy, Hn.
    change ((b :: bad) ++ line :: rest)%list with (b :: (bad ++ line :: rest))%list.
    cbn [confirm_loop]. rewrite H0, Hy, Hn.
    assert (Hdef : String.eqb (PyStr.lower b) default = false)
      by (destruct Hd as [->| ->]; assumption).
    rewrite Hdef. cbn [orb andb]. rewrite IH by assumption.
    unfold confirm_events, log_events, set_stdin, emit. simpl.
    f_equal. f_equal. now rewrite <- !app_assoc.
Qed.

(** The loop never fails for want of a prompt. *)
Lemma confirm_loop_bound (default prompt : string) (lines : list string) :
  forall w, fst (confirm_loop question default prompt lines w)
            <> Raise UnboundLocalError.
Proof.
  induction lines as [|line rest IH]; intros w; cbn [confirm_loop].
  - discriminate.
  - destruct (_ || _); [discriminate|].
    destruct (_ && _); [discriminate|]. apply IH.
Qed.

(** Whatever is typed, the first thing the loop does is to show the
    question with its prompt. *)
Lemma confirm_loop_asks (default prompt : string) (lines : list string) :
  forall w, exists evs,
    trace (snd (confirm_loop question default prompt lines w)) =
    trace w ++ Log INFO (question ++ prompt) [] :: evs.
Proof.
  induction lines as [|line rest IH]; intros w; cbn [confirm_loop].
  - eexists. simpl. rewrite <- app_assoc. reflexivity.
  - destruct (_ || _).
    { eexists. simpl. rewrite <- app_assoc. reflexivity. }
    destruct (_ && _).
    { eexists. simpl. rewrite <- app_assoc. reflexivity. }
    match goal with |- context [confirm_loop _ _ _ rest ?w1] =>
      destruct (IH w1) as [evs Hevs] end.
    rewrite Hevs. simpl. eexists. rewrite <- !app_assoc. reflexivity.
Qed.

End Confirm.

(** C5: with the default [y] or [n], [confirm_action] reads lines, lowers
    each, warns about and passes over every line that is neither empty nor
    [y] nor [n], and decides on the first line that is: [True] when it is
    empty or the default, [False] when it is the other of [y] and [n]. The
    lines read are consumed and nothing after them is. *)
Theorem confirm_action_decides
    (question default : string) (bad : list string) (line : string)
    (rest : list string) (w : world) :
  default = "y" \/ default = "n" ->
  stdin w = bad ++ line :: rest ->
  forallb invalid_answer bad = true ->
  invalid_answer line = false ->
  exists decision prompt w',
    confirm_prompt default = Some prompt
    /\ confirm_action question default w = (Return decision, w')
    /\ stdin w' = rest
    /\ trace w' = trace w ++ confirm_events question prompt bad line
    /\ (PyStr.lower line = EmptyString \/ PyStr.lower line = default ->
        decision = true)
    /\ (PyStr.lower line <> default ->
        PyStr.lower line = "y" \/ PyStr.lower line = "n" ->
        decision = false).
Proof.
  intros Hd Hin Hbad Hline.
  destruct (confirm_prompt_cases default Hd) as [prompt Hp].
  eexists. exists prompt. eexists. split; [exact Hp|].
  unfold confirm_action. rewrite Hp, Hin.
  rewrite (confirm_loop_run question default prompt Hd) by assumption.
  split; [reflexivity|]. split; [reflexivity|]. split; [reflexivity|]. split.
  - intros [E|E]; rewrite E.
    + apply orb_true_r.
    + now rewrite String.eqb_refl.
  - intros Hne Hyn. apply String.eqb_neq in Hne. rewrite Hne.
    destruct Hyn as [E|E]; rewrite E; reflexivity.
Qed.

Lemma confirm_action_decides_witness :
  exists w',
    confirm_action "ok?" "y" (world0 ["maybe"; "N"; "y"]) = (Return false, w')
    /\ stdin w' = ["y"]
    /\ trace w' = confirm_events "ok?" " [Y/n] " ["maybe"] "N".
Proof.
  destruct (confirm_action_decides "ok?" "y" ["maybe"] "N" ["y"]
              (world0 ["maybe"; "N"; "y"]))
    as (decision & prompt & w' & Hp & Hrun & Hin & Htr & _ & Hno).
  - now left.
  - reflexivity.
  - reflexivity.
  - reflexivity.
  - exists w'. injection Hp as <-.
    rewrite (Hno ltac:(discriminate) (or_intror eq_refl)) in Hrun.
    repeat split; assumption.
Defined.

(** C9: for the defaults [y] and [n] the prompt is bound before the loop
    uses it, the call never raises [UnboundLocalError] and it starts by
    showing the question; for any other default the prompt is unbound and
    the call raises [UnboundLocalError] at once, before anything is shown or
    read. *)
Theorem confirm_action_prompt_bound (question default : string) (w : world) :
  (default = "y" \/ default = "n" ->
     (exists prompt, confirm_prompt default = Some prompt
        /\ exists evs, trace (snd (confirm_action question default w)) =
                       trace w ++ Log INFO (question ++ prompt) [] :: evs)
     /\ fst (confirm_action question default w) <> Raise UnboundLocalError)
  /\ (default <> "y" -> default <> "n" ->
        confirm_action question default w = (Raise UnboundLocalError, w)).
Proof.
  split.
  - intros Hd. destruct (confirm_prompt_cases default Hd) as [prompt Hp].
    unfold confirm_action. rewrite Hp. split.
    + exists prompt. split; [reflexivity|]. apply confirm_loop_asks.
    + apply confirm_loop_bound.
  - intros Hy Hn. unfold confirm_action.
    now rewrite (confirm_prompt_none default Hy Hn).
Qed.

Lemma confirm_action_prompt_bound_witness :
  fst (confirm_action "ok?" "n" (world0 ["Y"])) <> Raise UnboundLocalError
  /\ confirm_action "ok?" "yes" (world0 ["Y"])
     = (Raise UnboundLocalError, world0 ["Y"]).
Proof.
  pose proof (confirm_action_prompt_bound "ok?" "n" (world0 ["Y"])) as [H1 _].
  pose proof (confirm_action_prompt_bound "ok?" "yes" (world0 ["Y"])) as [_ H2].
  split.
  - apply H1. now right.
  - apply H2; discriminate.
Defined.

(* ===================================================================== *)
(** ** send_email (lines 15-80) *)
(* ===================================================================== *)

Section SendEmail.

Variables (recipient : value) (args : cli_arguments).

Lemma server_emit (e : event) (w : world) : server (emit e w) = server w.
Proof. reflexivity. Qed.

Lemma trace_emit (e : event) (w : world) : trace (emit e w) = trace w ++ [e].
Proof. reflexivity. Qed.

(** The loop over the replacement values only writes debug lines. *)
Lemma replace_placeholders_logs (d : dict) :
  forall body w, exists r logs,
    replace_placeholders d body w = (r, log_events logs w)
    /\ Forall is_log logs.
Proof.
  induction d as [|[k v] d IH]; intros body w.
  - exists (Return body), []. split; [|constructor].
    simpl. now rewrite log_events_nil.
  - cbn [replace_placeholders]. unfold bind, logging.
    rewrite log_events_emit.
    destruct v as [new| | |];
      try (eexists; eexists; split;
           [reflexivity | repeat constructor]).
    match goal with |- context [replace_placeholders d ?b ?w1] =>
      destruct (IH b w1) as (r & logs & E & Hlogs) end.
    rewrite E, log_events_app. eexists; eexists. split; [reflexivity|].
    constructor; [exact I | exact Hlogs].
Qed.

(** The SMTP session hands the message over at most as [send_message(msg,
    from_addr)] with the configured envelope sender; when the server accepts
    every command the session is exactly [session_events]. *)
Lemma deliver_run (msg : message) (w : world) :
  exists r evs,
    deliver recipient args msg w = (r, log_events evs w)
    /\ Forall (only_sends msg (envelope_sender_address args)) evs
    /\ (accepts_all w ->
        r = Return tt /\ evs = session_events recipient args msg).
Proof.
  unfold deliver, with_SMTP, finally, bind, smtp, logging, ret, accepts_all,
    session_events.
  destruct (smtp_username args) as [user|];
    destruct (envelope_sender_address args) as [a|];
    repeat (rewrite ?server_emit, ?trace_emit;
            match goal with
            | |- context [server w ?t ?c] =>
                let E := fresh "E" in destruct (server w t c) eqn:E
            end);
    rewrite ?log_events_emit, ?log_events_app;
    (eexists; eexists; split; [reflexivity|]; split;
     [repeat constructor; auto
     | intros Hacc;
       repeat match goal with
         | E : server w _ _ = false |- _ => rewrite Hacc in E; discriminate E
         end;
       split; reflexivity]).
Qed.

Lemma only_sends_hands_over (body : string) (pos : nat) (evs : list event) :
  Forall (only_sends (built_message recipient args body pos)
                     (envelope_sender_address args)) evs ->
  Forall (hands_over recipient args pos) evs.
Proof.
  apply Forall_impl. intros [l f a|p l|[h p| | |u pw|m fa] ok| |z]; simpl; auto.
  intros [-> ->]. split; [reflexivity | now exists body].
Qed.

Lemma is_log_hands_over (pos : nat) (evs : list event) :
  Forall is_log evs -> Forall (hands_over recipient args pos) evs.
Proof.
  apply Forall_impl. intros [l f a|p l|c ok| |z]; simpl; tauto.
Qed.

(** One call of [send_email], whatever the server answers: it leaves the
    keyboard alone, rewinds the body file, and hands to the server nothing
    but the message built from its arguments. *)
Lemma send_email_run (replacement_values : option dict) (w : world) :
  exists evs,
    trace (snd (send_email recipient args replacement_values w)) = trace w ++ evs
    /\ Forall (hands_over recipient args (attachment_pos w)) evs
    /\ stdin (snd (send_email recipient args replacement_values w)) = stdin w
    /\ server (snd (send_email recipient args replacement_values w)) = server w
    /\ body_pos (snd (send_email recipient args replacement_values w)) = 0.
Proof.
  unfold send_email, bind, read_body, seek_body.
  set (body0 := PyStr.drop (body_pos w) (email_body args)).
  match goal with |- context [set_body_pos 0 ?x] =>
    set (w1 := set_body_pos 0 x) end.
  assert (Hlogs : exists r logs,
             match replacement_values with
             | Some d => replace_placeholders d body0
             | None => ret body0
             end w1 = (r, log_events logs w1) /\ Forall is_log logs).
  { destruct replacement_values as [d|].
    - apply replace_placeholders_logs.
    - exists (Return body0), []. split; [|constructor].
      unfold ret. now rewrite log_events_nil. }
  destruct Hlogs as (r & logs & E & Hlogs). rewrite E.
  destruct r as [body| |e];
    try solve [exists logs; repeat split; auto using is_log_hands_over].
  set (w2 := log_events logs w1).
  destruct (email_attachment args) as [[name content]|] eqn:Eatt;
    unfold read_attachment, seek_attachment, bind, ret;
    match goal with |- context [deliver recipient args ?m ?w3] =>
      destruct (deliver_run m w3) as (r & evs & E' & Hsends & _); rewrite E'
    end;
    (exists (logs ++ evs); split; [simpl; now rewrite app_assoc|];
     split; [|repeat split]);
    (apply Forall_app; split; [now apply is_log_hands_over|]);
    apply only_sends_hands_over with (body := body);
    unfold built_message; rewrite Eatt; exact Hsends.
Qed.

(** One call of [send_email] with a mapping of strings, on a server that
    accepts every command and with both files at their start: it returns,
    and what it did is the debug lines of the loop followed by the session
    that hands over the message with the substituted body. *)
Lemma send_email_ok (M : list (string * string)) (w : world) :
  accepts_all w -> body_pos w = 0 -> attachment_pos w = 0 ->
  send_email recipient args (Some (str_items M)) w =
  (Return tt,
   log_events
     (replacing_logs M
      ++ session_events recipient args
           (built_message recipient args (substitute M (email_body args)) 0))
     w).
Proof.
  intros Hacc Hb Ha. destruct w as [inp bp ap srv clk tr].
  cbn [body_pos attachment_pos] in Hb, Ha. subst bp ap.
  unfold send_email, bind, read_body, seek_body.
  cbn [body_pos PyStr.drop set_body_pos stdin attachment_pos server trace].
  rewrite replace_placeholders_str.
  unfold built_message.
  destruct (email_attachment args) as [[name content]|];
    unfold read_attachment, seek_attachment, bind, ret;
    cbn [log_events set_attachment_pos body_pos attachment_pos stdin server
         trace];
    match goal with |- context [deliver recipient args ?m ?w3] =>
      destruct (deliver_run m w3) as (r & evs & E' & _ & Hok); rewrite E'
    end;
    destruct (Hok Hacc) as [-> ->];
    unfold log_events; cbn [stdin body_pos attachment_pos server trace];
    now rewrite app_assoc.
Qed.

(** The same for a single recipient, without replacement values. *)
Lemma send_email_single_ok (w : world) :
  accepts_all w -> body_pos w = 0 -> attachment_pos w = 0 ->
  send_email recipient args None w =
  (Return tt,
   log_events
     (session_events recipient args
        (built_message recipient args (email_body args) 0)) w).
Proof.
  intros Hacc Hb Ha. destruct w as [inp bp ap srv clk tr].
  cbn [body_pos attachment_pos] in Hb, Ha. subst bp ap.
  unfold send_email, bind, read_body, seek_body, ret.
  cbn [body_pos PyStr.drop set_body_pos stdin attachment_pos server trace].
  unfold built_message.
  destruct (email_attachment args) as [[name content]|];
    unfold read_attachment, seek_attachment, bind, ret;
    cbn [log_events set_attachment_pos body_pos attachment_pos stdin server
         trace];
    match goal with |- context [deliver recipient args ?m ?w3] =>
      destruct (deliver_run m w3) as (r & evs & E' & _ & Hok); rewrite E'
    end;
    destruct (Hok Hacc) as [-> ->];
    reflexivity.
Qed.

End SendEmail.

(* ===================================================================== *)
(** ** Dictionaries and csv.DictReader (line 87) *)
(* ===================================================================== *)

Section Dicts.

Lemma key_eqb_eq (a b : key) : key_eqb a b = true <-> a = b.
Proof.
  destruct a as [x|], b as [y|]; simpl; try (split; congruence).
  rewrite String.eqb_eq. split; congruence.
Qed.

Lemma in_keys_dict_set (x k : key) (v : value) (d : dict) :
  In x (map fst (dict_set k v d)) <-> x = k \/ In x (map fst d).
Proof.
  induction d as [|[k' v'] d IH]; simpl.
  - intuition congruence.
  - destruct (key_eqb k k') eqn:E; simpl.
    + apply key_eqb_eq in E. subst k'. intuition congruence.
    + rewrite IH. intuition congruence.
Qed.

Lemma dict_mem_in (k : key) (d : dict) :
  dict_mem k d = true <-> In k (map fst d).
Proof.
  unfold dict_mem. induction d as [|[k' v'] d IH]; simpl.
  - split; [discriminate | tauto].
  - destruct (key_eqb k k') eqn:E.
    + apply key_eqb_eq in E. subst k'. tauto.
    + rewrite IH. split; [tauto|]. intros [H|H]; [|exact H].
      subst k'. assert (key_eqb k k = true) by now apply key_eqb_eq.
      congruence.
Qed.

Lemma in_keys_fold_set (x : key) (ps : list (key * value)) :
  forall d,
    In x (map fst (fold_left (fun d kv => dict_set (fst kv) (snd kv) d) ps d))
    <-> In x (map fst ps) \/ In x (map fst d).
Proof.
  induction ps as [|[k v] ps IH]; intros d; simpl.
  - tauto.
  - rewrite IH, in_keys_dict_set. simpl. intuition congruence.
Qed.

Lemma in_keys_fold_none (x : key) (ks : list string) :
  forall d,
    In x (map fst (fold_left (fun d k => dict_set (Some k) VNone d) ks d))
    <-> In x (map Some ks) \/ In x (map fst d).
Proof.
  induction ks as [|k ks IH]; intros d; simpl.
  - tauto.
  - rewrite IH, in_keys_dict_set. intuition congruence.
Qed.

Lemma map_fst_combine {A B : Type} (a : list A) (b : list B) :
  List.length a = List.length b -> map fst (combine a b) = a.
Proof.
  revert b. induction a as [|x a IH]; intros [|y b] H; simpl in *;
    try discriminate; [reflexivity|].
  f_equal. apply IH. congruence.
Qed.

Lemma in_map_fst_combine {A B : Type} (x : A) (a : list A) (b : list B) :
  In x (map fst (combine a b)) -> In x a.
Proof.
  intros H. apply in_map_iff in H as [[x' y] [E H]]. simpl in E. subst x'.
  eapply in_combine_l; eauto.
Qed.

(** The keys of a record are field names of the header, and [None] for a
    long row. *)
Lemma row_dict_keys (fieldnames row : list string) (k : string) :
  dict_mem (Some k) (Csv.row_dict fieldnames row) = true -> In k fieldnames.
Proof.
  rewrite dict_mem_in. unfold Csv.row_dict, dict_of_pairs. cbv zeta.
  assert (Hbase : forall x,
    In (Some x) (map fst (fold_left
       (fun d kv => dict_set (fst kv) (snd kv) d)
       (combine (map Some fieldnames) (map VStr row)) [])) ->
    In x fieldnames).
  { intros x H. apply in_keys_fold_set in H as [H|[]].
    apply in_map_fst_combine in H. apply in_map_iff in H as [y [E H]].
    congruence. }
  destruct (Nat.ltb _ _).
  - intros H. apply in_keys_dict_set in H as [H|H]; [discriminate | auto].
  - destruct (Nat.ltb _ _); [|auto].
    intros H. apply in_keys_fold_none in H as [H|H]; [|auto].
    apply in_map_iff in H as [y [E H]]. injection E as ->.
    rewrite <- (firstn_skipn (List.length row) fieldnames).
    apply in_or_app. now right.
Qed.

Lemma all_str_cons (kv : key * value) (d : dict) :
  all_str (kv :: d) =
  match kv with
  | (Some _, VStr _) => true
  | _ => false
  end && all_str d.
Proof. reflexivity. Qed.

Lemma all_str_dict_set (k : string) (v : string) (d : dict) :
  all_str d = true -> all_str (dict_set (Some k) (VStr v) d) = true.
Proof.
  induction d as [|[k' v'] d IH]; [reflexivity|].
  rewrite all_str_cons. intros H. apply andb_true_iff in H as [H1 H2].
  cbn [dict_set]. destruct (key_eqb (Some k) k') eqn:E; rewrite all_str_cons.
  - apply key_eqb_eq in E. subst k'. now rewrite H2.
  - now rewrite H1, IH.
Qed.

Lemma all_str_fold (fieldnames row : list string) :
  forall d, all_str d = true ->
    all_str (fold_left (fun d kv => dict_set (fst kv) (snd kv) d)
               (combine (map Some fieldnames) (map VStr row)) d) = true.
Proof.
  revert row. induction fieldnames as [|k ks IH]; intros [|c row] d H; simpl;
    auto.
  apply IH. now apply all_str_dict_set.
Qed.

(** A row with as many cells as the header has names becomes a record of
    strings that has every field name as a key. *)
Lemma row_dict_full (fieldnames row : list string) :
  List.length row = List.length fieldnames ->
  all_str (Csv.row_dict fieldnames row) = true
  /\ forall k, In k fieldnames ->
       dict_mem (Some k) (Csv.row_dict fieldnames row) = true.
Proof.
  intros Hlen. unfold Csv.row_dict, dict_of_pairs. cbv zeta.
  rewrite Hlen, Nat.ltb_irrefl. split.
  - now apply all_str_fold.
  - intros k Hk. apply dict_mem_in, in_keys_fold_set. left.
    rewrite map_fst_combine by now rewrite !length_map.
    now apply in_map.
Qed.

Lemma all_str_items (d : dict) :
  all_str d = true -> d = str_items (strings_of d).
Proof.
  induction d as [|[k v] d IH]; [reflexivity|].
  rewrite all_str_cons. intros H. apply andb_true_iff in H as [H1 H2].
  destruct k as [k|]; [|discriminate].
  destruct v as [s| | |]; try discriminate.
  simpl. f_equal. now apply IH.
Qed.

End Dicts.

(* ===================================================================== *)
(** ** The message and its headers (lines 19-59) *)
(* ===================================================================== *)

Section Message.

Variables (recipient : value) (args : cli_arguments).

Lemma built_message_headers (body : string) (pos : nat) :
  headers (built_message recipient args body pos)
  = expected_headers recipient args.
Proof.
  unfold built_message, expected_headers, message_headers.
  destruct (email_attachment args) as [[name content]|];
    destruct (cc_display_name args); reflexivity.
Qed.

Lemma built_message_parts (body : string) (pos : nat) :
  parts (built_message recipient args body pos)
  = message_parts args body pos.
Proof.
  unfold built_message, message_parts, message_headers.
  destruct (email_attachment args) as [[name content]|];
    destruct (cc_display_name args); reflexivity.
Qed.

Lemma expected_headers_from :
  get_header "From" (expected_headers recipient args)
  = Some (VStr (from_header (hide_source_email args)
                  (sender_display_name args) (sender_address args))).
Proof. reflexivity. Qed.

Lemma expected_headers_sender :
  get_header "Sender" (expected_headers recipient args) = None.
Proof.
  unfold expected_headers. destruct (cc_display_name args); reflexivity.
Qed.

(** What a call of [send_email] hands to the server, read off the events. *)
Lemma hands_over_inv (pos : nat) (evs : list event) (m : message)
    (fa : option string) (ok : bool) :
  Forall (hands_over recipient args pos) evs ->
  In (Smtp (SendMessage m fa) ok) evs ->
  fa = envelope_sender_address args
  /\ headers m = expected_headers recipient args
  /\ exists body, parts m = message_parts args body pos.
Proof.
  intros H Hin. rewrite Forall_forall in H. specialize (H _ Hin).
  destruct H as [-> [body ->]]. split; [reflexivity|]. split.
  - apply built_message_headers.
  - exists body. apply built_message_parts.
Qed.

Lemma in_session_events (msg : message) :
  In (Smtp (SendMessage msg (envelope_sender_address args)) true)
     (session_events recipient args msg).
Proof.
  unfold session_events. right. apply in_or_app. right. right. now left.
Qed.

End Message.

Section Delivery.

Variables (recipient : value) (args : cli_arguments).

(** On a server that accepts every command, a call with no replacement
    values or with a mapping of strings hands its message over. *)
Lemma send_email_sends (replacement_values : option dict) (w : world) :
  accepts_all w -> body_pos w = 0 -> attachment_pos w = 0 ->
  replacement_values = None
  \/ (exists M, replacement_values = Some (str_items M)) ->
  exists body, forall evs,
    trace (snd (send_email recipient args replacement_values w))
    = trace w ++ evs ->
    In (Smtp (SendMessage (built_message recipient args body 0)
                (envelope_sender_address args)) true) evs.
Proof.
  intros Hacc Hb Ha [->|[M ->]].
  - exists (email_body args). intros evs.
    rewrite send_email_single_ok by assumption. cbn [snd log_events trace].
    intros H. apply app_inv_head in H. subst evs. apply in_session_events.
  - exists (substitute M (email_body args)). intros evs.
    rewrite send_email_ok by assumption. cbn [snd log_events trace].
    intros H. apply app_inv_head in H. subst evs.
    apply in_or_app. right. apply in_session_events.
Qed.

End Delivery.

(** C1, as amended: with [hide_source_email] set, the [From] header is a
    double quote, the display name, one space and the padding of 200 spaces
    (201 spaces in a row), a pipe, a double quote, a space, and the sender
    address in angle brackets; every message [send_email] hands to the
    server carries it. *)
Theorem from_header_hidden
    (recipient : value) (args : cli_arguments)
    (replacement_values : option dict) (w : world) :
  hide_source_email args = true ->
  let rendered :=
    (dquote ++ sender_display_name args ++ PyStr.spaces 201 ++ "|" ++ dquote
       ++ " <" ++ sender_address args ++ ">")%string in
  from_header (hide_source_email args) (sender_display_name args)
    (sender_address args) = rendered
  /\ exists evs,
       trace (snd (send_email recipient args replacement_values w))
       = trace w ++ evs
       /\ forall m fa ok, In (Smtp (SendMessage m fa) ok) evs ->
            get_header "From" (headers m) = Some (VStr rendered).
Proof.
  intros Hhide rendered.
  assert (Hfrom : from_header (hide_source_email args)
                    (sender_display_name args) (sender_address args)
                  = rendered).
  { rewrite Hhide. unfold from_header, rendered. cbn [negb]. cbv zeta.
    rewrite (PyStrFacts.append_assoc (PyStr.spaces 200)). reflexivity. }
  split; [exact Hfrom|].
  destruct (send_email_run recipient args replacement_values w)
    as (evs & Htr & Hall & _).
  exists evs. split; [exact Htr|]. intros m fa ok Hin.
  destruct (hands_over_inv _ _ _ _ _ _ _ Hall Hin) as (_ & Hh & _).
  now rewrite Hh, expected_headers_from, Hfrom.
Qed.

Lemma from_header_hidden_witness :
  from_header true "IT Desk" "it@corp.example"
  = (dquote ++ "IT Desk" ++ PyStr.spaces 201 ++ "|" ++ dquote
       ++ " <it@corp.example>")%string.
Proof.
  exact (proj1 (from_header_hidden (VStr "a@x.com") sample_args None
                  (world0 []) eq_refl)).
Defined.

(** C1 as stated fails: for the display name [A] the header does not hold
    [A] followed by exactly 200 spaces and a pipe, because a space of the
    format string stands between the name and the padding. *)
Lemma from_header_hidden_not_200 :
  ~ (exists pre post,
       from_header true "A" "a@b.c"
       = (pre ++ "A" ++ PyStr.spaces 200 ++ "|" ++ post)%string).
Proof.
  intros H.
  assert (Hc : PyStr.contains ("A" ++ PyStr.spaces 200 ++ "|")
                 (from_header true "A" "a@b.c") = true).
  { apply PyStrFacts.contains_spec. destruct H as (pre & post & H).
    exists pre, post. rewrite H.
    now rewrite !PyStrFacts.append_assoc. }
  vm_compute in Hc. discriminate Hc.
Qed.

(** The display name as it stands in the [From] header. *)
Lemma plain_name_padded (hide : bool) (name : string) :
  plain_name name = true ->
  plain_name
    (name ++ (if hide then " " ++ PyStr.spaces 200 ++ "|" else EmptyString))
  = true.
Proof.
  intros H. unfold plain_name. rewrite ParseaddrFacts.all_chars_app.
  fold (plain_name name). rewrite H. now destruct hide.
Qed.

(** The [From] header, with the name and the address apart. *)
Lemma from_header_text (hide : bool) (name addr : string) :
  from_header hide name addr
  = String "034"%char
      ((name ++ (if hide then " " ++ PyStr.spaces 200 ++ "|" else EmptyString))
       ++ String "034"%char (String " "%char (String "<"%char (addr ++ ">")))).
Proof.
  unfold from_header, dquote. destruct hide; cbn [negb append].
  - rewrite PyStrFacts.append_assoc. cbn [append].
    now rewrite PyStrFacts.append_assoc.
  - now rewrite PyStrFacts.append_nil_r.
Qed.

Lemma from_header_address (hide : bool) (name local domain : string) :
  from_header hide name (local ++ "@" ++ domain)
  = String "034"%char
      ((name ++ (if hide then " " ++ PyStr.spaces 200 ++ "|" else EmptyString))
       ++ String "034"%char
            (String " "%char
               (String "<"%char (local ++ String "@"%char (domain ++ ">"))))).
Proof.
  rewrite from_header_text.
  change ((local ++ "@" ++ domain) ++ ">")%string
    with ((local ++ String "@"%char domain) ++ ">")%string.
  now rewrite (PyStrFacts.append_assoc local (String "@"%char domain) ">").
Qed.

(** C3, as amended: every message [send_email] hands to the server has as
    its [From] header the quoted display name (with the padding when the
    address is hidden) followed by the sender address in angle brackets,
    whatever the envelope override. With an override the override is passed
    as [from_addr], and MAIL FROM carries [quoteaddr] of it: the override in
    angle brackets when it is a plain address. Without one no [from_addr]
    is passed, the message has no [Sender] header, and MAIL FROM carries the
    sender address in angle brackets when that address is plain and the
    display name has no double quote, backslash or carriage return. On a
    server that accepts every command a message is handed over. *)
Theorem envelope_sender_follows_override
    (recipient : value) (args : cli_arguments)
    (replacement_values : option dict) (w : world) :
  exists evs,
    trace (snd (send_email recipient args replacement_values w))
    = trace w ++ evs
    /\ (forall m fa ok, In (Smtp (SendMessage m fa) ok) evs ->
          fa = envelope_sender_address args
          /\ get_header "From" (headers m)
             = Some (VStr (dquote ++ sender_display_name args
                             ++ (if hide_source_email args
                                 then " " ++ PyStr.spaces 200 ++ "|"
                                 else EmptyString)
                             ++ dquote ++ " <" ++ sender_address args
                             ++ ">")%string)
          /\ (forall override,
                envelope_sender_address args = Some override ->
                envelope_sender m fa = Some (Parseaddr.quoteaddr override)
                /\ (forall local domain,
                      override = (local ++ "@" ++ domain)%string ->
                      plain_part local = true -> plain_part domain = true ->
                      envelope_sender m fa
                      = Some ("<" ++ override ++ ">")%string))
          /\ (envelope_sender_address args = None ->
              forall local domain,
                sender_address args = (local ++ "@" ++ domain)%string ->
                plain_name (sender_display_name args) = true ->
                plain_part local = true -> plain_part domain = true ->
                envelope_sender m fa
                = Some ("<" ++ sender_address args ++ ">")%string))
    /\ (accepts_all w -> body_pos w = 0 -> attachment_pos w = 0 ->
        replacement_values = None
        \/ (exists M, replacement_values = Some (str_items M)) ->
        exists m,
          In (Smtp (SendMessage m (envelope_sender_address args)) true) evs).
Proof.
  destruct (send_email_run recipient args replacement_values w)
    as (evs & Htr & Hall & _).
  exists evs. split; [exact Htr|]. split.
  - intros m fa ok Hin.
    destruct (hands_over_inv _ _ _ _ _ _ _ Hall Hin) as (-> & Hh & _).
    split; [reflexivity|]. split; [|split].
    + rewrite Hh, expected_headers_from, from_header_text.
      unfold dquote. cbn [append].
      now rewrite PyStrFacts.append_assoc.
    + intros override Hov. rewrite Hov. split; [reflexivity|].
      intros local domain -> Hl Hd. cbn [envelope_sender append].
      rewrite (ParseaddrFacts.quoteaddr_plain local domain Hl Hd).
      now rewrite PyStrFacts.append_assoc.
    + intros Hnone local domain Haddr Hn Hl Hd. rewrite Hnone.
      unfold envelope_sender.
      rewrite Hh, expected_headers_from, expected_headers_sender.
      rewrite Haddr, from_header_address.
      rewrite (ParseaddrFacts.getaddresses_header _ local domain
                 (plain_name_padded _ _ Hn) Hl Hd).
      cbn [hd snd append].
      rewrite (ParseaddrFacts.quoteaddr_plain local domain Hl Hd).
      now rewrite PyStrFacts.append_assoc.
  - intros Hacc Hb Ha Hrepl.
    destruct (send_email_sends recipient args replacement_values w
                Hacc Hb Ha Hrepl) as [body Hbody].
    eexists. apply Hbody. exact Htr.
Qed.

Lemma envelope_sender_follows_override_witness :
  (exists evs m,
     trace (snd (send_email (VStr "a@x.com") sample_args None (world0 [])))
     = evs
     /\ In (Smtp (SendMessage m (Some "bounce@other.example")) true) evs
     /\ envelope_sender m (Some "bounce@other.example")
        = Some "<bounce@other.example>"
     /\ get_header "From" (headers m)
        = Some (VStr (dquote ++ "IT Desk " ++ PyStr.spaces 200 ++ "|"
                        ++ dquote ++ " <it@corp.example>")%string))
  /\ (exists evs m,
        trace (snd (send_email (VStr "a@x.com") sample_args_single None
                      (world0 [])))
        = evs
        /\ In (Smtp (SendMessage m None) true) evs
        /\ envelope_sender m None = Some "<it@corp.example>").
Proof.
  split.
  - destruct (envelope_sender_follows_override (VStr "a@x.com") sample_args
                None (world0 [])) as (evs & Htr & Hall & Hsent).
    destruct Hsent as [m Hm].
    + intros t c. reflexivity.
    + reflexivity.
    + reflexivity.
    + now left.
    + exists evs, m. destruct (Hall _ _ _ Hm) as (_ & Hfrom & Hov & _).
      destruct (Hov "bounce@other.example" eq_refl) as [_ Hplain].
      split; [exact Htr|]. split; [exact Hm|]. split; [|exact Hfrom].
      apply (Hplain "bounce" "other.example"); reflexivity.
  - destruct (envelope_sender_follows_override (VStr "a@x.com")
                sample_args_single None (world0 []))
      as (evs & Htr & Hall & Hsent).
    destruct Hsent as [m Hm].
    + intros t c. reflexivity.
    + reflexivity.
    + reflexivity.
    + now left.
    + exists evs, m. destruct (Hall _ _ _ Hm) as (_ & _ & _ & Hnone).
      split; [exact Htr|]. split; [exact Hm|].
      apply (Hnone eq_refl "it" "corp.example"); reflexivity.
Defined.

(** C3 as stated fails: with no envelope override and the display name
    made of [a], a double quote and [b], the [From] header of the message
    handed over holds the sender address [x@y.z], and MAIL FROM carries
    [<a>]. *)
Lemma envelope_sender_not_sender_address :
  envelope_sender_address sample_args_quote_in_name = None
  /\ exists m,
       In (Smtp (SendMessage m None) true)
          (trace (snd (send_email (VStr "a@x.com") sample_args_quote_in_name
                         None (world0 []))))
       /\ get_header "From" (headers m)
          = Some (VStr (dquote ++ sender_display_name sample_args_quote_in_name
                          ++ dquote ++ " <x@y.z>")%string)
       /\ envelope_sender m None = Some "<a>"
       /\ envelope_sender m None <> Some "<x@y.z>".
Proof.
  split; [reflexivity|].
  eexists. split; [|split; [|split]].
  - vm_compute. do 2 right. left. reflexivity.
  - reflexivity.
  - vm_compute. reflexivity.
  - vm_compute. discriminate.
Qed.

(** C10: whatever the replacement values, the headers of a message
    [send_email] hands to the server are the configured subject, the
    recipient, the rendered sender, the priority and the carbon copy, as
    given, and after the text part comes the attachment as read from the
    file: the values of the recipient reach the text part only. On a server
    that accepts every command the message with the substituted body is
    handed over. *)
Theorem substitution_only_in_body
    (recipient : value) (args : cli_arguments)
    (replacement_values : option dict) (w : world) :
  exists evs,
    trace (snd (send_email recipient args replacement_values w))
    = trace w ++ evs
    /\ (forall m fa ok, In (Smtp (SendMessage m fa) ok) evs ->
          headers m = expected_headers recipient args
          /\ exists body,
               parts m = message_parts args body (attachment_pos w))
    /\ (accepts_all w -> body_pos w = 0 -> attachment_pos w = 0 ->
        forall M, replacement_values = Some (str_items M) ->
          In (Smtp (SendMessage
                      (built_message recipient args
                         (substitute M (email_body args)) 0)
                      (envelope_sender_address args)) true) evs).
Proof.
  destruct (send_email_run recipient args replacement_values w)
    as (evs & Htr & Hall & _).
  exists evs. split; [exact Htr|]. split.
  - intros m fa ok Hin.
    destruct (hands_over_inv _ _ _ _ _ _ _ Hall Hin) as (_ & Hh & Hp).
    now split.
  - intros Hacc Hb Ha M ->.
    rewrite send_email_ok in Htr by assumption.
    cbn [snd log_events trace] in Htr. apply app_inv_head in Htr.
    subst evs. apply in_or_app. right. apply in_session_events.
Qed.

Lemma substitution_only_in_body_witness :
  exists m,
    In (Smtp (SendMessage m (Some "bounce@other.example")) true)
       (trace (snd (send_email (VStr "a@x.com") sample_args
                      (Some (str_items [("EmailAddress", "a@x.com");
                                        ("Name", "Alice")]))
                      (world0 []))))
    /\ get_header "Subject" (headers m) = Some (VStr "Offer for $Name$")
    /\ parts m = [MIMEText "Hi Alice" "html"].
Proof.
  destruct (substitution_only_in_body (VStr "a@x.com") sample_args
              (Some (str_items [("EmailAddress", "a@x.com");
                                ("Name", "Alice")]))
              (world0 [])) as (evs & Htr & Hall & Hsent).
  eexists. split; [|split].
  - rewrite Htr. apply (Hsent (fun _ _ => eq_refl) eq_refl eq_refl _ eq_refl).
  - reflexivity.
  - reflexivity.
Defined.

(* ===================================================================== *)
(** ** send_multiple_emails (lines 83-117) and main (lines 189-201) *)
(* ===================================================================== *)

Section Batch.

Variable args : cli_arguments.

Lemma log_fields_run (d : dict) :
  forall w, log_fields d w =
            (Return tt,
             log_events (map (fun kv => Log INFO "[%s] %s"
                                          [key_value (fst kv); snd kv]) d) w).
Proof.
  induction d as [|[k v] d IH]; intros w.
  - simpl. unfold ret. now rewrite log_events_nil.
  - cbn [log_fields]. unfold bind, logging. rewrite IH.
    now rewrite log_events_emit, log_events_app.
Qed.

Lemma log_recipients_run (rs : list dict) :
  forall w, log_recipients rs w = (Return tt, log_events (review_events rs) w).
Proof.
  induction rs as [|r rs IH]; intros w.
  - simpl. unfold ret. now rewrite log_events_nil.
  - cbn [log_recipients]. unfold bind, logging.
    rewrite log_fields_run, IH.
    rewrite log_events_emit, !log_events_app. reflexivity.
Qed.

Lemma is_review_no_delivery (evs : list event) :
  Forall is_review evs -> filter is_delivery evs = [].
Proof.
  induction 1 as [|e evs He _ IH]; [reflexivity|].
  simpl. rewrite IH.
  destruct e as [[| | |] f a|p l|c ok| |z]; simpl in He; try tauto; reflexivity.
Qed.

Lemma review_events_review (rs : list dict) : Forall is_review (review_events rs).
Proof.
  unfold review_events. induction rs as [|r rs IH]; [constructor|].
  cbn [flat_map]. constructor; [exact I|].
  apply Forall_app. split; [|exact IH].
  apply Forall_forall. intros e He. apply in_map_iff in He as [kv [<- _]].
  exact I.
Qed.

Lemma confirm_events_review (question prompt : string) (bad : list string)
    (line : string) :
  Forall is_review (confirm_events question prompt bad line).
Proof.
  unfold confirm_events. apply Forall_app. split.
  - induction bad as [|b bad IH]; [constructor|].
    cbn [flat_map app]. repeat (constructor; [exact I|]). exact IH.
  - repeat constructor.
Qed.

Lemma review_phase_review (rs : list dict) (bad : list string) (line : string) :
  Forall is_review (review_phase rs bad line).
Proof.
  unfold review_phase. constructor; [exact I|].
  apply Forall_app. split;
    [apply review_events_review | apply confirm_events_review].
Qed.

Lemma filter_replacing_logs (M : list (string * string)) :
  filter is_delivery (replacing_logs M) = [].
Proof. induction M as [|kv M IH]; [reflexivity | exact IH]. Qed.

Lemma filter_session_events (recipient : value) (msg : message) :
  filter is_delivery (session_events recipient args msg)
  = [Smtp (SendMessage msg (envelope_sender_address args)) true].
Proof.
  unfold session_events. destruct (smtp_username args); reflexivity.
Qed.

Lemma filter_batch_events (rs : list dict) :
  filter is_delivery (batch_events args rs)
  = flat_map (recipient_delivery args) rs.
Proof.
  unfold batch_events. induction rs as [|r rs IH]; [reflexivity|].
  cbn [flat_map]. rewrite filter_app, IH. f_equal.
  unfold recipient_events. cbn [filter is_delivery].
  rewrite !filter_app, filter_replacing_logs, filter_session_events.
  reflexivity.
Qed.

(** A pause of a length [time.sleep] converts, which the operating system
    accepts. *)
Lemma sleep_ok (secs : Z) (w : world) :
  (0 <= secs <= 9223372036)%Z -> clock w (trace w) secs = true ->
  sleep secs w = (Return tt, emit (Sleep secs) w).
Proof.
  intros [Hlo Hhi] Hclock. unfold sleep.
  assert (H1 : (secs <? -9223372036)%Z = false) by (apply Z.ltb_ge; lia).
  assert (H2 : (9223372036 <? secs)%Z = false) by now apply Z.ltb_ge.
  assert (H3 : (secs <? 0)%Z = false) by now apply Z.ltb_ge.
  now rewrite H1, H2, H3, Hclock.
Qed.

(** A length [time.sleep] does not pass on to the operating system. *)
Lemma sleep_raises (secs : Z) (e : exn) (w : world) :
  sleep_error secs = Some e -> sleep secs w = (Raise e, w).
Proof.
  unfold sleep_error, sleep.
  destruct ((secs <? -9223372036)%Z || (9223372036 <? secs)%Z);
    [now intros [= <-]|].
  destruct (secs <? 0)%Z; [now intros [= <-] | discriminate].
Qed.

(** The sending loop on records of strings that all have the address, with
    a server that accepts every command, both files at their start and a
    delay [time.sleep] converts and the operating system accepts: it returns
    after the events of every recipient, in order. *)
Lemma send_all_ok (rs : list dict) :
  Forall (fun r => all_str r = true
                   /\ dict_mem (Some "EmailAddress") r = true) rs ->
  (0 <= sending_delay args <= 9223372036)%Z ->
  forall w, accepts_all w -> pauses w (sending_delay args) ->
    body_pos w = 0 -> attachment_pos w = 0 ->
    send_all rs args w = (Return tt, log_events (batch_events args rs) w).
Proof.
  intros Hrs Hdelay. induction Hrs as [|r rs [Hstr Hmem] _ IH];
    intros w Hacc Hclk Hb Ha.
  - simpl. unfold ret. now rewrite log_events_nil.
  - cbn [send_all]. unfold bind, subscript, logging.
    unfold batch_events. cbn [flat_map]. unfold recipient_events at 1.
    unfold address_of. unfold dict_mem in Hmem.
    destruct (dict_get (Some "EmailAddress") r) as [v|]; [|discriminate].
    unfold ret.
    pose proof (send_email_ok v args (strings_of r)
                  (emit (Log DEBUG "Processing an email to %s" [v]) w)
                  Hacc Hb Ha) as Hsend.
    rewrite <- (all_str_items r Hstr) in Hsend. rewrite Hsend.
    rewrite sleep_ok by (try exact Hdelay; apply Hclk).
    rewrite IH by assumption.
    rewrite !log_events_emit, !log_events_app. f_equal. f_equal.
    fold (batch_events args rs). cbn [app]. rewrite <- !app_assoc.
    reflexivity.
Qed.

End Batch.

Section BatchRun.

Variable args : cli_arguments.

(** [send_multiple_emails] on a table that passes both checks, up to the
    answer of the operator: on [y] or an empty line it goes on to the
    sending loop, on [n] it warns and exits. *)
Lemma send_multiple_emails_review
    (rows : Csv.table) (first : dict) (others : list dict)
    (bad : list string) (line : string) (rest : list string) (w : world) :
  Csv.DictReader rows = first :: others ->
  dict_mem (Some "EmailAddress") first = true ->
  stdin w = bad ++ line :: rest ->
  forallb invalid_answer bad = true ->
  invalid_answer line = false ->
  send_multiple_emails rows args w =
  if String.eqb (PyStr.lower line) "y"
     || String.eqb (PyStr.lower line) EmptyString
  then send_all (first :: others) args
         (set_stdin rest
            (log_events (review_phase (first :: others) bad line) w))
  else (Exit,
        set_stdin rest
          (log_events (review_phase (first :: others) bad line
                       ++ [user_termination]) w)).
Proof.
  intros Hrows Hmem Hin Hbad Hline.
  unfold send_multiple_emails. rewrite Hrows. cbv zeta. rewrite Hmem.
  cbn [negb]. unfold bind at 1, logging at 1. unfold bind at 1.
  rewrite log_recipients_run. unfold bind at 1, confirm_action.
  change (confirm_prompt "y") with (Some " [Y/n] ").
  cbn [stdin log_events emit]. rewrite Hin.
  rewrite (confirm_loop_run review_question "y" " [Y/n] " (or_introl eq_refl))
    by assumption.
  rewrite !log_events_emit, !log_events_app.
  destruct (String.eqb (PyStr.lower line) "y"
            || String.eqb (PyStr.lower line) EmptyString).
  - cbn [negb]. unfold bind, ret. reflexivity.
  - cbn [negb]. unfold bind, logging, exit.
    unfold review_phase, user_termination, set_stdin, log_events, emit.
    cbn [stdin body_pos attachment_pos server trace].
    do 2 f_equal. repeat (rewrite <- app_assoc || rewrite <- app_comm_cons).
    reflexivity.
Qed.

Lemma filter_nonblank (fieldnames : list string) (data : Csv.table) :
  fieldnames <> [] ->
  Forall (fun row => List.length row = List.length fieldnames) data ->
  filter (fun r => negb (Csv.is_blank r)) data = data.
Proof.
  intros Hne. induction 1 as [|row data Hrow _ IH]; [reflexivity|].
  simpl. rewrite IH. destruct row; [|reflexivity].
  destruct fieldnames; [contradiction | discriminate].
Qed.

Lemma records_full (fieldnames : list string) (data : Csv.table) :
  In "EmailAddress" fieldnames ->
  Forall (fun row => List.length row = List.length fieldnames) data ->
  Forall (fun r => all_str r = true
                   /\ dict_mem (Some "EmailAddress") r = true)
         (map (Csv.row_dict fieldnames) data).
Proof.
  intros Hin. induction 1 as [|row data Hrow _ IH]; [constructor|].
  cbn [map]. constructor; [|exact IH].
  destruct (row_dict_full fieldnames row Hrow) as [Hstr Hkeys]. auto.
Qed.

End BatchRun.

(** C4: a batch run on a table whose header names [EmailAddress] and whose
    rows (at least one) have as many cells as the header, confirmed by [y]
    or an empty line after any number of rejected answers, with a server
    that accepts every command, both files at their start and a delay from
    0 to 9223372036 seconds (what [time.sleep] converts) that the operating
    system accepts as a pause. The records are the rows in file order, each
    a mapping of field names to strings that holds its address; the run
    returns, and the messages handed over and the pauses are, recipient
    after recipient in that order, the message built for the address with
    the body substituted by the whole record, then the pause, also after the
    last recipient. For the table of Alice and Bob and the body [Hi $Name$] this
    is two messages, [Hi Alice] then [Hi Bob], each followed by its
    pause. *)
Theorem batch_run_sends_in_order :
  (forall (fieldnames : list string) (data : Csv.table)
          (args : cli_arguments) (bad : list string) (line : string)
          (rest : list string) (w : world),
      In "EmailAddress" fieldnames ->
      data <> [] ->
      Forall (fun row => List.length row = List.length fieldnames) data ->
      stdin w = bad ++ line :: rest ->
      forallb invalid_answer bad = true ->
      PyStr.lower line = "y" \/ PyStr.lower line = EmptyString ->
      accepts_all w -> pauses w (sending_delay args) ->
      body_pos w = 0 -> attachment_pos w = 0 ->
      (0 <= sending_delay args <= 9223372036)%Z ->
      let records := map (Csv.row_dict fieldnames) data in
      Csv.DictReader (fieldnames :: data) = records
      /\ Forall (fun r => r = str_items (strings_of r)
                          /\ dict_get (Some "EmailAddress") r
                             = Some (address_of r)) records
      /\ exists w' evs,
           send_multiple_emails (fieldnames :: data) args w = (Return tt, w')
           /\ trace w' = trace w ++ evs
           /\ filter is_delivery evs
              = flat_map (recipient_delivery args) records)
  /\ (let run :=
        send_multiple_emails
          [["EmailAddress"; "Name"]; ["a@x.com"; "Alice"]; ["b@x.com"; "Bob"]]
          sample_args (world0 ["y"]) in
      fst run = Return tt
      /\ filter is_delivery (trace (snd run))
         = [Smtp (SendMessage
                    (built_message (VStr "a@x.com") sample_args "Hi Alice" 0)
                    (envelope_sender_address sample_args)) true;
            Sleep 0;
            Smtp (SendMessage
                    (built_message (VStr "b@x.com") sample_args "Hi Bob" 0)
                    (envelope_sender_address sample_args)) true;
            Sleep 0]
      /\ parts (built_message (VStr "a@x.com") sample_args "Hi Alice" 0)
         = [MIMEText "Hi Alice" "html"]
      /\ parts (built_message (VStr "b@x.com") sample_args "Hi Bob" 0)
         = [MIMEText "Hi Bob" "html"]).
Proof.
  split.
  - intros fieldnames data args bad line rest w Hhdr Hdata Hrows Hin Hbad
      Hline Hacc Hclk Hb Ha Hdelay records.
    assert (Hne : fieldnames <> []) by (intros ->; destruct Hhdr).
    assert (Hrecords : Csv.DictReader (fieldnames :: data) = records).
    { unfold Csv.DictReader. now rewrite (filter_nonblank fieldnames). }
    pose proof (records_full fieldnames data Hhdr Hrows) as Hfull.
    fold records in Hfull.
    split; [exact Hrecords|]. split.
    + eapply Forall_impl; [|exact Hfull]. intros r [Hstr Hmem]. split.
      * now apply all_str_items.
      * unfold address_of. unfold dict_mem in Hmem.
        now destruct (dict_get (Some "EmailAddress") r).
    + destruct records as [|first others] eqn:Erec.
      { destruct data; [contradiction | discriminate]. }
      assert (Hvalid : invalid_answer line = false).
      { unfold invalid_answer. cbv zeta.
        destruct Hline as [->| ->]; reflexivity. }
      assert (Hyes : String.eqb (PyStr.lower line) "y"
                     || String.eqb (PyStr.lower line) EmptyString = true).
      { destruct Hline as [->| ->]; reflexivity. }
      rewrite (send_multiple_emails_review args _ first others bad line rest w
                 Hrecords) by (try assumption; now inversion Hfull).
      rewrite Hyes.
      rewrite (send_all_ok args (first :: others) Hfull Hdelay)
        by assumption.
      eexists. eexists. split; [reflexivity|]. split.
      * cbn [trace log_events set_stdin]. rewrite <- app_assoc. reflexivity.
      * rewrite filter_app, filter_batch_events.
        rewrite (is_review_no_delivery _ (review_phase_review _ _ _)).
        reflexivity.
  - vm_compute. repeat split.
Qed.

Lemma batch_run_sends_in_order_witness :
  exists w' evs,
    send_multiple_emails
      [["EmailAddress"; "Name"]; ["a@x.com"; "Alice"]; ["b@x.com"; "Bob"]]
      sample_args (world0 ["maybe"; "Y"]) = (Return tt, w')
    /\ trace w' = evs
    /\ filter is_delivery evs
       = flat_map (recipient_delivery sample_args)
           (map (Csv.row_dict ["EmailAddress"; "Name"])
                [["a@x.com"; "Alice"]; ["b@x.com"; "Bob"]]).
Proof.
  destruct (proj1 batch_run_sends_in_order
              ["EmailAddress"; "Name"]
              [["a@x.com"; "Alice"]; ["b@x.com"; "Bob"]]
              sample_args ["maybe"] "Y" [] (world0 ["maybe"; "Y"]))
    as (_ & _ & w' & evs & Hrun & Htr & Hdel).
  - now left.
  - discriminate.
  - repeat constructor.
  - reflexivity.
  - reflexivity.
  - now left.
  - intros t c. reflexivity.
  - intros t. reflexivity.
  - reflexivity.
  - reflexivity.
  - cbn. lia.
  - exists w', evs. repeat split; assumption.
Defined.

(** C6: a table with a header and no data row is rejected with the error
    about its length, and a table whose header does not name
    [EmailAddress] is rejected with that error or, when it has records, with
    the error about the missing field - whatever other columns it has. In
    both cases the call logs the error and exits at once: nothing was asked
    of the operator, nothing was read and nothing went to the server. *)
Theorem invalid_table_rejected
    (fieldnames : list string) (data : Csv.table)
    (args : cli_arguments) (w : world) :
  data = [] \/ ~ In "EmailAddress" fieldnames ->
  exists e,
    send_multiple_emails (fieldnames :: data) args w = (Exit, emit e w)
    /\ (e = too_short_error \/ e = missing_field_error)
    /\ (data = [] -> e = too_short_error)
    /\ (Csv.DictReader (fieldnames :: data) <> [] -> e = missing_field_error).
Proof.
  intros Hcase. unfold send_multiple_emails. cbv zeta.
  destruct (Csv.DictReader (fieldnames :: data)) as [|first others] eqn:E.
  - exists too_short_error. split; [reflexivity|]. split; [now left|].
    split; [reflexivity | congruence].
  - destruct Hcase as [->|Hno]; [discriminate E|].
    assert (Hmem : dict_mem (Some "EmailAddress") first = false).
    { unfold Csv.DictReader in E.
      destruct (filter _ data) as [|row rows']; [discriminate|].
      injection E as <- _.
      destruct (dict_mem _ _) eqn:Hm; [|reflexivity].
      apply row_dict_keys in Hm. contradiction. }
    rewrite Hmem. exists missing_field_error. split; [reflexivity|].
    split; [now right|]. split; [|reflexivity].
    intros ->. discriminate E.
Qed.

Lemma invalid_table_rejected_witness :
  send_multiple_emails [["Email"; "email_address"]; ["a@x.com"; "a@x.com"]]
    sample_args (world0 ["y"])
  = (Exit, emit missing_field_error (world0 ["y"]))
  /\ send_multiple_emails [["EmailAddress"; "Name"]] sample_args (world0 ["y"])
     = (Exit, emit too_short_error (world0 ["y"])).
Proof.
  split.
  - destruct (invalid_table_rejected ["Email"; "email_address"]
                [["a@x.com"; "a@x.com"]] sample_args (world0 ["y"]))
      as (e & Hrun & _ & _ & He).
    + right. intros [H|[H|[]]]; discriminate H.
    + rewrite Hrun, He; [reflexivity | discriminate].
  - destruct (invalid_table_rejected ["EmailAddress"; "Name"] []
                sample_args (world0 ["y"])) as (e & Hrun & _ & He & _).
    + now left.
    + rewrite Hrun, He; reflexivity.
Defined.

(** C7: on a table that passes both checks, when the operator answers [n]
    (after any number of rejected answers) the call warns and exits. All it
    did is the review: the lines shown, the answers read and the warning;
    no replacement was made, neither file was read, nothing went to the
    server and there was no pause. *)
Theorem decline_sends_nothing
    (rows : Csv.table) (first : dict) (others : list dict)
    (args : cli_arguments) (bad : list string) (line : string)
    (rest : list string) (w : world) :
  Csv.DictReader rows = first :: others ->
  dict_mem (Some "EmailAddress") first = true ->
  stdin w = bad ++ line :: rest ->
  forallb invalid_answer bad = true ->
  PyStr.lower line = "n" ->
  exists evs,
    send_multiple_emails rows args w
    = (Exit, set_stdin rest (log_events (evs ++ [user_termination]) w))
    /\ Forall is_review (evs ++ [user_termination])
    /\ filter is_delivery (evs ++ [user_termination]) = [].
Proof.
  intros Hrows Hmem Hin Hbad Hline.
  exists (review_phase (first :: others) bad line).
  assert (Hrev : Forall is_review
                   (review_phase (first :: others) bad line
                    ++ [user_termination])).
  { apply Forall_app. split; [apply review_phase_review|].
    repeat constructor. }
  split; [|split; [exact Hrev | now apply is_review_no_delivery]].
  rewrite (send_multiple_emails_review args rows first others bad line rest w)
    by (try assumption; unfold invalid_answer; now rewrite Hline).
  now rewrite Hline.
Qed.

Lemma decline_sends_nothing_witness :
  exists evs,
    send_multiple_emails
      [["EmailAddress"; "Name"]; ["a@x.com"; "Alice"]; ["b@x.com"; "Bob"]]
      sample_args (world0 ["N"; "y"])
    = (Exit, set_stdin ["y"]
               (log_events (evs ++ [user_termination]) (world0 ["N"; "y"])))
    /\ filter is_delivery (evs ++ [user_termination]) = [].
Proof.
  destruct (decline_sends_nothing
              [["EmailAddress"; "Name"]; ["a@x.com"; "Alice"];
               ["b@x.com"; "Bob"]]
              (Csv.row_dict ["EmailAddress"; "Name"] ["a@x.com"; "Alice"])
              [Csv.row_dict ["EmailAddress"; "Name"] ["b@x.com"; "Bob"]]
              sample_args [] "N" ["y"] (world0 ["N"; "y"]))
    as (evs & Hrun & _ & Hnone).
  - reflexivity.
  - reflexivity.
  - reflexivity.
  - reflexivity.
  - reflexivity.
  - exists evs. split; assumption.
Defined.

(** C8: when exactly one of the user name and the password is given,
    [main] logs the error and exits; that line is all it did, so nothing
    went to the server. *)
Theorem credentials_mismatch_exits (cli_args : cli_arguments) (w : world) :
  (smtp_username cli_args <> None /\ smtp_password cli_args = None)
  \/ (smtp_username cli_args = None /\ smtp_password cli_args <> None) ->
  main cli_args w
  = (Exit,
     emit (Log ERROR
             "Both a username and password is required for SMTP authentication"
             []) w).
Proof.
  unfold main.
  destruct (smtp_username cli_args) as [u|], (smtp_password cli_args) as [p|];
    intros [[H1 H2]|[H1 H2]]; try congruence; reflexivity.
Qed.

Lemma credentials_mismatch_exits_witness :
  main sample_args_username_only (world0 [])
  = (Exit,
     emit (Log ERROR
             "Both a username and password is required for SMTP authentication"
             []) (world0 [])).
Proof.
  apply (credentials_mismatch_exits sample_args_username_only (world0 [])).
  left. split; [discriminate | reflexivity].
Defined.

(* ===================================================================== *)
(** ** Failure paths of send_email and the shape of a session *)
(* ===================================================================== *)

Section Sessions.

Variables (recipient : value) (args : cli_arguments).

(** The loop raises [TypeError] exactly when some value is not a string;
    otherwise it returns. Either way it only wrote debug lines. *)
Lemma replace_placeholders_outcome (d : dict) :
  forall body w, exists r logs,
    replace_placeholders d body w = (r, log_events logs w)
    /\ Forall is_log logs
    /\ (if has_non_str d then r = Raise TypeError
        else exists b, r = Return b).
Proof.
  induction d as [|[k v] d IH]; intros body w.
  - exists (Return body), []. split; [|split; [constructor | now exists body]].
    simpl. now rewrite log_events_nil.
  - cbn [replace_placeholders has_non_str existsb snd].
    unfold bind, logging. rewrite log_events_emit.
    destruct v as [new| | |];
      try (eexists; eexists; split; [reflexivity|];
           split; [repeat constructor | reflexivity]).
    match goal with |- context [replace_placeholders d ?b ?w1] =>
      destruct (IH b w1) as (r & logs & E & Hlogs & Hr) end.
    rewrite E, log_events_app. eexists; eexists. split; [reflexivity|].
    split; [constructor; [exact I | exact Hlogs]|]. exact Hr.
Qed.

(** Every run of the SMTP session of [send_email]. *)
Lemma deliver_shape (msg : message) (w : world) :
  exists r evs,
    deliver recipient args msg w = (r, log_events evs w)
    /\ closed_session (smtp_server args) (smtp_port args) r evs
    /\ evs <> []
    /\ match smtp_username args with
       | Some user => guarded user (smtp_password args) false false evs
       | None => filter is_auth evs = []
                 /\ (accepts_all w ->
                     filter is_smtp evs
                     = [Smtp (Connect (smtp_server args) (smtp_port args)) true;
                        Smtp (SendMessage msg (envelope_sender_address args))
                          true;
                        SmtpClose])
       end
    /\ (refuses_all w ->
        r = Raise SMTPException
        /\ evs = [Smtp (Connect (smtp_server args) (smtp_port args)) false]).
Proof.
  unfold deliver, with_SMTP, finally, bind, smtp, logging, ret, accepts_all,
    refuses_all.
  destruct (smtp_username args) as [user|];
    destruct (envelope_sender_address args) as [a|];
    repeat (rewrite ?server_emit, ?trace_emit;
            match goal with
            | |- context [server w ?t ?c] =>
                let E := fresh "E" in destruct (server w t c) eqn:E
            end);
    rewrite ?log_events_emit, ?log_events_app;
    (eexists; eexists; split; [reflexivity|]);
    cbn [app closed_session last guarded filter is_auth is_smtp orb];
    repeat split; auto; try discriminate;
    try (intros; reflexivity);
    try (intros Hacc; exfalso;
         match goal with
         | E : server w _ _ = _ |- _ => rewrite Hacc in E; discriminate E
         end);
    try (exfalso;
         match goal with
         | Hall : forall t c, server w t c = _, E : server w _ _ = _ |- _ =>
             rewrite Hall in E; discriminate E
         end).
Qed.

(** [guarded] and [closed_session] look through log lines. *)
Lemma guarded_logs (user : string) (password : option string)
    (tls authed : bool) (logs evs : list event) :
  Forall is_log logs ->
  guarded user password tls authed evs ->
  guarded user password tls authed (logs ++ evs).
Proof.
  induction 1 as [|e logs He _ IH]; intros H; [exact H|].
  destruct e as [l f a|p l|c ok| |z]; simpl in He; try contradiction.
  cbn [app guarded]. now apply IH.
Qed.

Lemma filter_logs (f : event -> bool) (logs : list event) :
  (forall l fmt a, f (Log l fmt a) = false) ->
  Forall is_log logs -> filter f logs = [].
Proof.
  intros Hf. induction 1 as [|e logs He _ IH]; [reflexivity|].
  destruct e as [l fmt a|p l|c ok| |z]; simpl in He; try contradiction.
  cbn [filter]. now rewrite Hf.
Qed.

(** One call of [send_email], whatever the replacement values and the
    server: debug lines, then either [TypeError] and nothing else, or one
    SMTP session. The body file is rewound; so is the attachment file when
    it was at its start. *)
Lemma send_email_split (replacement_values : option dict) (w : world) :
  exists logs session,
    trace (snd (send_email recipient args replacement_values w))
    = trace w ++ logs ++ session
    /\ Forall is_log logs
    /\ (attachment_pos w = 0 ->
        attachment_pos (snd (send_email recipient args replacement_values w))
        = 0)
    /\ ((session = []
         /\ fst (send_email recipient args replacement_values w)
            = Raise TypeError
         /\ exists d, replacement_values = Some d /\ has_non_str d = true)
        \/ (match replacement_values with
            | Some d => has_non_str d = false
            | None => True
            end
            /\ exists msg w3,
                 server w3 = server w
                 /\ deliver recipient args msg w3
                    = (fst (send_email recipient args replacement_values w),
                       log_events session w3))).
Proof.
  unfold send_email, bind, read_body, seek_body.
  set (body0 := PyStr.drop (body_pos w) (email_body args)).
  match goal with |- context [set_body_pos 0 ?x] =>
    set (w1 := set_body_pos 0 x) end.
  assert (Hlogs : exists r logs,
             match replacement_values with
             | Some d => replace_placeholders d body0
             | None => ret body0
             end w1 = (r, log_events logs w1) /\ Forall is_log logs
             /\ ((r = Raise TypeError
                  /\ exists d, replacement_values = Some d
                               /\ has_non_str d = true)
                 \/ ((exists b, r = Return b)
                     /\ match replacement_values with
                        | Some d => has_non_str d = false
                        | None => True
                        end))).
  { destruct replacement_values as [d|].
    - destruct (replace_placeholders_outcome d body0 w1)
        as (r & logs & E & Hl & Hr).
      exists r, logs. split; [exact E|]. split; [exact Hl|].
      destruct (has_non_str d) eqn:Hn.
      * left. split; [exact Hr|]. exists d. now split.
      * right. split; [exact Hr | reflexivity].
    - exists (Return body0), []. split; [|split; [constructor|]].
      + unfold ret. now rewrite log_events_nil.
      + right. split; [now exists body0 | exact I]. }
  destruct Hlogs as (r & logs & E & Hlogs & [[-> Hd]|[[body ->] Hd]]);
    rewrite E.
  - exists logs, []. rewrite app_nil_r.
    split; [reflexivity|]. split; [exact Hlogs|]. split; [auto|].
    left. split; [reflexivity|]. split; [reflexivity | exact Hd].
  - destruct (email_attachment args) as [[name content]|] eqn:Eatt;
      unfold read_attachment, seek_attachment, bind, ret;
      match goal with |- context [deliver recipient args ?m ?w3] =>
        destruct (deliver_shape m w3) as (r & evs & E' & _);
        rewrite E'; exists logs, evs;
        (split; [simpl; now rewrite app_assoc|]);
        (split; [exact Hlogs|]); (split; [auto|]);
        right; (split; [exact Hd|]); exists m, w3; split;
          [reflexivity | exact E']
      end.
Qed.

End Sessions.

Section SessionFacts.

Variables (recipient : value) (args : cli_arguments).

Lemma log_events_inj (a b : list event) (w : world) :
  log_events a w = log_events b w -> a = b.
Proof.
  unfold log_events. intros H. injection H as H. now apply app_inv_head in H.
Qed.

(** What [deliver_shape] says of a session, for the session of a call of
    [send_email]. *)
Lemma send_email_session (replacement_values : option dict) (w : world) :
  exists logs session,
    trace (snd (send_email recipient args replacement_values w))
    = trace w ++ logs ++ session
    /\ Forall is_log logs
    /\ closed_session (smtp_server args) (smtp_port args)
         (fst (send_email recipient args replacement_values w)) session
    /\ match smtp_username args with
       | Some user => guarded user (smtp_password args) false false session
       | None => filter is_auth session = []
       end
    /\ (session = [] ->
        exists d, replacement_values = Some d /\ has_non_str d = true)
    /\ (match replacement_values with
        | Some d => has_non_str d = false
        | None => True
        end ->
        refuses_all w ->
        fst (send_email recipient args replacement_values w)
        = Raise SMTPException
        /\ session
           = [Smtp (Connect (smtp_server args) (smtp_port args)) false]).
Proof.
  destruct (send_email_split recipient args replacement_values w)
    as (logs & session & Htr & Hlogs & _ & Hcase).
  exists logs, session. split; [exact Htr|]. split; [exact Hlogs|].
  destruct Hcase as [(-> & Hr & d & -> & Hd)|(Hd & msg & w3 & Hsrv & Hrun)].
  - rewrite Hr. cbn [closed_session]. split; [reflexivity|]. split.
    + destruct (smtp_username args); reflexivity.
    + split; [intros _; now exists d|].
      intros Hno. rewrite Hd in Hno. discriminate Hno.
  - destruct (deliver_shape recipient args msg w3)
      as (r & evs & E & Hclosed & Hne & Hauth & Hrefuse).
    rewrite Hrun in E.
    assert (Hr : fst (send_email recipient args replacement_values w) = r)
      by congruence.
    assert (Hw : log_events session w3 = log_events evs w3) by congruence.
    apply log_events_inj in Hw. rewrite Hr. subst evs.
    split; [exact Hclosed|]. split.
    + destruct (smtp_username args); [exact Hauth | exact (proj1 Hauth)].
    + split; [intros Hnil; contradiction|].
      intros _ Href. apply Hrefuse. unfold refuses_all. now rewrite Hsrv.
Qed.

(** A call of [send_email] returns or raises [TypeError] or
    [SMTPException]. *)
Lemma send_email_outcome (replacement_values : option dict) (w : world) :
  fst (send_email recipient args replacement_values w) = Return tt
  \/ fst (send_email recipient args replacement_values w) = Raise TypeError
  \/ fst (send_email recipient args replacement_values w)
     = Raise SMTPException.
Proof.
  destruct (send_email_session replacement_values w)
    as (logs & session & _ & _ & Hclosed & _).
  destruct session as [|[l f a|p l|[h p| | |u pw|m fa] [|]| |z] rest];
    cbn [closed_session] in Hclosed; try contradiction.
  - now right; left.
  - destruct Hclosed as (_ & _ & _ & [H|H]); [now left | now right; right].
  - destruct Hclosed as (_ & _ & _ & H). now right; right.
Qed.

End SessionFacts.

(** X1: whatever the outcome of a call of [send_email], the body file is
    back at its start, the attachment file is back at its start when it
    was there before, and standard input is untouched; so the next call, on
    a server that accepts every command, reads the whole body again and
    hands over the message with that body. *)
Theorem send_email_rewinds_files
    (recipient next : value) (args : cli_arguments)
    (replacement_values : option dict) (w : world) :
  let w' := snd (send_email recipient args replacement_values w) in
  body_pos w' = 0
  /\ stdin w' = stdin w
  /\ (attachment_pos w = 0 ->
      attachment_pos w' = 0
      /\ (accepts_all w ->
          send_email next args None w'
          = (Return tt,
             log_events
               (session_events next args
                  (built_message next args (email_body args) 0)) w'))).
Proof.
  intros w'.
  destruct (send_email_run recipient args replacement_values w)
    as (evs & _ & _ & Hin & Hsrv & Hb).
  destruct (send_email_split recipient args replacement_values w)
    as (_ & _ & _ & _ & Ha & _).
  split; [exact Hb|]. split; [exact Hin|]. intros Ha0.
  split; [now apply Ha|]. intros Hacc.
  apply send_email_single_ok; [|exact Hb | now apply Ha].
  unfold accepts_all. fold w' in Hsrv. now rewrite Hsrv.
Qed.

Lemma send_email_rewinds_files_witness :
  let w' := snd (send_email (VStr "a@x.com") sample_args_single
                   (Some [(Some "Name", VNone)]) (world_refusing [])) in
  body_pos w' = 0 /\ attachment_pos w' = 0.
Proof.
  intros w'.
  destruct (send_email_rewinds_files (VStr "a@x.com") (VStr "b@x.com")
              sample_args_single (Some [(Some "Name", VNone)])
              (world_refusing [])) as (Hb & _ & Ha).
  split; [exact Hb|]. exact (proj1 (Ha eq_refl)).
Defined.

(** X2: the events of a call of [send_email] are debug lines followed by at
    most one SMTP session, and the session is closed whenever it was
    opened: a refused connection is the only event of its session and the
    call raises; an accepted connection is followed, whatever the server
    answers later, by events that end with the closing of the connection;
    there is no session only when the call raised [TypeError]. *)
Theorem send_email_closes_connection
    (recipient : value) (args : cli_arguments)
    (replacement_values : option dict) (w : world) :
  exists logs session,
    trace (snd (send_email recipient args replacement_values w))
    = trace w ++ logs ++ session
    /\ Forall is_log logs
    /\ closed_session (smtp_server args) (smtp_port args)
         (fst (send_email recipient args replacement_values w)) session.
Proof.
  destruct (send_email_session recipient args replacement_values w)
    as (logs & session & Htr & Hlogs & Hclosed & _).
  now exists logs, session.
Qed.

(** X3: with a user name, [send_email] logs in with that name and the
    configured password only after the server accepted STARTTLS, and hands
    a message over only after the server accepted the login; without a user
    name it never sends EHLO, STARTTLS or a login. *)
Theorem send_email_authenticates_first
    (recipient : value) (args : cli_arguments)
    (replacement_values : option dict) (w : world) :
  exists evs,
    trace (snd (send_email recipient args replacement_values w))
    = trace w ++ evs
    /\ match smtp_username args with
       | Some user => guarded user (smtp_password args) false false evs
       | None => filter is_auth evs = []
       end.
Proof.
  destruct (send_email_session recipient args replacement_values w)
    as (logs & session & Htr & Hlogs & _ & Hauth & _).
  exists (logs ++ session). split; [exact Htr|].
  destruct (smtp_username args) as [user|].
  - now apply guarded_logs.
  - rewrite filter_app, Hauth, app_nil_r.
    apply filter_logs; [reflexivity | exact Hlogs].
Qed.

(* ===================================================================== *)
(** ** Rows that do not fit the header *)
(* ===================================================================== *)

Section Ragged.

Lemma has_non_str_cons (kv : key * value) (d : dict) :
  has_non_str (kv :: d)
  = match snd kv with
    | VStr _ => false
    | _ => true
    end || has_non_str d.
Proof. reflexivity. Qed.

Lemma has_non_str_set_none (k : key) (d : dict) :
  has_non_str (dict_set k VNone d) = true.
Proof.
  induction d as [|[k' v'] d IH]; [reflexivity|].
  cbn [dict_set]. destruct (key_eqb k k'); rewrite has_non_str_cons.
  - reflexivity.
  - rewrite IH. apply orb_true_r.
Qed.

Lemma has_non_str_set_list (k : key) (l : list string) (d : dict) :
  has_non_str (dict_set k (VList l) d) = true.
Proof.
  induction d as [|[k' v'] d IH]; [reflexivity|].
  cbn [dict_set]. destruct (key_eqb k k'); rewrite has_non_str_cons.
  - reflexivity.
  - rewrite IH. apply orb_true_r.
Qed.

Lemma has_non_str_fold_none (ks : list string) :
  forall d, ks <> [] ->
    has_non_str (fold_left (fun d k => dict_set (Some k) VNone d) ks d) = true.
Proof.
  induction ks as [|k ks IH]; intros d Hne; [contradiction|].
  cbn [fold_left]. destruct ks as [|k' ks'].
  - apply has_non_str_set_none.
  - apply IH. discriminate.
Qed.

(** A row shorter or longer than the header becomes a record with a value
    that is not a string. *)
Lemma row_dict_ragged (fieldnames row : list string) :
  List.length row <> List.length fieldnames ->
  has_non_str (Csv.row_dict fieldnames row) = true.
Proof.
  intros Hlen. unfold Csv.row_dict. cbv zeta.
  destruct (Nat.ltb_spec (List.length fieldnames) (List.length row)) as [H|H].
  - apply has_non_str_set_list.
  - destruct (Nat.ltb_spec (List.length row) (List.length fieldnames))
      as [H'|H']; [|lia].
    apply has_non_str_fold_none. intros Hnil.
    assert (Hl : List.length (skipn (List.length row) fieldnames) = 0)
      by now rewrite Hnil.
    rewrite length_skipn in Hl. lia.
Qed.

End Ragged.

(** X4: a data row with fewer or more cells than the header makes
    [send_email] raise [TypeError] for its record: [csv.DictReader] fills
    the record with [None] or a list, and [str.replace] refuses such a
    value. The call wrote debug lines only; nothing went to the server. *)
Theorem ragged_row_raises_type_error
    (fieldnames row : list string) (recipient : value)
    (args : cli_arguments) (w : world) :
  List.length row <> List.length fieldnames ->
  fst (send_email recipient args (Some (Csv.row_dict fieldnames row)) w)
  = Raise TypeError
  /\ exists logs,
       trace (snd (send_email recipient args
                     (Some (Csv.row_dict fieldnames row)) w))
       = trace w ++ logs
       /\ Forall is_log logs
       /\ filter is_smtp logs = [].
Proof.
  intros Hlen. pose proof (row_dict_ragged fieldnames row Hlen) as Hbad.
  destruct (send_email_split recipient args
              (Some (Csv.row_dict fieldnames row)) w)
    as (logs & session & Htr & Hlogs & _ & Hcase).
  destruct Hcase as [(-> & Hr & _)|(Hd & _)].
  - split; [exact Hr|]. exists logs. rewrite app_nil_r in Htr.
    split; [exact Htr|]. split; [exact Hlogs|].
    apply filter_logs; [reflexivity | exact Hlogs].
  - rewrite Hbad in Hd. discriminate Hd.
Qed.

Lemma ragged_row_raises_type_error_witness :
  fst (send_email (VStr "b@x.com") sample_args
         (Some (Csv.row_dict ["EmailAddress"; "Name"] ["b@x.com"]))
         (world0 []))
  = Raise TypeError.
Proof.
  apply (ragged_row_raises_type_error ["EmailAddress"; "Name"] ["b@x.com"]
           (VStr "b@x.com") sample_args (world0 [])).
  cbn. discriminate.
Defined.

(* ===================================================================== *)
(** ** More on confirm_action and main *)
(* ===================================================================== *)

Section ConfirmMore.

Variable question : string.

(** When every line is rejected the loop warns for each and fails at the
    end of the input. *)
Lemma confirm_loop_eof (default prompt : string) :
  default = "y" \/ default = "n" ->
  forall bad w,
    stdin w = bad ->
    forallb invalid_answer bad = true ->
    fst (confirm_loop question default prompt bad w) = Raise EOFError
    /\ stdin (snd (confirm_loop question default prompt bad w)) = []
    /\ trace (snd (confirm_loop question default prompt bad w))
       = trace w ++ rejected_events question prompt bad.
Proof.
  intros Hd. induction bad as [|b bad IH]; intros w Hin Hbad.
  - cbn [confirm_loop fst snd]. split; [reflexivity|]. split; [exact Hin|].
    unfold rejected_events. cbn [flat_map app trace emit].
    now rewrite <- app_assoc.
  - cbn [forallb] in Hbad. apply andb_true_iff in Hbad as [Hb Hbad].
    unfold invalid_answer in Hb. cbv zeta in Hb.
    apply andb_true_iff in Hb as [Hb Hn]. apply andb_true_iff in Hb as [H0 Hy].
    apply negb_true_iff in H0, Hy, Hn.
    cbn [confirm_loop]. rewrite H0, Hy, Hn.
    assert (Hdef : String.eqb (PyStr.lower b) default = false)
      by (destruct Hd as [->| ->]; assumption).
    rewrite Hdef. cbn [orb andb].
    match goal with |- context [confirm_loop _ _ _ bad ?w1] =>
      destruct (IH w1 eq_refl Hbad) as (Hr & Hs & Ht) end.
    split; [exact Hr|]. split; [exact Hs|]. rewrite Ht.
    unfold rejected_events. cbn [flat_map trace emit set_stdin].
    repeat (rewrite <- app_assoc || rewrite <- app_comm_cons). reflexivity.
Qed.

(** The loop returns a decision or fails at the end of the input. *)
Lemma confirm_loop_outcome (default prompt : string) (lines : list string) :
  forall w,
    (exists b, fst (confirm_loop question default prompt lines w) = Return b)
    \/ fst (confirm_loop question default prompt lines w) = Raise EOFError.
Proof.
  induction lines as [|line rest IH]; intros w; cbn [confirm_loop].
  - now right.
  - destruct (_ || _); [left; now exists true|].
    destruct (_ && _); [left; now exists false|]. apply IH.
Qed.

End ConfirmMore.

(** X7: with the default [y] or [n], when standard input holds only
    answers that are rejected (or nothing at all), [confirm_action] warns
    once for each answer, consumes them all and raises [EOFError] at the end
    of the input, without a decision. *)
Theorem confirm_action_end_of_input
    (question default : string) (w : world) :
  default = "y" \/ default = "n" ->
  forallb invalid_answer (stdin w) = true ->
  exists prompt,
    confirm_prompt default = Some prompt
    /\ fst (confirm_action question default w) = Raise EOFError
    /\ stdin (snd (confirm_action question default w)) = []
    /\ trace (snd (confirm_action question default w))
       = trace w ++ rejected_events question prompt (stdin w).
Proof.
  intros Hd Hbad. destruct (confirm_prompt_cases default Hd) as [prompt Hp].
  exists prompt. split; [exact Hp|]. unfold confirm_action. rewrite Hp.
  now apply confirm_loop_eof.
Qed.

Lemma confirm_action_end_of_input_witness :
  fst (confirm_action "ok?" "y" (world0 ["maybe"; "yes"])) = Raise EOFError
  /\ stdin (snd (confirm_action "ok?" "y" (world0 ["maybe"; "yes"]))) = [].
Proof.
  destruct (confirm_action_end_of_input "ok?" "y" (world0 ["maybe"; "yes"]))
    as (prompt & _ & Hr & Hs & _).
  - now left.
  - reflexivity.
  - split; assumption.
Defined.

(** X8: for a single recipient, with both credentials or none, a server
    that accepts every command and both files at their start, [main] logs
    one line and runs one session that hands over the message addressed to
    that recipient with the body file as it is, placeholders included;
    nothing is asked of the operator and no line of standard input is
    read. *)
Theorem main_single_recipient
    (cli_args : cli_arguments) (r : string) (w : world) :
  recipient cli_args = Some r ->
  is_none (smtp_username cli_args) = is_none (smtp_password cli_args) ->
  accepts_all w -> body_pos w = 0 -> attachment_pos w = 0 ->
  main cli_args w
  = (Return tt,
     log_events
       (Log INFO "Processing a single email to %s" [VStr r]
        :: session_events (VStr r) cli_args
             (built_message (VStr r) cli_args (email_body cli_args) 0)) w).
Proof.
  intros Hr Hcred Hacc Hb Ha. unfold main. rewrite Hr, Hcred.
  assert (Hcheck :
    (negb (is_none (smtp_password cli_args))
     || negb (is_none (smtp_password cli_args)))
    && (is_none (smtp_password cli_args) || is_none (smtp_password cli_args))
    = false) by now destruct (is_none (smtp_password cli_args)).
  rewrite Hcheck. unfold bind at 1, ret at 1. unfold bind, logging.
  rewrite (send_email_single_ok (VStr r) cli_args) by assumption.
  now rewrite log_events_emit, log_events_app.
Qed.

Lemma main_single_recipient_witness :
  exists evs,
    main sample_args_single (world0 ["n"])
    = (Return tt, log_events evs (world0 ["n"]))
    /\ filter is_delivery evs
       = [Smtp (SendMessage
                  (built_message (VStr "a@x.com") sample_args_single
                     "Hi $Name$" 0) None) true].
Proof.
  eexists. split.
  - apply (main_single_recipient sample_args_single "a@x.com" (world0 ["n"]));
      try reflexivity.
    intros t c. reflexivity.
  - reflexivity.
Defined.

Section Unchanged.
Import PyStr PyStrFacts.

(** A replacement of a string that does not occur changes nothing. *)
Lemma replace_from_absent (old new : string) (s : string) :
  contains old s = false -> replace_from old new 0 s = s.
Proof.
  induction s as [|c s IH]; intros H; [reflexivity|].
  rewrite replace_from_unfold, (contains_head _ _ _ H).
  f_equal. apply IH. eapply contains_tail; eauto.
Qed.

Lemma substitute_absent (M : list (string * string)) (body : string) :
  forallb (fun kv => negb (contains (token (fst kv)) body)) M = true ->
  substitute M body = body.
Proof.
  induction M as [|[k v] M IH]; intros H; [reflexivity|].
  cbn [forallb fst] in H. apply andb_true_iff in H as [Hk H].
  apply negb_true_iff in Hk. cbn [substitute].
  change (replace (token k) v body) with (replace_from (token k) v 0 body).
  rewrite replace_from_absent by exact Hk. now apply IH.
Qed.

Lemma basename_no_slash (p : string) : mem "/"%char (basename p) = false.
Proof.
  induction p as [|c p IH]; [reflexivity|]. cbn [basename].
  destruct (mem "/"%char p) eqn:Hm; [exact IH|].
  destruct (Ascii.eqb c "/"%char) eqn:Hc; [exact Hm|].
  cbn [mem]. rewrite Ascii.eqb_sym, Hc. exact Hm.
Qed.

Lemma basename_app (dir file : string) :
  mem "/"%char file = false -> basename (dir ++ "/" ++ file) = file.
Proof.
  intros Hf.
  change (dir ++ "/" ++ file)%string with (dir ++ String "/"%char file)%string.
  induction dir as [|c dir IH].
  - cbn [append basename]. now rewrite Hf.
  - assert (Hm : mem "/"%char (dir ++ String "/"%char file) = true).
    { rewrite mem_app. cbn [mem]. rewrite Ascii.eqb_refl. apply orb_true_r. }
    cbn [append basename]. rewrite Hm. exact IH.
Qed.

End Unchanged.

(** X10: when the body holds the placeholder of no key of the mapping, the
    loop of [send_email] returns the body unchanged (and still writes one
    debug line per key). *)
Theorem body_without_placeholders_unchanged
    (M : list (string * string)) (body : string) (w : world) :
  forallb (fun kv => negb (PyStr.contains (token (fst kv)) body)) M = true ->
  replace_placeholders (str_items M) body w
  = (Return body, log_events (replacing_logs M) w).
Proof.
  intros H. rewrite replace_placeholders_str.
  now rewrite substitute_absent.
Qed.

Lemma body_without_placeholders_unchanged_witness :
  fst (replace_placeholders
         (str_items [("EmailAddress", "a@x.com"); ("Name", "Alice")])
         "Costs $5, or $Nam$ your price" (world0 []))
  = Return "Costs $5, or $Nam$ your price".
Proof.
  rewrite (body_without_placeholders_unchanged
             [("EmailAddress", "a@x.com"); ("Name", "Alice")]
             "Costs $5, or $Nam$ your price" (world0 [])); reflexivity.
Defined.

(** X11: a message [send_email] hands to the server has a [CC] header
    exactly when a carbon-copy display name is configured, and then the
    header is that name in double quotes followed by an empty address in
    angle brackets. *)
Theorem cc_header_only_when_configured
    (recipient : value) (args : cli_arguments)
    (replacement_values : option dict) (w : world) :
  exists evs,
    trace (snd (send_email recipient args replacement_values w))
    = trace w ++ evs
    /\ forall m fa ok, In (Smtp (SendMessage m fa) ok) evs ->
         get_header "CC" (headers m)
         = match cc_display_name args with
           | Some cc => Some (VStr (dquote ++ cc ++ dquote ++ " <>"))
           | None => None
           end.
Proof.
  destruct (send_email_run recipient args replacement_values w)
    as (evs & Htr & Hall & _).
  exists evs. split; [exact Htr|]. intros m fa ok Hin.
  destruct (hands_over_inv _ _ _ _ _ _ _ Hall Hin) as (_ & Hh & _).
  rewrite Hh. unfold expected_headers.
  destruct (cc_display_name args); reflexivity.
Qed.

Lemma cc_header_only_when_configured_witness :
  exists m,
    In (Smtp (SendMessage m (Some "bounce@other.example")) true)
       (trace (snd (send_email (VStr "a@x.com") sample_args None (world0 []))))
    /\ get_header "CC" (headers m)
       = Some (VStr (dquote ++ "The Boss" ++ dquote ++ " <>")).
Proof.
  destruct (cc_header_only_when_configured (VStr "a@x.com") sample_args None
              (world0 [])) as (evs & Htr & Hcc).
  eexists. split.
  - cbn. right. right. now left.
  - apply (Hcc _ (Some "bounce@other.example") true).
    change (trace (world0 []) ++ evs) with evs in Htr. rewrite <- Htr.
    cbn. right. right. now left.
Defined.

(** X12: the attachment part names the file by its base name: the name in
    [Content-Disposition] holds no slash, and for a path that ends with a
    slash-free file name after a directory it is that file name. The part is
    [application/octet-stream] with the bytes read, in base64. *)
Theorem attachment_named_by_basename (name : string) (data : list Byte.byte) :
  exists n,
    attachment_part name data
    = MIMEBase "application" "octet-stream" (Base64 data)
        [("Content-Transfer-Encoding", "base64");
         ("Content-Disposition", ("attachment; filename= " ++ n)%string)]
    /\ PyStr.mem "/"%char n = false
    /\ forall dir file,
         name = (dir ++ "/" ++ file)%string ->
         PyStr.mem "/"%char file = false -> n = file.
Proof.
  exists (PyStr.basename name). split; [reflexivity|].
  split; [apply basename_no_slash|].
  intros dir file -> Hf. now apply basename_app.
Qed.

Lemma attachment_named_by_basename_witness :
  attachment_part "/tmp/files/offer.pdf" [Byte.x25]
  = MIMEBase "application" "octet-stream" (Base64 [Byte.x25])
      [("Content-Transfer-Encoding", "base64");
       ("Content-Disposition", "attachment; filename= offer.pdf")].
Proof.
  destruct (attachment_named_by_basename "/tmp/files/offer.pdf" [Byte.x25])
    as (n & Hpart & _ & Hname).
  rewrite Hpart, (Hname "/tmp/files" "offer.pdf" eq_refl eq_refl).
  reflexivity.
Defined.

(** X15: an empty file, and a file whose header is followed by blank lines
    only, give no record: [send_multiple_emails] logs the error about the
    length and exits. *)
Theorem blank_table_rejected
    (rows : Csv.table) (args : cli_arguments) (w : world) :
  forallb Csv.is_blank (tl rows) = true ->
  send_multiple_emails rows args w = (Exit, emit too_short_error w).
Proof.
  intros Hblank. unfold send_multiple_emails. cbv zeta.
  assert (Hnone : Csv.DictReader rows = []).
  { destruct rows as [|fieldnames data]; [reflexivity|].
    cbn [tl] in Hblank. unfold Csv.DictReader.
    induction data as [|row data IH]; [reflexivity|].
    cbn [forallb] in Hblank. apply andb_true_iff in Hblank as [Hrow Hrest].
    cbn [filter]. rewrite Hrow. cbn [negb]. now apply IH. }
  rewrite Hnone. reflexivity.
Qed.

Lemma blank_table_rejected_witness :
  send_multiple_emails [["EmailAddress"; "Name"]; []; []] sample_args
    (world0 ["y"])
  = (Exit, emit too_short_error (world0 ["y"])).
Proof.
  apply (blank_table_rejected [["EmailAddress"; "Name"]; []; []] sample_args
           (world0 ["y"])).
  reflexivity.
Defined.

(* ===================================================================== *)
(** ** Records and their cells *)
(* ===================================================================== *)

Section Records.

Lemma key_eqb_refl (k : key) : key_eqb k k = true.
Proof. now apply key_eqb_eq. Qed.

Lemma key_eqb_neq (a b : key) : a <> b -> key_eqb a b = false.
Proof.
  intros H. destruct (key_eqb a b) eqn:E; [|reflexivity].
  apply key_eqb_eq in E. contradiction.
Qed.

(** Lookup after an assignment. *)
Lemma dict_get_set (k k' : key) (v : value) (d : dict) :
  dict_get k (dict_set k' v d)
  = if key_eqb k k' then Some v else dict_get k d.
Proof.
  induction d as [|[k2 v2] d IH]; [reflexivity|].
  cbn [dict_set]. destruct (key_eqb k' k2) eqn:E2; cbn [dict_get].
  - apply key_eqb_eq in E2. subst k2. now destruct (key_eqb k k').
  - rewrite IH. destruct (key_eqb k k2) eqn:E; [|reflexivity].
    apply key_eqb_eq in E. subst k2.
    destruct (key_eqb k k') eqn:E'; [|reflexivity].
    apply key_eqb_eq in E'. subst k'. rewrite key_eqb_refl in E2.
    discriminate E2.
Qed.

Lemma dict_get_fold_other (k : key) (ps : list (key * value)) :
  forall d, ~ In k (map fst ps) ->
    dict_get k (fold_left (fun d kv => dict_set (fst kv) (snd kv) d) ps d)
    = dict_get k d.
Proof.
  induction ps as [|[k1 v1] ps IH]; intros d Hno; [reflexivity|].
  cbn [fold_left fst snd]. cbn [map fst In] in Hno.
  rewrite IH by tauto. rewrite dict_get_set, key_eqb_neq; [reflexivity|].
  intros ->. tauto.
Qed.

Lemma dict_get_fold_in (k : key) (v : value) (ps : list (key * value)) :
  forall d, NoDup (map fst ps) -> In (k, v) ps ->
    dict_get k (fold_left (fun d kv => dict_set (fst kv) (snd kv) d) ps d)
    = Some v.
Proof.
  induction ps as [|[k1 v1] ps IH]; intros d Hnd Hin; [destruct Hin|].
  cbn [map fst] in Hnd. inversion Hnd as [|? ? Hno Hnd']; subst.
  cbn [fold_left fst snd]. destruct Hin as [Heq|Hin].
  - injection Heq as -> ->.
    rewrite dict_get_fold_other by exact Hno.
    now rewrite dict_get_set, key_eqb_refl.
  - now apply IH.
Qed.

Lemma in_combine_nth (fieldnames row : list string) :
  forall i k,
    List.length row = List.length fieldnames ->
    nth_error fieldnames i = Some k ->
    In (Some k, VStr (nth i row EmptyString))
       (combine (map Some fieldnames) (map VStr row)).
Proof.
  revert row. induction fieldnames as [|f fs IH]; intros [|c row] i k Hlen Hn;
    try discriminate.
  - now destruct i.
  - destruct i as [|i]; cbn in Hn.
    + injection Hn as ->. now left.
    + right. apply (IH row i k); [cbn in Hlen; congruence | exact Hn].
Qed.

Lemma NoDup_map_Some (l : list string) : NoDup l -> NoDup (map Some l).
Proof.
  induction 1 as [|x l Hno _ IH]; [constructor|].
  cbn [map]. constructor; [|exact IH].
  intros H. apply in_map_iff in H as [y [E H]]. congruence.
Qed.

Lemma map_fst_combine_firstn {A B : Type} (a : list A) (b : list B) :
  map fst (combine a b) = firstn (List.length b) a.
Proof.
  revert b. induction a as [|x a IH]; intros [|y b]; cbn; try reflexivity.
  now rewrite IH.
Qed.

(** Every field name of the header is a key of every record, whatever the
    length of the row. *)
Lemma row_dict_has_keys (fieldnames row : list string) (k : string) :
  In k fieldnames ->
  dict_mem (Some k) (Csv.row_dict fieldnames row) = true.
Proof.
  intros Hk. apply dict_mem_in. unfold Csv.row_dict, dict_of_pairs. cbv zeta.
  assert (Hbase : In k (firstn (List.length row) fieldnames) ->
    In (Some k) (map fst (fold_left
       (fun d kv => dict_set (fst kv) (snd kv) d)
       (combine (map Some fieldnames) (map VStr row)) []))).
  { intros H. apply in_keys_fold_set. left.
    rewrite map_fst_combine_firstn, length_map, firstn_map.
    now apply in_map. }
  destruct (Nat.ltb_spec (List.length fieldnames) (List.length row)) as [H|H].
  - apply in_keys_dict_set. right. apply Hbase.
    rewrite firstn_all2 by lia. exact Hk.
  - rewrite <- (firstn_skipn (List.length row) fieldnames) in Hk.
    apply in_app_or in Hk as [Hk|Hk].
    + destruct (Nat.ltb _ _); [|now apply Hbase].
      apply in_keys_fold_none. right. now apply Hbase.
    + destruct (Nat.ltb_spec (List.length row) (List.length fieldnames))
        as [H'|H'].
      * apply in_keys_fold_none. left. now apply in_map.
      * rewrite skipn_all2 in Hk by lia. destruct Hk.
Qed.

Lemma all_str_no_non_str (d : dict) :
  all_str d = true -> has_non_str d = false.
Proof.
  induction d as [|[k v] d IH]; [reflexivity|].
  rewrite all_str_cons, has_non_str_cons. intros H.
  apply andb_true_iff in H as [H1 H2]. rewrite (IH H2).
  destruct k; [|discriminate]. now destruct v.
Qed.

End Records.

(** X9: in a table whose header has no repeated name, a row with as many
    cells as the header becomes a record that maps each field name to the
    cell in its column; the address a message is sent to is the cell in
    the [EmailAddress] column. *)
Theorem record_maps_column_to_cell
    (fieldnames row : list string) (i : nat) (k : string) :
  NoDup fieldnames ->
  List.length row = List.length fieldnames ->
  nth_error fieldnames i = Some k ->
  dict_get (Some k) (Csv.row_dict fieldnames row)
  = Some (VStr (nth i row EmptyString))
  /\ (k = "EmailAddress" ->
      address_of (Csv.row_dict fieldnames row)
      = VStr (nth i row EmptyString)).
Proof.
  intros Hnd Hlen Hn.
  assert (Hget : dict_get (Some k) (Csv.row_dict fieldnames row)
                 = Some (VStr (nth i row EmptyString))).
  { unfold Csv.row_dict, dict_of_pairs. cbv zeta.
    rewrite Hlen, Nat.ltb_irrefl.
    apply dict_get_fold_in; [|now apply in_combine_nth].
    rewrite map_fst_combine by now rewrite !length_map.
    now apply NoDup_map_Some. }
  split; [exact Hget|]. intros ->. unfold address_of. now rewrite Hget.
Qed.

Lemma record_maps_column_to_cell_witness :
  address_of (Csv.row_dict ["Name"; "EmailAddress"] ["Bob"; "b@x.com"])
  = VStr "b@x.com".
Proof.
  refine (proj2 (record_maps_column_to_cell ["Name"; "EmailAddress"]
                   ["Bob"; "b@x.com"] 1 "EmailAddress" _ eq_refl eq_refl)
                eq_refl).
  repeat constructor; cbn; intuition discriminate.
Defined.

(* ===================================================================== *)
(** ** How a batch run ends *)
(* ===================================================================== *)

Section BatchEnds.

Variable args : cli_arguments.

(** One turn of the sending loop. *)
Lemma send_all_cons (r : dict) (rs : list dict) (v : value) (w : world) :
  dict_get (Some "EmailAddress") r = Some v ->
  send_all (r :: rs) args w
  = match send_email v args (Some r)
            (emit (Log DEBUG "Processing an email to %s" [v]) w) with
    | (Return _, w1) =>
        match sleep (sending_delay args) w1 with
        | (Return _, w2) => send_all rs args w2
        | (Exit, w2) => (Exit, w2)
        | (Raise e, w2) => (Raise e, w2)
        end
    | (Exit, w1) => (Exit, w1)
    | (Raise e, w1) => (Raise e, w1)
    end.
Proof.
  intros Hv. cbn [send_all]. unfold bind, subscript, logging, ret.
  rewrite Hv. reflexivity.
Qed.

(** The sending loop ends by returning or with one of the exceptions of
    [send_email] and [time.sleep]. *)
Lemma send_all_exceptions (rs : list dict) :
  Forall (fun r => dict_mem (Some "EmailAddress") r = true) rs ->
  forall w,
    match fst (send_all rs args w) with
    | Return _ => True
    | Exit => False
    | Raise e => batch_exception e = true
    end.
Proof.
  induction 1 as [|r rs Hr _ IH]; intros w; [exact I|].
  unfold dict_mem in Hr.
  destruct (dict_get (Some "EmailAddress") r) as [v|] eqn:Ev;
    [|discriminate].
  rewrite (send_all_cons r rs v w Ev).
  match goal with |- context [send_email v args ?d ?w1] =>
    pose proof (send_email_outcome v args d w1) as Hout;
    destruct (send_email v args d w1) as [o w2] end.
  cbn [fst] in Hout. destruct Hout as [->|[->| ->]]; try reflexivity.
  unfold sleep. destruct (_ || _); [reflexivity|].
  destruct (sending_delay args <? 0)%Z; [reflexivity|].
  destruct (clock _ _ _); [apply IH | reflexivity].
Qed.

Lemma records_have_address (fieldnames : list string) (data : Csv.table) :
  In "EmailAddress" fieldnames ->
  Forall (fun r => dict_mem (Some "EmailAddress") r = true)
         (map (Csv.row_dict fieldnames) data).
Proof.
  intros Hin. apply Forall_forall. intros r Hr.
  apply in_map_iff in Hr as [row [<- _]]. now apply row_dict_has_keys.
Qed.

Lemma is_review_no_smtp (evs : list event) :
  Forall is_review evs -> filter is_smtp evs = [].
Proof.
  induction 1 as [|e evs He _ IH]; [reflexivity|].
  cbn [filter]. rewrite IH.
  destruct e as [[| | |] f a|p l|c ok| |z]; simpl in He; try contradiction;
    reflexivity.
Qed.

Lemma is_review_no_connection (evs : list event) :
  Forall is_review evs -> filter is_connection evs = [].
Proof.
  induction 1 as [|e evs He _ IH]; [reflexivity|].
  cbn [filter]. rewrite IH.
  destruct e as [[| | |] f a|p l|c ok| |z]; simpl in He; try contradiction;
    reflexivity.
Qed.

Lemma filter_connection_batch (rs : list dict) :
  filter is_connection (batch_events args rs)
  = flat_map (recipient_connection args) rs.
Proof.
  unfold batch_events. induction rs as [|r rs IH]; [reflexivity|].
  cbn [flat_map]. rewrite filter_app, IH. f_equal.
  unfold recipient_events, session_events, recipient_connection.
  cbn [filter is_connection]. rewrite !filter_app.
  rewrite (filter_logs is_connection (replacing_logs (strings_of r)));
    [|reflexivity|].
  - destruct (smtp_username args); reflexivity.
  - unfold replacing_logs. apply Forall_forall. intros e He.
    apply in_map_iff in He as [kv [<- _]]. exact I.
Qed.

Lemma yes_is_valid (line : string) :
  PyStr.lower line = "y" \/ PyStr.lower line = EmptyString ->
  invalid_answer line = false
  /\ String.eqb (PyStr.lower line) "y"
     || String.eqb (PyStr.lower line) EmptyString = true.
Proof.
  unfold invalid_answer. cbv zeta. intros [->| ->]; split; reflexivity.
Qed.

End BatchEnds.

(** X6: whatever the table, the arguments, the answers typed, the server
    and the clock, [send_multiple_emails] never raises [KeyError] or
    [UnboundLocalError]: every record has the key [EmailAddress] once the
    first one has, and the prompt of the question is always bound. *)
Theorem send_multiple_emails_never_key_error
    (rows : Csv.table) (args : cli_arguments) (w : world) :
  fst (send_multiple_emails rows args w) <> Raise KeyError
  /\ fst (send_multiple_emails rows args w) <> Raise UnboundLocalError.
Proof.
  assert (H : match fst (send_multiple_emails rows args w) with
              | Raise e => batch_exception e = true
              | _ => True
              end).
  { unfold send_multiple_emails. cbv zeta.
      destruct (Csv.DictReader rows) as [|first others] eqn:Erec; [exact I|].
      destruct (dict_mem (Some "EmailAddress") first) eqn:Hmem; [|exact I].
      cbn [negb]. unfold bind at 1, logging at 1. unfold bind at 1.
      rewrite log_recipients_run. unfold bind at 1, confirm_action.
      change (confirm_prompt "y") with (Some " [Y/n] "). cbv beta iota.
      match goal with |- context [confirm_loop ?q ?d ?p ?l ?w1] =>
        pose proof (confirm_loop_outcome q d p l w1) as Hout;
        destruct (confirm_loop q d p l w1) as [o w2] end.
      cbn [fst] in Hout. destruct Hout as [[[|] ->]| ->];
        [| exact I | reflexivity].
      cbn [negb]. unfold bind at 1, ret at 1.
      assert (Hall : Forall (fun r => dict_mem (Some "EmailAddress") r = true)
                            (first :: others)).
      { rewrite <- Erec. destruct rows as [|fieldnames data]; [discriminate|].
        unfold Csv.DictReader in *. apply records_have_address.
        destruct (filter _ data) as [|row rows']; [discriminate|].
        injection Erec as <- _. now apply row_dict_keys in Hmem. }
      pose proof (send_all_exceptions args (first :: others) Hall w2) as H.
      destruct (fst (send_all (first :: others) args w2));
        [exact I | exact I | exact H]. }
  destruct (fst (send_multiple_emails rows args w)) as [u| |e];
    [split; discriminate | split; discriminate|].
  split; intros [= ->]; discriminate H.
Qed.

(** X5: on a table as in C4, confirmed, with a server that accepts every
    command but a delay [time.sleep] does not pass on to the operating
    system - negative ([ValueError]) or beyond 9223372036 seconds either
    way ([OverflowError]) - the run hands over the message of the first
    recipient, then raises that exception: no pause is made and no later
    recipient is served. *)
Theorem unusable_delay_stops_after_first
    (fieldnames row : list string) (data : Csv.table)
    (args : cli_arguments) (bad : list string) (line : string)
    (rest : list string) (w : world) (e : exn) :
  In "EmailAddress" fieldnames ->
  Forall (fun r => List.length r = List.length fieldnames) (row :: data) ->
  stdin w = bad ++ line :: rest ->
  forallb invalid_answer bad = true ->
  PyStr.lower line = "y" \/ PyStr.lower line = EmptyString ->
  accepts_all w -> body_pos w = 0 -> attachment_pos w = 0 ->
  sleep_error (sending_delay args) = Some e ->
  let first := Csv.row_dict fieldnames row in
  (e = if (sending_delay args <? -9223372036)%Z
          || (9223372036 <? sending_delay args)%Z
       then OverflowError else ValueError)
  /\ exists w' evs,
       send_multiple_emails (fieldnames :: row :: data) args w
       = (Raise e, w')
       /\ trace w' = trace w ++ evs
       /\ filter is_delivery evs
          = [Smtp (SendMessage
                     (built_message (address_of first) args
                        (substitute (strings_of first) (email_body args)) 0)
                     (envelope_sender_address args)) true].
Proof.
  intros Hhdr Hrows Hin Hbad Hline Hacc Hb Ha Hdelay first.
  split.
  { unfold sleep_error in Hdelay.
    destruct (_ || _); [congruence|].
    destruct (sending_delay args <? 0)%Z; [congruence | discriminate]. }
  assert (Hne : fieldnames <> []) by (intros ->; destruct Hhdr).
  assert (Hrecords : Csv.DictReader (fieldnames :: row :: data)
                     = first :: map (Csv.row_dict fieldnames) data).
  { unfold Csv.DictReader. now rewrite (filter_nonblank fieldnames). }
  pose proof (records_full fieldnames (row :: data) Hhdr Hrows) as Hfull.
  cbn [map] in Hfull. fold first in Hfull.
  inversion Hfull as [|? ? [Hstr Hmem] _]; subst.
  destruct (yes_is_valid line Hline) as [Hvalid Hyes].
  rewrite (send_multiple_emails_review args _ first _ bad line rest w
             Hrecords Hmem Hin Hbad Hvalid).
  rewrite Hyes.
  assert (Hv : dict_get (Some "EmailAddress") first = Some (address_of first)).
  { unfold address_of. unfold dict_mem in Hmem.
    now destruct (dict_get (Some "EmailAddress") first). }
  rewrite (send_all_cons args first _ (address_of first) _ Hv).
  match goal with |- context [send_email ?v args (Some first) ?w1] =>
    pose proof (send_email_ok v args (strings_of first) w1 Hacc Hb Ha)
      as Hsend end.
  rewrite <- (all_str_items first Hstr) in Hsend. rewrite Hsend.
  rewrite (sleep_raises _ e _ Hdelay).
  eexists. eexists. split; [reflexivity|]. split.
  - cbn [trace log_events set_stdin emit].
    repeat (rewrite <- app_assoc || rewrite <- app_comm_cons). reflexivity.
  - rewrite filter_app.
    rewrite (is_review_no_delivery _ (review_phase_review _ _ _)).
    cbn [app filter is_delivery].
    rewrite filter_app, filter_replacing_logs, filter_session_events.
    reflexivity.
Qed.

Lemma unusable_delay_stops_after_first_witness :
  (exists w',
     send_multiple_emails
       [["EmailAddress"; "Name"]; ["a@x.com"; "Alice"]; ["b@x.com"; "Bob"]]
       sample_args_negative_delay (world0 ["y"]) = (Raise ValueError, w')
     /\ filter is_delivery (trace w')
        = [Smtp (SendMessage
                   (built_message (VStr "a@x.com") sample_args_negative_delay
                      "Hi Alice" 0)
                   (Some "bounce@other.example")) true])
  /\ (exists w',
        send_multiple_emails
          [["EmailAddress"; "Name"]; ["a@x.com"; "Alice"]; ["b@x.com"; "Bob"]]
          sample_args_huge_delay (world0 ["y"]) = (Raise OverflowError, w')).
Proof.
  split.
  - destruct (unusable_delay_stops_after_first
                ["EmailAddress"; "Name"] ["a@x.com"; "Alice"]
                [["b@x.com"; "Bob"]] sample_args_negative_delay [] "y" []
                (world0 ["y"]) ValueError)
      as (_ & w' & evs & Hrun & Htr & Hdel);
      try reflexivity; try (now left); try (repeat constructor).
    exists w'. split; [exact Hrun|]. rewrite Htr. exact Hdel.
  - destruct (unusable_delay_stops_after_first
                ["EmailAddress"; "Name"] ["a@x.com"; "Alice"]
                [["b@x.com"; "Bob"]] sample_args_huge_delay [] "y" []
                (world0 ["y"]) OverflowError)
      as (_ & w' & evs & Hrun & _);
      try reflexivity; try (now left); try (repeat constructor).
    exists w'. exact Hrun.
Defined.

(** X13: in a batch run as in C4 (a server that accepts every command, a
    delay from 0 to 9223372036 seconds that the operating system accepts as
    a pause) every recipient gets a connection of its own: the connections
    opened, messages handed over and connections closed are, recipient
    after recipient, one opening, the message of that recipient, one
    closing; no connection is shared or left open. *)
Theorem one_connection_per_recipient
    (fieldnames : list string) (data : Csv.table)
    (args : cli_arguments) (bad : list string) (line : string)
    (rest : list string) (w : world) :
  In "EmailAddress" fieldnames ->
  data <> [] ->
  Forall (fun row => List.length row = List.length fieldnames) data ->
  stdin w = bad ++ line :: rest ->
  forallb invalid_answer bad = true ->
  PyStr.lower line = "y" \/ PyStr.lower line = EmptyString ->
  accepts_all w -> pauses w (sending_delay args) ->
  body_pos w = 0 -> attachment_pos w = 0 ->
  (0 <= sending_delay args <= 9223372036)%Z ->
  exists w' evs,
    send_multiple_emails (fieldnames :: data) args w = (Return tt, w')
    /\ trace w' = trace w ++ evs
    /\ filter is_connection evs
       = flat_map (recipient_connection args)
           (map (Csv.row_dict fieldnames) data).
Proof.
  intros Hhdr Hdata Hrows Hin Hbad Hline Hacc Hclk Hb Ha Hdelay.
  assert (Hne : fieldnames <> []) by (intros ->; destruct Hhdr).
  assert (Hrecords : Csv.DictReader (fieldnames :: data)
                     = map (Csv.row_dict fieldnames) data).
  { unfold Csv.DictReader. now rewrite (filter_nonblank fieldnames). }
  pose proof (records_full fieldnames data Hhdr Hrows) as Hfull.
  destruct (map (Csv.row_dict fieldnames) data) as [|first others] eqn:Erec.
  { destruct data; [contradiction | discriminate]. }
  destruct (yes_is_valid line Hline) as [Hvalid Hyes].
  rewrite (send_multiple_emails_review args _ first others bad line rest w
             Hrecords) by (try assumption; now inversion Hfull).
  rewrite Hyes.
  rewrite (send_all_ok args (first :: others) Hfull Hdelay) by assumption.
  eexists. eexists. split; [reflexivity|]. split.
  - cbn [trace log_events set_stdin]. rewrite <- app_assoc. reflexivity.
  - rewrite filter_app, filter_connection_batch.
    rewrite (is_review_no_connection _ (review_phase_review _ _ _)).
    reflexivity.
Qed.

Lemma one_connection_per_recipient_witness :
  exists w',
    send_multiple_emails
      [["EmailAddress"; "Name"]; ["a@x.com"; "Alice"]; ["b@x.com"; "Bob"]]
      sample_args (world0 ["y"]) = (Return tt, w')
    /\ map is_connection (filter is_connection (trace w'))
       = [true; true; true; true; true; true].
Proof.
  destruct (one_connection_per_recipient
              ["EmailAddress"; "Name"]
              [["a@x.com"; "Alice"]; ["b@x.com"; "Bob"]]
              sample_args [] "y" [] (world0 ["y"]))
    as (w' & evs & Hrun & Htr & Hcon).
  - now left.
  - discriminate.
  - repeat constructor.
  - reflexivity.
  - reflexivity.
  - now left.
  - intros t c. reflexivity.
  - intros t. reflexivity.
  - reflexivity.
  - reflexivity.
  - cbn. lia.
  - exists w'. split; [exact Hrun|]. rewrite Htr.
    change (trace (world0 ["y"]) ++ evs) with evs. rewrite Hcon. reflexivity.
Defined.

(** X14: on a table as in C4, confirmed, with a server that refuses every
    command, the run ends at the first recipient with the exception of the
    refused connection: that one refused connection is all that went to the
    server, no later recipient is tried and no pause is made. *)
Theorem refused_connection_stops_batch
    (fieldnames row : list string) (data : Csv.table)
    (args : cli_arguments) (bad : list string) (line : string)
    (rest : list string) (w : world) :
  In "EmailAddress" fieldnames ->
  Forall (fun r => List.length r = List.length fieldnames) (row :: data) ->
  stdin w = bad ++ line :: rest ->
  forallb invalid_answer bad = true ->
  PyStr.lower line = "y" \/ PyStr.lower line = EmptyString ->
  refuses_all w ->
  exists e w' evs,
    send_multiple_emails (fieldnames :: row :: data) args w
    = (Raise e, w')
    /\ trace w' = trace w ++ evs
    /\ filter is_smtp evs
       = [Smtp (Connect (smtp_server args) (smtp_port args)) false]
    /\ filter is_delivery evs = [].
Proof.
  intros Hhdr Hrows Hin Hbad Hline Href.
  set (first := Csv.row_dict fieldnames row).
  assert (Hne : fieldnames <> []) by (intros ->; destruct Hhdr).
  assert (Hrecords : Csv.DictReader (fieldnames :: row :: data)
                     = first :: map (Csv.row_dict fieldnames) data).
  { unfold Csv.DictReader. now rewrite (filter_nonblank fieldnames). }
  pose proof (records_full fieldnames (row :: data) Hhdr Hrows) as Hfull.
  cbn [map] in Hfull. fold first in Hfull.
  inversion Hfull as [|? ? [Hstr Hmem] _]; subst.
  destruct (yes_is_valid line Hline) as [Hvalid Hyes].
  rewrite (send_multiple_emails_review args _ first _ bad line rest w
             Hrecords Hmem Hin Hbad Hvalid).
  rewrite Hyes.
  assert (Hv : dict_get (Some "EmailAddress") first = Some (address_of first)).
  { unfold address_of. unfold dict_mem in Hmem.
    now destruct (dict_get (Some "EmailAddress") first). }
  rewrite (send_all_cons args first _ (address_of first) _ Hv).
  match goal with |- context [send_email ?v args (Some first) ?w1] =>
    destruct (send_email_session v args (Some first) w1)
      as (logs & session & Htr & Hlogs & _ & _ & _ & Hrefused);
    destruct (Hrefused (all_str_no_non_str first Hstr) Href) as [Hr Hs];
    destruct (send_email v args (Some first) w1) as [o w2]
  end.
  cbn [fst] in Hr. cbn [snd] in Htr. subst o session.
  eexists. exists w2. eexists. split; [reflexivity|]. split; [|split].
  - rewrite Htr. cbn [trace log_events set_stdin emit].
    repeat (rewrite <- app_assoc || rewrite <- app_comm_cons). reflexivity.
  - rewrite filter_app.
    rewrite (is_review_no_smtp _ (review_phase_review _ _ _)).
    cbn [app filter is_smtp]. rewrite filter_app.
    rewrite (filter_logs is_smtp logs) by (try reflexivity; exact Hlogs).
    reflexivity.
  - rewrite filter_app.
    rewrite (is_review_no_delivery _ (review_phase_review _ _ _)).
    cbn [app filter is_delivery]. rewrite filter_app.
    rewrite (filter_logs is_delivery logs) by (try reflexivity; exact Hlogs).
    reflexivity.
Qed.

Lemma refused_connection_stops_batch_witness :
  exists e w',
    send_multiple_emails
      [["EmailAddress"; "Name"]; ["a@x.com"; "Alice"]; ["b@x.com"; "Bob"]]
      sample_args (world_refusing ["y"]) = (Raise e, w')
    /\ filter is_smtp (trace w')
       = [Smtp (Connect "mail.corp.example" 25) false].
Proof.
  destruct (refused_connection_stops_batch
              ["EmailAddress"; "Name"] ["a@x.com"; "Alice"]
              [["b@x.com"; "Bob"]] sample_args [] "y" []
              (world_refusing ["y"]))
    as (e & w' & evs & Hrun & Htr & Hsmtp & _).
  - now left.
  - repeat constructor.
  - reflexivity.
  - reflexivity.
  - now left.
  - intros t c. reflexivity.
  - exists e, w'. split; [exact Hrun|]. rewrite Htr. exact Hsmtp.
Defined.

Section BatchOrder.

Variable args : cli_arguments.

(** The sending loop only adds events. *)
Lemma send_all_appends (rs : list dict) :
  forall w, exists evs, trace (snd (send_all rs args w)) = trace w ++ evs.
Proof.
  induction rs as [|r rs IH]; intros w.
  - exists []. cbn. now rewrite app_nil_r.
  - destruct (dict_get (Some "EmailAddress") r) as [v|] eqn:Ev.
    + rewrite (send_all_cons args r rs v w Ev).
      match goal with |- context [send_email v args ?d ?w1] =>
        destruct (send_email_run v args d w1) as (evs & Htr & _);
        destruct (send_email v args d w1) as [o w2] end.
      cbn [snd] in Htr. cbn [trace emit] in Htr.
      destruct o as [[]| |e];
        try (eexists; cbn [snd]; rewrite Htr, <- app_assoc; reflexivity).
      unfold sleep.
      destruct (_ || _);
        [eexists; cbn [snd]; rewrite Htr, <- app_assoc; reflexivity|].
      destruct (sending_delay args <? 0)%Z;
        [eexists; cbn [snd]; rewrite Htr, <- app_assoc; reflexivity|].
      destruct (clock _ _ _);
        [|eexists; cbn [snd]; rewrite Htr, <- app_assoc; reflexivity].
      match goal with |- context [send_all rs args ?w3] =>
        destruct (IH w3) as [evs' Htr'] end.
      rewrite Htr'. cbn [trace emit]. rewrite Htr.
      eexists. rewrite <- !app_assoc. reflexivity.
    + exists []. cbn [send_all]. unfold bind, subscript. rewrite Ev.
      cbn. now rewrite app_nil_r.
Qed.

Lemma rejected_events_review (question prompt : string) (bad : list string) :
  Forall is_review (rejected_events question prompt bad).
Proof.
  unfold rejected_events. apply Forall_app. split.
  - induction bad as [|b bad IH]; [constructor|].
    cbn [flat_map app]. repeat (constructor; [exact I|]). exact IH.
  - repeat constructor.
Qed.

End BatchOrder.

(** X16: a row that does not fit the header is found only when its turn
    comes. On a table whose first row fits and whose second row, not blank,
    is shorter or longer than the header, a confirmed run with a server that
    accepts every command and a delay from 0 to 9223372036 seconds that the
    operating system accepts as a pause hands over the message of the first
    recipient, pauses, and raises [TypeError] for the second; nothing is
    handed over for it or for any later row. *)
Theorem ragged_row_stops_batch_midway
    (fieldnames row1 row2 : list string) (data : Csv.table)
    (args : cli_arguments) (bad : list string) (line : string)
    (rest : list string) (w : world) :
  In "EmailAddress" fieldnames ->
  List.length row1 = List.length fieldnames ->
  row2 <> [] ->
  List.length row2 <> List.length fieldnames ->
  stdin w = bad ++ line :: rest ->
  forallb invalid_answer bad = true ->
  PyStr.lower line = "y" \/ PyStr.lower line = EmptyString ->
  accepts_all w -> pauses w (sending_delay args) ->
  body_pos w = 0 -> attachment_pos w = 0 ->
  (0 <= sending_delay args <= 9223372036)%Z ->
  exists w' evs,
    send_multiple_emails (fieldnames :: row1 :: row2 :: data) args w
    = (Raise TypeError, w')
    /\ trace w' = trace w ++ evs
    /\ filter is_delivery evs
       = recipient_delivery args (Csv.row_dict fieldnames row1).
Proof.
  intros Hhdr Hlen1 Hne2 Hlen2 Hin Hbad Hline Hacc Hclk Hb Ha Hdelay.
  set (first := Csv.row_dict fieldnames row1).
  set (second := Csv.row_dict fieldnames row2).
  assert (Hrecords :
    Csv.DictReader (fieldnames :: row1 :: row2 :: data)
    = first :: second
      :: map (Csv.row_dict fieldnames)
           (filter (fun r => negb (Csv.is_blank r)) data)).
  { unfold Csv.DictReader. cbn [filter].
    destruct row1 as [|c1 row1]; [destruct fieldnames; [destruct Hhdr|
      discriminate]|].
    destruct row2 as [|c2 row2]; [contradiction|]. reflexivity. }
  destruct (row_dict_full fieldnames row1 Hlen1) as [Hstr Hkeys].
  pose proof (Hkeys _ Hhdr) as Hmem. fold first in Hstr, Hmem.
  destruct (yes_is_valid line Hline) as [Hvalid Hyes].
  rewrite (send_multiple_emails_review args _ first _ bad line rest w
             Hrecords Hmem Hin Hbad Hvalid).
  rewrite Hyes.
  assert (Hv : dict_get (Some "EmailAddress") first = Some (address_of first)).
  { unfold address_of. unfold dict_mem in Hmem.
    now destruct (dict_get (Some "EmailAddress") first). }
  rewrite (send_all_cons args first _ (address_of first) _ Hv).
  match goal with |- context [send_email ?v args (Some first) ?w1] =>
    pose proof (send_email_ok v args (strings_of first) w1 Hacc Hb Ha)
      as Hsend end.
  rewrite <- (all_str_items first Hstr) in Hsend. rewrite Hsend.
  rewrite sleep_ok by (try exact Hdelay; apply Hclk).
  pose proof (row_dict_has_keys fieldnames row2 _ Hhdr) as Hmem2.
  fold second in Hmem2.
  assert (Hv2 : dict_get (Some "EmailAddress") second
                = Some (address_of second)).
  { unfold address_of. unfold dict_mem in Hmem2.
    now destruct (dict_get (Some "EmailAddress") second). }
  rewrite (send_all_cons args second _ (address_of second) _ Hv2).
  pose proof (row_dict_ragged fieldnames row2 Hlen2) as Hbad2.
  fold second in Hbad2.
  match goal with |- context [send_email ?v args (Some second) ?w1] =>
    destruct (send_email_split v args (Some second) w1)
      as (logs & session & Htr & Hlogs & _ & Hcase);
    destruct (send_email v args (Some second) w1) as [o w2]
  end.
  cbn [fst snd] in Htr, Hcase.
  destruct Hcase as [(-> & -> & _)|(Hd & _)];
    [|rewrite Hbad2 in Hd; discriminate Hd].
  exists w2. eexists. split; [reflexivity|]. split.
  - rewrite Htr. cbn [trace log_events set_stdin emit].
    repeat (rewrite <- app_assoc || rewrite <- app_comm_cons). reflexivity.
  - rewrite filter_app.
    rewrite (is_review_no_delivery _ (review_phase_review _ _ _)).
    cbn [app filter is_delivery].
    rewrite !filter_app, filter_replacing_logs, filter_session_events.
    cbn [app filter is_delivery]. rewrite app_nil_r.
    rewrite (filter_logs is_delivery logs) by (try reflexivity; exact Hlogs).
    reflexivity.
Qed.

Lemma ragged_row_stops_batch_midway_witness :
  exists w',
    send_multiple_emails
      [["EmailAddress"; "Name"]; ["a@x.com"; "Alice"]; ["b@x.com"];
       ["c@x.com"; "Carol"]]
      sample_args (world0 ["y"]) = (Raise TypeError, w')
    /\ filter is_delivery (trace w')
       = recipient_delivery sample_args
           (Csv.row_dict ["EmailAddress"; "Name"] ["a@x.com"; "Alice"]).
Proof.
  destruct (ragged_row_stops_batch_midway
              ["EmailAddress"; "Name"] ["a@x.com"; "Alice"] ["b@x.com"]
              [["c@x.com"; "Carol"]] sample_args [] "y" [] (world0 ["y"]))
    as (w' & evs & Hrun & Htr & Hdel).
  - now left.
  - reflexivity.
  - discriminate.
  - cbn. discriminate.
  - reflexivity.
  - reflexivity.
  - now left.
  - intros t c. reflexivity.
  - intros t. reflexivity.
  - reflexivity.
  - reflexivity.
  - cbn. lia.
  - exists w'. split; [exact Hrun|]. rewrite Htr. exact Hdel.
Defined.

(** X17: on a table that passes both checks, everything
    [send_multiple_emails] does up to the answer of the operator is the
    review: the count of recipients, then for each record in file order a
    separator and one line per field in column order, then the question
    (repeated after each rejected answer). Nothing goes to the server
    before the answer, whatever the answer and the server. *)
Theorem review_precedes_sending
    (rows : Csv.table) (first : dict) (others : list dict)
    (args : cli_arguments) (bad : list string) (line : string)
    (rest : list string) (w : world) :
  Csv.DictReader rows = first :: others ->
  dict_mem (Some "EmailAddress") first = true ->
  stdin w = bad ++ line :: rest ->
  forallb invalid_answer bad = true ->
  invalid_answer line = false ->
  exists later,
    trace (snd (send_multiple_emails rows args w))
    = trace w ++ review_phase (first :: others) bad line ++ later
    /\ filter is_smtp (review_phase (first :: others) bad line) = []
    /\ filter is_delivery (review_phase (first :: others) bad line) = [].
Proof.
  intros Hrows Hmem Hin Hbad Hvalid.
  rewrite (send_multiple_emails_review args rows first others bad line rest w
             Hrows Hmem Hin Hbad Hvalid).
  assert (Hquiet :
    filter is_smtp (review_phase (first :: others) bad line) = []
    /\ filter is_delivery (review_phase (first :: others) bad line) = []).
  { split; [apply is_review_no_smtp | apply is_review_no_delivery];
      apply review_phase_review. }
  destruct (_ || _).
  - match goal with |- context [send_all ?rs args ?w1] =>
      destruct (send_all_appends args rs w1) as [later Hlater] end.
    exists later. split; [|exact Hquiet]. rewrite Hlater.
    cbn [trace log_events set_stdin]. now rewrite <- app_assoc.
  - exists [user_termination]. split; [|exact Hquiet].
    cbn [snd trace log_events set_stdin]. reflexivity.
Qed.

Lemma review_precedes_sending_witness :
  exists later,
    trace (snd (send_multiple_emails
                  [["EmailAddress"; "Name"]; ["a@x.com"; "Alice"]]
                  sample_args (world_refusing ["y"])))
    = review_phase
        [Csv.row_dict ["EmailAddress"; "Name"] ["a@x.com"; "Alice"]] [] "y"
      ++ later.
Proof.
  destruct (review_precedes_sending
              [["EmailAddress"; "Name"]; ["a@x.com"; "Alice"]]
              (Csv.row_dict ["EmailAddress"; "Name"] ["a@x.com"; "Alice"]) []
              sample_args [] "y" [] (world_refusing ["y"]))
    as (later & Htr & _).
  - reflexivity.
  - reflexivity.
  - reflexivity.
  - reflexivity.
  - reflexivity.
  - exists later. exact Htr.
Defined.

(** X18: on a table that passes both checks, when standard input ends
    before an answer that is empty, [y] or [n] (nothing typed, or rejected
    answers only), [send_multiple_emails] raises [EOFError] after the
    review; nothing went to the server and no file was read. *)
Theorem end_of_input_sends_nothing
    (rows : Csv.table) (first : dict) (others : list dict)
    (args : cli_arguments) (w : world) :
  Csv.DictReader rows = first :: others ->
  dict_mem (Some "EmailAddress") first = true ->
  forallb invalid_answer (stdin w) = true ->
  fst (send_multiple_emails rows args w) = Raise EOFError
  /\ exists evs,
       trace (snd (send_multiple_emails rows args w)) = trace w ++ evs
       /\ Forall is_review evs
       /\ filter is_smtp evs = [].
Proof.
  intros Hrows Hmem Hbad.
  assert (Hrun : exists w',
    send_multiple_emails rows args w = (Raise EOFError, w')
    /\ trace w'
       = trace w
         ++ [Log INFO "The following %i emails are about to be sent:"
               [VInt (Z.of_nat (List.length (first :: others)))]]
         ++ review_events (first :: others)
         ++ rejected_events review_question " [Y/n] " (stdin w)).
  { unfold send_multiple_emails. rewrite Hrows. cbv zeta. rewrite Hmem.
    cbn [negb]. unfold bind at 1, logging at 1. unfold bind at 1.
    rewrite log_recipients_run. unfold bind at 1, confirm_action.
    change (confirm_prompt "y") with (Some " [Y/n] "). cbv beta iota.
    match goal with |- context [confirm_loop ?q ?d ?p ?l ?w1] =>
      destruct (confirm_loop_eof q d p (or_introl eq_refl) l w1 eq_refl)
        as (Hr & _ & Htr);
      [exact Hbad|];
      destruct (confirm_loop q d p l w1) as [o w2]
    end.
    cbn [fst snd] in Hr, Htr. subst o. exists w2. split; [reflexivity|].
    rewrite Htr. cbn [trace log_events emit stdin].
    now rewrite <- !app_assoc. }
  destruct Hrun as (w' & Hrun & Htr). rewrite Hrun. cbn [fst snd].
  split; [reflexivity|]. eexists. split; [exact Htr|].
  assert (Hrev : Forall is_review
            ([Log INFO "The following %i emails are about to be sent:"
                [VInt (Z.of_nat (List.length (first :: others)))]]
             ++ review_events (first :: others)
             ++ rejected_events review_question " [Y/n] " (stdin w))).
  { apply Forall_app. split; [repeat constructor|].
    apply Forall_app. split;
      [apply review_events_review | apply rejected_events_review]. }
  split; [exact Hrev | now apply is_review_no_smtp].
Qed.

Lemma end_of_input_sends_nothing_witness :
  fst (send_multiple_emails
         [["EmailAddress"; "Name"]; ["a@x.com"; "Alice"]]
         sample_args (world0 []))
  = Raise EOFError.
Proof.
  apply (end_of_input_sends_nothing
           [["EmailAddress"; "Name"]; ["a@x.com"; "Alice"]]
           (Csv.row_dict ["EmailAddress"; "Name"] ["a@x.com"; "Alice"]) []
           sample_args (world0 [])); reflexivity.
Defined.
